(** * The ellipsis wave generator (generate_ellipsis_wave.py)

    A shallow embedding of the script that renders the three-dot
    "ellipsis" animation and assembles it into an animated PNG.

    Python's [float] is IEEE 754 binary64.  The embedding keeps that
    arithmetic: every float operation of the script is the corresponding
    operation of the Standard Library's executable specification of
    binary64 ([SpecFloat], precision 53, maximal exponent 1024, rounding
    to nearest with ties to even).  Integers are [Z]; the file system the
    script touches is a finite map from path names to file contents.

    The statements are about these executable definitions.  The proof
    that the opacity stays in its range for every float goes through the
    real numbers: each operation returns its exact result rounded, and
    rounding to nearest keeps a value between any two floats that bound
    it. *)

From Stdlib Require Import ZArith Lia Bool Ascii.
From Stdlib Require Import Floats.SpecFloat.
From Stdlib Require Import Reals Lra.
From stdpp Require Import gmap strings list fin_maps pretty.

Open Scope Z_scope.

(* ===================================================================== *)
(** * Python floats *)
(* ===================================================================== *)

Module PyFloat.

Definition prec : Z := 53.
Definition emax : Z := 1024.

(** A Python float.  Finite values are kept in canonical form
    ([valid_binary]), which all operations below produce. *)
Definition float : Type := spec_float.

Definition valid (x : float) : bool := valid_binary prec emax x.

Definition fadd : float -> float -> float := SFadd prec emax.
Definition fsub : float -> float -> float := SFsub prec emax.
Definition fmul : float -> float -> float := SFmul prec emax.
(** [x / y] for a divisor that is not zero (Python raises
    ZeroDivisionError on a zero divisor; the script only ever divides
    by the non-zero constant TRANSITION_TIME). *)
Definition fdiv : float -> float -> float := SFdiv prec emax.
Definition flt : float -> float -> bool := SFltb.
Definition fle : float -> float -> bool := SFleb.

(** An integer as an unrounded mantissa with exponent 0. *)
Definition raw (n : Z) : float :=
  match n with
  | Z0 => S754_zero false
  | Zpos p => S754_finite false p 0
  | Zneg p => S754_finite true p 0
  end.

(** [float(n)]: the integer rounded to the nearest float. *)
Definition float_of_int (n : Z) : float := binary_normalize prec emax n 0 false.

(** A decimal literal with digits [d] and [k] digits after the point,
    that is the float nearest to d / 10^k. *)
Definition literal (d : Z) (k : nat) : float := fdiv (raw d) (raw (10 ^ Z.of_nat k)).

(** [a / b] on Python ints: the correctly rounded quotient;
    ZeroDivisionError and OverflowError are [None]. *)
Definition int_true_div (a b : Z) : option float :=
  if b =? 0 then None
  else match fdiv (raw a) (raw b) with
       | S754_infinity _ => None
       | q => Some q
       end.

(** C's [fmod]: the exact remainder, with the sign of the dividend. *)
Definition fmod (x y : float) : float :=
  match x, y with
  | S754_nan, _ | _, S754_nan => S754_nan
  | S754_infinity _, _ => S754_nan
  | _, S754_zero _ => S754_nan
  | S754_zero _, _ => x
  | S754_finite _ _ _, S754_infinity _ => x
  | S754_finite sx mx ex, S754_finite _ my ey =>
      let e := Z.min ex ey in
      let X := Zpos mx * 2 ^ (ex - e) in
      let Y := Zpos my * 2 ^ (ey - e) in
      binary_normalize prec emax (cond_Zopp sx (Z.rem X Y)) e sx
  end.

Definition is_zero (x : float) : bool :=
  match x with S754_zero _ => true | _ => false end.

Definition sign_bit (x : float) : bool :=
  match x with
  | S754_zero s | S754_infinity s | S754_finite s _ _ => s
  | S754_nan => false
  end.

(** [v % w] on floats (CPython's float_rem): the result takes the sign
    of the divisor; a zero divisor raises ZeroDivisionError. *)
Definition float_rem (v w : float) : option float :=
  if is_zero w then None
  else
    let m := fmod v w in
    if is_zero m then Some (S754_zero (sign_bit w))
    else if xorb (flt w (S754_zero false)) (flt m (S754_zero false))
         then Some (fadd m w)
         else Some m.

(** [int(x)]: truncation towards zero; ValueError (NaN) and
    OverflowError (infinities) are [None]. *)
Definition int_of_float (x : float) : option Z :=
  match x with
  | S754_zero _ => Some 0
  | S754_finite s m e =>
      Some (cond_Zopp s (match e with
                         | Zneg p => Z.quot (Zpos m) (2 ^ Zpos p)
                         | _ => Zpos m * 2 ^ e
                         end))
  | _ => None
  end.

End PyFloat.

Import PyFloat.

#[global] Instance float_eq_dec : EqDecision float.
Proof. unfold float. solve_decision. Defined.

Declare Scope pyfloat_scope.
Delimit Scope pyfloat_scope with py.
Infix "⊕" := fadd (at level 50, left associativity) : pyfloat_scope.
Infix "⊖" := fsub (at level 50, left associativity) : pyfloat_scope.
Infix "⊗" := fmul (at level 40, left associativity) : pyfloat_scope.
Infix "⊘" := fdiv (at level 40, left associativity) : pyfloat_scope.
Infix "⋖" := flt (at level 70, no associativity) : pyfloat_scope.
Infix "⩽" := fle (at level 70, no associativity) : pyfloat_scope.

(* ===================================================================== *)
(** * Images *)
(* ===================================================================== *)

(** An RGBA colour and a bounding box [x0, y0, x1, y1]. *)
Definition RGBA : Type := Z * Z * Z * Z.
Definition Box : Type := Z * Z * Z * Z.

(** A PIL image as the script builds it: created blank with
    [Image.new(mode, size, color)], then drawn on with
    [ImageDraw.Draw(img).ellipse(box, fill)].  The image is the canvas
    together with the filled ellipses in drawing order (later ellipses
    paint over earlier ones); the library's rasteriser decides the pixels
    from exactly this data. *)
Record Image : Type := mkImage {
  im_mode : string;
  im_size : Z * Z;
  im_background : RGBA;
  im_ellipses : list (Box * RGBA)
}.

#[global] Instance Image_eq_dec : EqDecision Image.
Proof. solve_decision. Defined.

Definition Image_new (mode : string) (size : Z * Z) (color : RGBA) : Image :=
  mkImage mode size color [].

(** [draw.ellipse(box, fill=fill)] on the image [img] that [draw] wraps. *)
Definition draw_ellipse (img : Image) (box : Box) (fill : RGBA) : Image :=
  mkImage (im_mode img) (im_size img) (im_background img)
          (im_ellipses img ++ [(box, fill)]).

Definition box_center (b : Box) : Z * Z :=
  let '(x0, y0, x1, y1) := b in ((x0 + x1) / 2, (y0 + y1) / 2).

Definition in_box (b : Box) (p : Z * Z) : bool :=
  let '(x0, y0, x1, y1) := b in
  (x0 <=? fst p) && (fst p <=? x1) && (y0 <=? snd p) && (snd p <=? y1).

(** The pixel at [p] where it does not depend on how the rasteriser
    treats the rim of an ellipse: the fill of the last ellipse whose
    centre is [p], the background when [p] lies in no bounding box, and
    undetermined ([None]) elsewhere. *)
Fixpoint paint (ops : list (Box * RGBA)) (p : Z * Z) (cur : option RGBA) : option RGBA :=
  match ops with
  | [] => cur
  | (b, c) :: rest =>
      if decide (box_center b = p) then paint rest p (Some c)
      else if in_box b p then paint rest p None
      else paint rest p cur
  end.

Definition getpixel (img : Image) (p : Z * Z) : option RGBA :=
  paint (im_ellipses img) p (Some (im_background img)).

(* ===================================================================== *)
(** * Animation parameters *)
(* ===================================================================== *)

(** The float literals of the script are written [literal d k] for the
    decimal with digits [d] and [k] digits after the point: [literal 25 2]
    is 0.25, [literal 10 1] is 1.0, [literal 1 1] is 0.1. *)

Definition DOT_SIZE : Z := 30.
Definition DOT_SPACING : Z := 26.
Definition FPS : Z := 30.
Definition CYCLE_DURATION : float := literal 15 1.

Definition FADE_START : list float := [literal 0 1; literal 25 2; literal 5 1].
Definition BRIGHTEN_START : list float := [literal 75 2; literal 10 1; literal 125 2].
Definition TRANSITION_TIME : float := literal 1 1.

Definition NUM_DOTS : nat := 3.
Definition TOTAL_WIDTH : Z := (DOT_SIZE * Z.of_nat NUM_DOTS) + (DOT_SPACING * (Z.of_nat NUM_DOTS - 1)).
Definition PADDING : Z := 2.
Definition WIDTH : Z := TOTAL_WIDTH + (PADDING * 2).
Definition HEIGHT : Z := DOT_SIZE + (PADDING * 2).
(** [int(CYCLE_DURATION * FPS)]; the product is finite, so [int] does not
    raise (see [TOTAL_FRAMES_int]). *)
Definition TOTAL_FRAMES : Z :=
  default 0 (int_of_float (CYCLE_DURATION ⊗ float_of_int FPS)%py).

(* ===================================================================== *)
(** * The opacity waveform and the frames *)
(* ===================================================================== *)

(** [get_opacity_at_time(dot_index, current_time)]; an index outside the
    timing tables raises IndexError ([None]). *)
Definition get_opacity_at_time (dot_index : nat) (current_time : float) : option float :=
  fade_time ← FADE_START !! dot_index;
  brighten_time ← BRIGHTEN_START !! dot_index;
  Some (
    if (current_time ⋖ fade_time)%py then literal 10 1
    else if (current_time ⋖ fade_time ⊕ TRANSITION_TIME)%py then
      let progress := ((current_time ⊖ fade_time) ⊘ TRANSITION_TIME)%py in
      (literal 10 1 ⊖ (literal 5 1 ⊗ progress))%py
    else if (current_time ⋖ brighten_time)%py then literal 5 1
    else if (current_time ⋖ brighten_time ⊕ TRANSITION_TIME)%py then
      let progress := ((current_time ⊖ brighten_time) ⊘ TRANSITION_TIME)%py in
      (literal 5 1 ⊕ (literal 5 1 ⊗ progress))%py
    else literal 10 1).

(** The time a frame samples: [(frame_num / FPS) % CYCLE_DURATION]. *)
Definition frame_time (frame_num : Z) : option float :=
  q ← int_true_div frame_num FPS;
  float_rem q CYCLE_DURATION.

(** The bounding box of dot [i]. *)
Definition dot_box (i : nat) : Box :=
  let x := PADDING + (Z.of_nat i * (DOT_SIZE + DOT_SPACING)) in
  let y := PADDING in
  (x, y, x + DOT_SIZE, y + DOT_SIZE).

(** One iteration of the loop over the dots in [create_frame]. *)
Definition draw_dot (current_time : float) (img : Image) (i : nat) : option Image :=
  opacity ← get_opacity_at_time i current_time;
  alpha ← int_of_float (opacity ⊗ float_of_int 255)%py;
  Some (draw_ellipse img (dot_box i) (0, 0, 0, alpha)).

Fixpoint draw_dots (current_time : float) (img : Image) (dots : list nat) : option Image :=
  match dots with
  | [] => Some img
  | i :: rest => img' ← draw_dot current_time img i; draw_dots current_time img' rest
  end.

Definition create_frame (frame_num : Z) : option Image :=
  let img := Image_new "RGBA" (WIDTH, HEIGHT) (0, 0, 0, 0) in
  current_time ← frame_time frame_num;
  draw_dots current_time img (seq 0 NUM_DOTS).

(* ===================================================================== *)
(** * The file system and the library calls *)
(* ===================================================================== *)

(** An animated PNG under construction or on disk: the frames in order,
    each with its delay in milliseconds. *)
Definition Animation : Type := list (Image * Z).

Inductive File : Type :=
  | PngFile (img : Image)
  | ApngFile (anim : Animation)
  | OtherFile (content : string).

(** The calls that touch the file system, in the order they happen. *)
Inductive Event : Type :=
  | EvMakedirs (path : string)
  | EvImageSave (path : string) (img : Image)
  | EvAppendFile (path : string) (img : Image) (delay : Z)
  | EvApngSave (path : string) (anim : Animation)
  | EvGetsize (path : string)
  | EvRemove (path : string).

Record World : Type := mkWorld {
  files : gmap string File;
  dirs : gset string;
  trace : list Event
}.

Inductive Exn : Type :=
  | FileNotFoundError (path : string)
  | FileExistsError (path : string)
  | PngFormatError (path : string)
  | ArithmeticError.

Inductive Result (A : Type) : Type :=
  | Ok (a : A) (w : World)
  | Raise (e : Exn) (w : World).
Arguments Ok {A} a w.
Arguments Raise {A} e w.

(** Computations that read and change the world and may raise. *)
Definition IO (A : Type) : Type := World -> Result A.

Definition io_ret {A} (a : A) : IO A := fun w => Ok a w.
Definition io_bind {A B} (m : IO A) (k : A -> IO B) : IO B :=
  fun w => match m w with
           | Ok a w' => k a w'
           | Raise e w' => Raise e w'
           end.
Definition io_raise {A} (e : Exn) : IO A := fun w => Raise e w.

#[global] Instance IO_ret : MRet IO := @io_ret.
#[global] Instance IO_bind : MBind IO := fun A B k m => io_bind m k.

(** A pure computation whose failure is an arithmetic exception. *)
Definition io_pure {A} (o : option A) : IO A :=
  match o with
  | Some a => io_ret a
  | None => io_raise ArithmeticError
  end.

Definition log (ev : Event) (w : World) : World :=
  mkWorld (files w) (dirs w) (trace w ++ [ev]).

(** [os.makedirs(path, exist_ok=True)] *)
Definition os_makedirs (path : string) : IO unit := fun w =>
  match files w !! path with
  | Some _ => Raise (FileExistsError path) w
  | None => Ok tt (mkWorld (files w) ({[path]} ∪ dirs w) (trace w ++ [EvMakedirs path]))
  end.

(** [img.save(path, 'PNG')].  A path is an opaque name: its directory
    part is not looked at (as a POSIX file name 'tmp\frame_0000.png' has
    none, and on Windows [main] has created the directory 'tmp' before
    the first save). *)
Definition Image_save (img : Image) (path : string) : IO unit := fun w =>
  Ok tt (mkWorld (<[path := PngFile img]> (files w)) (dirs w)
                 (trace w ++ [EvImageSave path img])).

(** [apng_obj.append_file(path, delay=delay)]: reads the PNG at [path]
    and appends it as the next frame. *)
Definition APNG_append_file (apng_obj : Animation) (path : string) (delay : Z)
  : IO Animation := fun w =>
  match files w !! path with
  | Some (PngFile img) => Ok (apng_obj ++ [(img, delay)]) (log (EvAppendFile path img delay) w)
  | Some _ => Raise (PngFormatError path) w
  | None => Raise (FileNotFoundError path) w
  end.

(** [apng_obj.save(path)] *)
Definition APNG_save (apng_obj : Animation) (path : string) : IO unit := fun w =>
  Ok tt (mkWorld (<[path := ApngFile apng_obj]> (files w)) (dirs w)
                 (trace w ++ [EvApngSave path apng_obj])).

(** [os.path.getsize(path)]; the size itself is only printed. *)
Definition os_path_getsize (path : string) : IO unit := fun w =>
  match files w !! path with
  | Some _ => Ok tt (log (EvGetsize path) w)
  | None => Raise (FileNotFoundError path) w
  end.

(** [os.remove(path)] *)
Definition os_remove (path : string) : IO unit := fun w =>
  match files w !! path with
  | Some _ => Ok tt (mkWorld (delete path (files w)) (dirs w) (trace w ++ [EvRemove path]))
  | None => Raise (FileNotFoundError path) w
  end.

(* ===================================================================== *)
(** * Generating the animation *)
(* ===================================================================== *)

(** [range(n)] *)
Definition range (n : Z) : list Z := Z.of_nat <$> seq 0 (Z.to_nat n).

Fixpoint zero_fill (k : nat) (s : string) : string :=
  match k with
  | O => s
  | S k' => "0" +:+ zero_fill k' s
  end.

(** The format specification [{i:04d}]: decimal, zero-padded to width 4,
    the sign counting towards the width. *)
Definition format_04d (i : Z) : string :=
  if i <? 0 then
    let s := pretty (Z.abs i) in "-" +:+ zero_fill (3 - String.length s) s
  else
    let s := pretty i in zero_fill (4 - String.length s) s.

(** [f'tmp\\frame_{i:04d}.png'] *)
Definition temp_path_of (i : Z) : string :=
  "tmp\frame_" +:+ format_04d i +:+ ".png".

(** The first loop of [generate_apng]: render each frame, save it to its
    temporary file and remember the path. *)
Fixpoint save_frames (frame_nums : list Z) (frame_files : list string)
  : IO (list string) :=
  match frame_nums with
  | [] => mret frame_files
  | i :: rest =>
      frame ← io_pure (create_frame i);
      let temp_path := temp_path_of i in
      _ ← Image_save frame temp_path;
      save_frames rest (frame_files ++ [temp_path])
  end.

(** The second loop: append every temporary file to the animation. *)
Fixpoint append_frames (frame_files : list string) (frame_duration : Z)
    (apng_obj : Animation) : IO Animation :=
  match frame_files with
  | [] => mret apng_obj
  | frame_path :: rest =>
      apng_obj' ← APNG_append_file apng_obj frame_path frame_duration;
      append_frames rest frame_duration apng_obj'
  end.

(** The cleanup loop. *)
Fixpoint remove_files (frame_files : list string) : IO unit :=
  match frame_files with
  | [] => mret tt
  | f :: rest => _ ← os_remove f; remove_files rest
  end.

(** [int(1000 / FPS)] *)
Definition frame_duration_of (fps : Z) : option Z :=
  q ← int_true_div 1000 fps; int_of_float q.

(** [generate_apng(output_path)].  The [print] calls, which only write
    to standard output (among them the table of key moments), are left
    out: the world does not record standard output. *)
Definition generate_apng (output_path : string) : IO unit :=
  frame_files ← save_frames (range TOTAL_FRAMES) [];
  let apng_obj : Animation := [] in
  frame_duration ← io_pure (frame_duration_of FPS);
  apng_obj ← append_frames frame_files frame_duration apng_obj;
  _ ← APNG_save apng_obj output_path;
  _ ← os_path_getsize output_path;
  remove_files frame_files.

(** The script run as a program, [argv] being [sys.argv]. *)
Definition main (argv : list string) : IO unit :=
  _ ← os_makedirs "tmp";
  let output_file := "ellipsis_animation.png" in
  let output_file :=
    if bool_decide (1 < length argv)%nat
    then default output_file (argv !! 1%nat)
    else output_file in
  generate_apng output_file.

(* ===================================================================== *)
(** * Vocabulary of the statements *)
(* ===================================================================== *)

(** The frames of one cycle, as [create_frame] renders them. *)
Definition cycle_frames : list Image :=
  default [] (mapM create_frame (range TOTAL_FRAMES)).

(** The temporary files of one run. *)
Definition temp_paths : list string := temp_path_of <$> range TOTAL_FRAMES.

Definition write_pngs (l : list (string * Image)) (m : gmap string File)
  : gmap string File :=
  foldl (fun m p => <[p.1 := PngFile p.2]> m) m l.

Definition delete_all (ps : list string) (m : gmap string File)
  : gmap string File :=
  foldl (fun m p => delete p m) m ps.

(** The events a computation adds to the trace of the world it starts in. *)
Definition new_events {A} (w : World) (r : Result A) : list Event :=
  match r with
  | Ok _ w' | Raise _ w' => drop (length (trace w)) (trace w')
  end.

Definition saved_animations (evs : list Event) : list (string * Animation) :=
  omap (fun ev => match ev with EvApngSave p a => Some (p, a) | _ => None end) evs.

Definition rendered_frames (evs : list Event) : list Image :=
  omap (fun ev => match ev with EvImageSave _ img => Some img | _ => None end) evs.

Definition is_remove (ev : Event) : bool :=
  match ev with EvRemove _ => true | _ => false end.

(** The trace of a complete run of [generate_apng]. *)
Definition expected_trace (output_path : string) (frames : list Image) (delay : Z)
  : list Event :=
  let paths := temp_path_of <$> range (Z.of_nat (length frames)) in
  (uncurry EvImageSave <$> zip paths frames)
  ++ ((fun pf => EvAppendFile pf.1 pf.2 delay) <$> zip paths frames)
  ++ [EvApngSave output_path ((fun img => (img, delay)) <$> frames);
      EvGetsize output_path]
  ++ (EvRemove <$> paths).

(** The alpha channel a dot is drawn with at time [t]. *)
Definition alpha_at (i : nat) (t : float) : option Z :=
  opacity ← get_opacity_at_time i t;
  int_of_float (opacity ⊗ float_of_int 255)%py.

(** The waveform as the specification words it: one case per interval,
    each with its own two-sided condition; the list collects the value of
    every case whose condition holds at [t]. *)
Definition reference_waveform (i : nat) (t : float) : list float :=
  match FADE_START !! i, BRIGHTEN_START !! i with
  | Some fs, Some bs =>
      (if (t ⋖ fs)%py then [literal 10 1] else [])
      ++ (if (fs ⩽ t)%py && (t ⋖ fs ⊕ literal 1 1)%py
          then [(literal 10 1 ⊖ literal 5 1 ⊗ ((t ⊖ fs) ⊘ literal 1 1))%py]
          else [])
      ++ (if (fs ⊕ literal 1 1 ⩽ t)%py && (t ⋖ bs)%py
          then [literal 5 1] else [])
      ++ (if (bs ⩽ t)%py && (t ⋖ bs ⊕ literal 1 1)%py
          then [(literal 5 1 ⊕ literal 5 1 ⊗ ((t ⊖ bs) ⊘ literal 1 1))%py]
          else [])
      ++ (if (bs ⊕ literal 1 1 ⩽ t)%py then [literal 10 1] else [])
  | _, _ => []
  end.

Definition box_x0 (b : Box) : Z := b.1.1.1.

Definition empty_world : World := mkWorld ∅ ∅ [].

(** Two images that differ at most by one step in the alpha of their
    ellipses. *)
Definition alpha_of (c : RGBA) : Z := c.2.
Definition same_up_to_alpha_step (img img' : Image) : Prop :=
  im_mode img = im_mode img' /\ im_size img = im_size img' /\
  im_background img = im_background img' /\
  Forall2 (fun e e' => e.1 = e'.1 /\ e.2.1 = e'.2.1 /\
                       Z.abs (alpha_of e.2 - alpha_of e'.2) <= 1)
          (im_ellipses img) (im_ellipses img').

#[global] Instance same_up_to_alpha_step_dec img img' :
  Decision (same_up_to_alpha_step img img').
Proof. unfold same_up_to_alpha_step. apply _. Defined.

(** Both frames were rendered, and they differ at most by one alpha
    step. *)
Definition rendered_alike (a b : option Image) : Prop :=
  match a, b with
  | Some img, Some img' => same_up_to_alpha_step img img'
  | _, _ => False
  end.

#[global] Instance rendered_alike_dec a b : Decision (rendered_alike a b).
Proof. destruct a, b; cbn; apply _. Defined.

(** Every ellipse of the image is black with an alpha between 127 and
    255. *)
Definition alphas_in_range (img : Image) : Prop :=
  Forall (fun e => e.2.1 = (0, 0, 0) /\ 127 <= alpha_of e.2 <= 255) (im_ellipses img).

#[global] Instance alphas_in_range_dec img : Decision (alphas_in_range img).
Proof. unfold alphas_in_range. apply _. Defined.

(** [t - 0.25 * i] *)
Definition shifted_time (i : nat) (t : float) : float :=
  (t ⊖ literal 25 2 ⊗ float_of_int (Z.of_nat i))%py.

(** The dots and frames of one cycle at which the opacity of dot [i]
    differs from that of dot 0 a quarter second per index earlier. *)
Definition shift_mismatches : list (nat * Z) :=
  filter (fun p => (frame_time p.2 ≫= get_opacity_at_time p.1)
                   <> (frame_time p.2 ≫= (get_opacity_at_time 0 ∘ shifted_time p.1)))
         (i ← seq 0 NUM_DOTS; n ← range TOTAL_FRAMES; [(i, n)]).

(** [t] is the end of the fade window of dot [i], and [i] is not the
    first dot. *)
Definition shift_exception (i : nat) (t : float) : Prop :=
  (0 < i)%nat /\ (fun start => (start ⊕ TRANSITION_TIME)%py) <$> FADE_START !! i = Some t.

#[global] Instance shift_exception_dec i t : Decision (shift_exception i t).
Proof. unfold shift_exception. apply _. Defined.

(* ===================================================================== *)
(** * The order of floats *)
(* ===================================================================== *)

Definition is_nan (x : float) : bool :=
  match x with S754_nan => true | _ => false end.

(** The position of a float in the order that [<] and [<=] decide:
    class (infinities, negative, zero, positive), then exponent, then
    mantissa, the last two negated for negative numbers. *)
Definition key1 (x : float) : Z :=
  match x with
  | S754_infinity s => if s then -2 else 2
  | S754_finite s _ _ => if s then -1 else 1
  | _ => 0
  end.
Definition key2 (x : float) : Z :=
  match x with
  | S754_finite s _ e => if s then - e else e
  | _ => 0
  end.
Definition key3 (x : float) : Z :=
  match x with
  | S754_finite s m _ => if s then Zneg m else Zpos m
  | _ => 0
  end.

Definition key_lt (x y : float) : Prop :=
  key1 x < key1 y \/
  (key1 x = key1 y /\ (key2 x < key2 y \/ (key2 x = key2 y /\ key3 x < key3 y))).

Definition key_le (x y : float) : Prop :=
  key1 x < key1 y \/
  (key1 x = key1 y /\ (key2 x < key2 y \/ (key2 x = key2 y /\ key3 x <= key3 y))).

#[global] Instance key_lt_dec x y : Decision (key_lt x y).
Proof. unfold key_lt. apply _. Defined.
#[global] Instance key_le_dec x y : Decision (key_le x y).
Proof. unfold key_le. apply _. Defined.


(* ===================================================================== *)
(** * The values of floats *)
(* ===================================================================== *)

Definition bpow (e : Z) : R := powerRZ 2 e.

(** The real number a float stands for (0 for NaN and the infinities). *)
Definition F2R (x : float) : R :=
  match x with
  | S754_finite s m e => (IZR (cond_Zopp s (Zpos m)) * bpow e)%R
  | _ => 0%R
  end.

Definition is_nonneg (x : float) : bool :=
  match x with
  | S754_zero _ | S754_finite false _ _ => true
  | _ => false
  end.

(** A canonical float that is zero or positive and finite. *)
Definition good (x : float) : Prop := valid x = true /\ is_nonneg x = true.

Definition fexp53 (e : Z) : Z := Z.max (e - 53) (-1074).

(** Where the remainder [r] of a division by [D] lies in a unit step. *)
Definition loc_of (r D : Z) : location :=
  if r =? 0 then loc_Exact else loc_Inexact (2 * r ?= D).

(** The shift record of the quotient N / D. *)
Definition rec_of (N D : Z) : shr_record :=
  {| shr_m := N / D;
     shr_r := D <=? 2 * (N mod D);
     shr_s := negb (N mod D =? 0) && negb (2 * (N mod D) =? D) |}.

(** The value [get_opacity_at_time] computes for fade and brighten start
    times [fs] and [bs]. *)
Definition opacity_value (fs bs t : float) : float :=
  if (t ⋖ fs)%py then literal 10 1
  else if (t ⋖ fs ⊕ TRANSITION_TIME)%py then
    (literal 10 1 ⊖ (literal 5 1 ⊗ ((t ⊖ fs) ⊘ TRANSITION_TIME)))%py
  else if (t ⋖ bs)%py then literal 5 1
  else if (t ⋖ bs ⊕ TRANSITION_TIME)%py then
    (literal 5 1 ⊕ (literal 5 1 ⊗ ((t ⊖ bs) ⊘ TRANSITION_TIME)))%py
  else literal 10 1.

(** A window [start, start + TRANSITION_TIME) whose end is a float with
    mantissa [mh] and exponent [eh], at most TRANSITION_TIME plus one
    unit in the last place after [start]. *)
Definition window_ok (start : float) (mh : positive) (eh : Z) : Prop :=
  good start /\
  (start ⊕ TRANSITION_TIME)%py = S754_finite false mh eh /\
  valid (S754_finite false mh eh) = true /\ 2 ^ 52 < Zpos mh /\
  (IZR (Zpos mh - 1) * bpow eh - F2R start <= F2R TRANSITION_TIME)%R.

(** The facts about the timing constants of a dot that make its
    waveform the first dot's waveform delayed by [s]. *)
Record shift_facts (s hi bs hb P01 P075 P085 : float) : Prop := {
  sf_s : exists ms es, s = S754_finite false ms es /\ valid s = true;
  sf_hi : (s ⊕ TRANSITION_TIME)%py = hi;
  sf_hb : (bs ⊕ TRANSITION_TIME)%py = hb;
  sf_good : good hi /\ good bs /\ good hb /\ good P01 /\ good P075 /\ good P085;
  sf_P01 : (F2R P01 < F2R (literal 1 1))%R;
  sf_P075 : (F2R P075 < F2R (literal 75 2))%R;
  sf_P085 : (F2R P085 < F2R (literal 85 2))%R;
  sf_fade_in : forall t, good t -> flt t hi = true -> (F2R t - F2R s <= F2R P01)%R;
  sf_fade_out : forall t, good t -> flt t hi = false -> t <> hi ->
                          (F2R (literal 1 1) <= F2R t - F2R s)%R;
  sf_low_in : forall t, good t -> flt t bs = true -> (F2R t - F2R s <= F2R P075)%R;
  sf_low_out : (F2R bs - F2R s = F2R (literal 75 2))%R;
  sf_bright_in : forall t, good t -> flt t hb = true -> (F2R t - F2R s <= F2R P085)%R;
  sf_bright_out : (F2R (literal 85 2) <= F2R hb - F2R s)%R;
  sf_exact : forall t, good t -> flt t bs = false -> flt t hb = true ->
                       fsub t bs = fsub (fsub t s) (literal 75 2)
}.


(* ===================================================================== *)
(** * Vocabulary of the further properties *)
(* ===================================================================== *)

(** The time one pass through an animation takes: the sum of the delays
    of its frames, in milliseconds. *)
Definition playback_time (anim : Animation) : Z := foldr Z.add 0 (anim.*2).

(** The files that a run which starts with the files [m] leaves. *)
Definition files_after (output_path : string) (m : gmap string File) : gmap string File :=
  delete_all temp_paths
    (<[output_path := ApngFile ((fun img => (img, 33)) <$> cycle_frames)]>
       (write_pngs (zip temp_paths cycle_frames) m)).

(** A decimal numeral without sign: not empty, and without a leading
    zero unless it is "0". *)
Definition numeral (s : string) : Prop :=
  match s with
  | EmptyString => False
  | String c rest => c <> "-"%char /\ (c = "0"%char -> rest = EmptyString)
  end.

(** A float in the canonical form that is zero or positive and below
    CYCLE_DURATION. *)
Definition in_cycle (t : float) : Prop :=
  valid t = true /\ (literal 0 1 ⩽ t)%py = true /\ (t ⋖ CYCLE_DURATION)%py = true.

(** [r] is the exact value [v], which is not negative, rounded to a
    float by [binary_round_aux]. *)
Definition rounds_to (v : R) (r : float) : Prop :=
  (v = 0%R /\ exists s, r = S754_zero s) \/
  exists N D ex,
    0 <= N /\ 0 < D /\ ex <= fexp53 (Zdigits2 (N / D) + ex) /\
    v = (IZR N / IZR D * bpow ex)%R /\
    r = binary_round_aux prec emax false (N / D) ex (loc_of (N mod D) D).

(** The waveform of a dot with fade start [fs] and brighten start [bs]
    in exact arithmetic: the branches of [get_opacity_at_time] over the
    real numbers, with a transition time of exactly one tenth. *)
Definition exact_opacity (fs bs t y : R) : Prop :=
  ((t < fs /\ y = 1) \/
   (fs <= t < fs + 1 / 10 /\ y = 1 - 1 / 2 * ((t - fs) / (1 / 10))) \/
   (fs + 1 / 10 <= t < bs /\ y = 1 / 2) \/
   (bs <= t < bs + 1 / 10 /\ y = 1 / 2 + 1 / 2 * ((t - bs) / (1 / 10))) \/
   (bs + 1 / 10 <= t /\ y = 1))%R.

(** A float that is a number: not NaN and not an infinity. *)
Definition is_finite (x : float) : bool :=
  match x with
  | S754_zero _ | S754_finite _ _ _ => true
  | _ => false
  end.

(* ===================================================================== *)
(** * Constants *)
(* ===================================================================== *)

Lemma TOTAL_FRAMES_int :
  int_of_float (CYCLE_DURATION ⊗ float_of_int FPS)%py = Some 45.
Proof. vm_compute. reflexivity. Qed.

Lemma TOTAL_FRAMES_eq : TOTAL_FRAMES = 45.
Proof. vm_compute. reflexivity. Qed.

Lemma frame_duration_eq : frame_duration_of FPS = Some 33.
Proof. vm_compute. reflexivity. Qed.

Lemma canvas_size : WIDTH = 146 /\ HEIGHT = 34.
Proof. split; reflexivity. Qed.

Lemma cycle_frames_ok : mapM create_frame (range TOTAL_FRAMES) = Some cycle_frames.
Proof. vm_compute. reflexivity. Qed.

Lemma cycle_frames_length : length cycle_frames = 45%nat.
Proof. vm_compute. reflexivity. Qed.

Lemma temp_paths_NoDup : NoDup temp_paths.
Proof. apply (bool_decide_unpack _). vm_compute. reflexivity. Qed.

Lemma temp_paths_length : length temp_paths = 45%nat.
Proof. vm_compute. reflexivity. Qed.

(** ** Sample evaluations *)

(** 0.1 is 0x1.999999999999ap-4. *)
Example one_tenth : literal 1 1 = S754_finite false 7205759403792794 (-56).
Proof. vm_compute. reflexivity. Qed.

(** The ends of the six transition windows are the floats 0.1, 0.35, 0.6,
    0.85, 1.1 and 1.35. *)
Example window_ends :
  (fun start => (start ⊕ TRANSITION_TIME)%py) <$> (FADE_START ++ BRIGHTEN_START)
  = [literal 1 1; literal 35 2; literal 6 1; literal 85 2; literal 11 1; literal 135 2].
Proof. vm_compute. reflexivity. Qed.

(** 17 / 30 = 0.5666666666666667 and (62 / 30) % 1.5 = 0.5666666666666669. *)
Example frame_time_17_62 :
  frame_time 17 = Some (literal 5666666666666667 16) /\
  frame_time 62 = Some (literal 5666666666666669 16).
Proof. split; vm_compute; reflexivity. Qed.

Example create_frame_17 :
  create_frame 17
  = Some (mkImage "RGBA" (146, 34) (0, 0, 0, 0)
            [((2, 2, 32, 32), (0, 0, 0, 127));
             ((58, 2, 88, 32), (0, 0, 0, 127));
             ((114, 2, 144, 32), (0, 0, 0, 170))]).
Proof. vm_compute. reflexivity. Qed.

(** The pattern of the docstring: the opacities at the key times. *)
Example key_moments :
  (fun t => (fun i => get_opacity_at_time i t) <$> seq 0 NUM_DOTS)
    <$> [literal 0 1; literal 25 2; literal 5 1; literal 75 2;
         literal 10 1; literal 125 2; literal 15 1]
  = [ [Some (literal 10 1); Some (literal 10 1); Some (literal 10 1)];
      [Some (literal 5 1); Some (literal 10 1); Some (literal 10 1)];
      [Some (literal 5 1); Some (literal 5 1); Some (literal 10 1)];
      [Some (literal 5 1); Some (literal 5 1); Some (literal 5 1)];
      [Some (literal 10 1); Some (literal 5 1); Some (literal 5 1)];
      [Some (literal 10 1); Some (literal 10 1); Some (literal 5 1)];
      [Some (literal 10 1); Some (literal 10 1); Some (literal 10 1)] ].
Proof. vm_compute. reflexivity. Qed.

Example temp_path_17 : temp_path_of 17 = "tmp\frame_0017.png".
Proof. vm_compute. reflexivity. Qed.

(* ===================================================================== *)
(** * The loops of generate_apng *)
(* ===================================================================== *)

Section Loops.

Lemma io_bind_ok {A B} (m : IO A) (k : A -> IO B) w a w' :
  m w = Ok a w' -> (x ← m; k x) w = k a w'.
Proof. intros H. unfold mbind, IO_bind, io_bind. rewrite H. reflexivity. Qed.

Lemma write_pngs_snoc l p img (m : gmap string File) :
  write_pngs (l ++ [(p, img)]) m = <[p := PngFile img]> (write_pngs l m).
Proof. unfold write_pngs. rewrite foldl_app. reflexivity. Qed.

Lemma write_pngs_cons l p img (m : gmap string File) :
  write_pngs ((p, img) :: l) m = write_pngs l (<[p := PngFile img]> m).
Proof. reflexivity. Qed.

Lemma write_pngs_lookup_notin l (m : gmap string File) p :
  p ∉ l.*1 -> write_pngs l m !! p = m !! p.
Proof.
  revert m. induction l as [|[q img] l IH]; intros m Hp; [reflexivity|].
  cbn in Hp. apply not_elem_of_cons in Hp as [Hne Hp].
  rewrite write_pngs_cons, IH by exact Hp.
  apply lookup_insert_ne. congruence.
Qed.

Lemma write_pngs_lookup l (m : gmap string File) p img :
  NoDup l.*1 -> (p, img) ∈ l -> write_pngs l m !! p = Some (PngFile img).
Proof.
  revert m. induction l as [|[q img'] l IH]; intros m Hnd Hin.
  - inversion Hin.
  - apply NoDup_cons in Hnd as [Hq Hnd]. rewrite write_pngs_cons.
    apply elem_of_cons in Hin as [Heq|Hin].
    + inversion Heq; subst. rewrite write_pngs_lookup_notin by exact Hq.
      apply lookup_insert_eq.
    + apply IH; assumption.
Qed.

Lemma delete_all_cons q ps (m : gmap string File) :
  delete_all (q :: ps) m = delete_all ps (delete q m).
Proof. reflexivity. Qed.

Lemma delete_all_lookup_notin ps (m : gmap string File) p :
  p ∉ ps -> delete_all ps m !! p = m !! p.
Proof.
  revert m. induction ps as [|q ps IH]; intros m Hin; [reflexivity|].
  apply not_elem_of_cons in Hin as [Hne Hin].
  rewrite delete_all_cons, IH by exact Hin.
  apply lookup_delete_ne. congruence.
Qed.

Lemma delete_all_lookup_in ps (m : gmap string File) p :
  p ∈ ps -> delete_all ps m !! p = None.
Proof.
  revert m. induction ps as [|q ps IH]; intros m Hin; [inversion Hin|].
  rewrite delete_all_cons.
  destruct (decide (p ∈ ps)) as [H|H]; [apply IH, H|].
  apply elem_of_cons in Hin as [->|Hin]; [|contradiction].
  rewrite delete_all_lookup_notin by exact H. apply lookup_delete_eq.
Qed.

Lemma save_frames_ok ns : forall imgs acc w,
  Forall2 (fun n img => create_frame n = Some img) ns imgs ->
  save_frames ns acc w =
    Ok (acc ++ (temp_path_of <$> ns))
       (mkWorld (write_pngs (zip (temp_path_of <$> ns) imgs) (files w)) (dirs w)
                (trace w ++ (uncurry EvImageSave <$> zip (temp_path_of <$> ns) imgs))).
Proof.
  induction ns as [|n ns IH]; intros imgs acc w H.
  - inversion H; subst. cbn. rewrite !app_nil_r. destruct w; reflexivity.
  - inversion H as [|? img ? imgs' Hn Hrest]; subst. cbn [save_frames].
    unfold mbind, IO_bind, io_bind. rewrite Hn. cbn.
    rewrite IH with (imgs := imgs') by assumption. cbn.
    rewrite <- !app_assoc. reflexivity.
Qed.

Lemma append_frames_ok d : forall (pfs : list (string * Image)) acc w,
  (forall p img, (p, img) ∈ pfs -> files w !! p = Some (PngFile img)) ->
  append_frames pfs.*1 d acc w =
    Ok (acc ++ ((fun img => (img, d)) <$> pfs.*2))
       (mkWorld (files w) (dirs w)
                (trace w ++ ((fun pf => EvAppendFile pf.1 pf.2 d) <$> pfs))).
Proof.
  induction pfs as [|[p img] pfs IH]; intros acc w H.
  - cbn. rewrite !app_nil_r. destruct w; reflexivity.
  - cbn [fmap list_fmap fst append_frames].
    unfold mbind, IO_bind, io_bind, APNG_append_file.
    rewrite (H p img) by left. cbn.
    rewrite IH by (intros; cbn; apply H; right; assumption).
    cbn. rewrite <- !app_assoc. reflexivity.
Qed.

Lemma remove_files_ok : forall ps w,
  NoDup ps -> (forall p, p ∈ ps -> is_Some (files w !! p)) ->
  remove_files ps w =
    Ok tt (mkWorld (delete_all ps (files w)) (dirs w) (trace w ++ (EvRemove <$> ps))).
Proof.
  induction ps as [|p ps IH]; intros w Hnd H.
  - cbn. rewrite app_nil_r. destruct w; reflexivity.
  - apply NoDup_cons in Hnd as [Hp Hnd]. cbn [remove_files].
    unfold mbind, IO_bind, io_bind, os_remove.
    destruct (H p) as [f Hf]; [left|]. rewrite Hf.
    rewrite IH; [| assumption |].
    + cbn. rewrite <- !app_assoc. reflexivity.
    + intros q Hq. cbn. rewrite lookup_delete_ne by (intros ->; contradiction).
      apply H. right. exact Hq.
Qed.

End Loops.

Lemma write_pngs_is_Some l (m : gmap string File) p :
  p ∈ l.*1 -> is_Some (write_pngs l m !! p).
Proof.
  revert m. induction l as [|[q img] l IH]; intros m Hin; [inversion Hin|].
  rewrite write_pngs_cons. destruct (decide (p ∈ l.*1)) as [H|H]; [apply IH, H|].
  rewrite write_pngs_lookup_notin by exact H.
  cbn in Hin. apply elem_of_cons in Hin as [->|Hin]; [|contradiction].
  rewrite lookup_insert_eq. eauto.
Qed.

Lemma cycle_frames_Forall2 :
  Forall2 (fun n img => create_frame n = Some img) (range TOTAL_FRAMES) cycle_frames.
Proof. apply mapM_Some_1, cycle_frames_ok. Qed.

Lemma temp_frames_fst : (zip temp_paths cycle_frames).*1 = temp_paths.
Proof. apply fst_zip. rewrite temp_paths_length, cycle_frames_length. lia. Qed.

Lemma temp_frames_snd : (zip temp_paths cycle_frames).*2 = cycle_frames.
Proof. apply snd_zip. rewrite temp_paths_length, cycle_frames_length. lia. Qed.

Lemma expected_trace_paths :
  temp_path_of <$> range (Z.of_nat (length cycle_frames)) = temp_paths.
Proof. rewrite cycle_frames_length. reflexivity. Qed.

(** A run of [generate_apng] never raises; it leaves the world below. *)
Lemma generate_apng_run output_path w :
  generate_apng output_path w =
    Ok tt (mkWorld
             (delete_all temp_paths
                (<[output_path := ApngFile ((fun img => (img, 33)) <$> cycle_frames)]>
                   (write_pngs (zip temp_paths cycle_frames) (files w))))
             (dirs w)
             (trace w ++ expected_trace output_path cycle_frames 33)).
Proof.
  unfold generate_apng.
  rewrite (io_bind_ok _ _ _ _ _ (save_frames_ok _ _ [] w cycle_frames_Forall2)).
  rewrite frame_duration_eq. cbn [io_pure].
  unfold mbind at 1, IO_bind at 1, io_bind at 1, io_ret at 1.
  fold temp_paths. rewrite app_nil_l.
  rewrite <- temp_frames_fst at 1.
  erewrite io_bind_ok; cycle 1.
  { apply append_frames_ok. intros p img Hin. cbn [files].
    apply write_pngs_lookup; [|exact Hin].
    rewrite temp_frames_fst. apply temp_paths_NoDup. }
  rewrite temp_frames_snd, app_nil_l. cbn [files dirs trace].
  unfold mbind at 1, IO_bind at 1, io_bind at 1, APNG_save at 1. cbn [files dirs trace].
  unfold mbind at 1, IO_bind at 1, io_bind at 1, os_path_getsize at 1. cbn [files dirs trace].
  rewrite lookup_insert_eq. unfold log. cbn [files dirs trace].
  rewrite remove_files_ok.
  - cbn [files dirs trace]. unfold expected_trace. rewrite expected_trace_paths.
    rewrite <- !app_assoc. reflexivity.
  - apply temp_paths_NoDup.
  - intros p Hp. cbn [files].
    destruct (decide (output_path = p)) as [->|Hne].
    + rewrite lookup_insert_eq. eauto.
    + rewrite lookup_insert_ne by exact Hne.
      apply write_pngs_is_Some. rewrite temp_frames_fst. exact Hp.
Qed.

Lemma new_events_run output_path w :
  new_events w (generate_apng output_path w) = expected_trace output_path cycle_frames 33.
Proof.
  rewrite generate_apng_run. unfold new_events. cbn [trace].
  apply drop_app_length.
Qed.

Lemma rendered_expected output_path :
  rendered_frames (expected_trace output_path cycle_frames 33) = cycle_frames.
Proof. vm_compute. reflexivity. Qed.

Lemma saved_expected output_path :
  saved_animations (expected_trace output_path cycle_frames 33)
  = [(output_path, (fun img => (img, 33)) <$> cycle_frames)].
Proof. vm_compute. reflexivity. Qed.

Lemma draw_dots_ellipses t : forall dots img img',
  draw_dots t img dots = Some img' ->
  im_size img' = im_size img /\
  (im_ellipses img').*1 = (im_ellipses img).*1 ++ (dot_box <$> dots).
Proof.
  induction dots as [|i dots IH]; intros img img' H.
  - cbn in H. inversion H; subst. rewrite app_nil_r. auto.
  - cbn [draw_dots] in H.
    destruct (draw_dot t img i) as [img1|] eqn:Hd; [|discriminate].
    cbn [mbind option_bind] in H. apply IH in H as [Hs He].
    unfold draw_dot in Hd.
    destruct (get_opacity_at_time i t) as [opacity|]; [|discriminate].
    cbn [mbind option_bind] in Hd.
    destruct (int_of_float (opacity ⊗ float_of_int 255)%py) as [alpha|]; [|discriminate].
    cbn [mbind option_bind] in Hd. inversion Hd; subst img1. clear Hd.
    cbn [draw_ellipse im_size im_ellipses] in Hs, He. split; [exact Hs|].
    rewrite He, fmap_app, <- app_assoc. reflexivity.
Qed.

Lemma create_frame_ellipses n img :
  create_frame n = Some img ->
  im_size img = (WIDTH, HEIGHT) /\
  (im_ellipses img).*1 = dot_box <$> seq 0 NUM_DOTS.
Proof.
  unfold create_frame. intros H.
  destruct (frame_time n) as [t|]; [|discriminate]. cbn [mbind option_bind] in H.
  apply draw_dots_ellipses in H. exact H.
Qed.

(* ===================================================================== *)
(** * Layout of a frame *)
(* ===================================================================== *)

(** C3: every frame that [create_frame] returns holds exactly three
    ellipses, drawn left to right at x = PADDING + i*(DOT_SIZE +
    DOT_SPACING) for i = 0, 1, 2; the fade start times and the brighten
    start times increase strictly with the dot index, and every fade
    start is earlier than every brighten start. *)
Theorem three_dots_sequential :
  (forall n img, create_frame n = Some img ->
     length (im_ellipses img) = 3%nat /\
     (im_ellipses img).*1 = [dot_box 0; dot_box 1; dot_box 2] /\
     box_x0 <$> (im_ellipses img).*1
       = (fun i => PADDING + Z.of_nat i * (DOT_SIZE + DOT_SPACING)) <$> [0; 1; 2]%nat) /\
  (forall i j a b, (i < j)%nat ->
     FADE_START !! i = Some a -> FADE_START !! j = Some b -> (a ⋖ b)%py = true) /\
  (forall i j a b, (i < j)%nat ->
     BRIGHTEN_START !! i = Some a -> BRIGHTEN_START !! j = Some b -> (a ⋖ b)%py = true) /\
  (forall i j a b,
     FADE_START !! i = Some a -> BRIGHTEN_START !! j = Some b -> (a ⋖ b)%py = true).
Proof.
  split; [|split; [|split]].
  - intros n img H. apply create_frame_ellipses in H as [_ He].
    split; [|split].
    + rewrite <- (length_fmap fst), He. reflexivity.
    + exact He.
    + rewrite He. reflexivity.
  - intros i j a b Hlt Ha Hb.
    destruct i as [|[|[|i]]]; destruct j as [|[|[|j]]];
      try lia; try discriminate; inversion Ha; inversion Hb; vm_compute; reflexivity.
  - intros i j a b Hlt Ha Hb.
    destruct i as [|[|[|i]]]; destruct j as [|[|[|j]]];
      try lia; try discriminate; inversion Ha; inversion Hb; vm_compute; reflexivity.
  - intros i j a b Ha Hb.
    destruct i as [|[|[|i]]]; destruct j as [|[|[|j]]];
      try discriminate; inversion Ha; inversion Hb; vm_compute; reflexivity.
Qed.

Lemma three_dots_sequential_witness :
  create_frame 7 = Some (mkImage "RGBA" (146, 34) (0, 0, 0, 0)
                           [(dot_box 0, (0, 0, 0, 127));
                            (dot_box 1, (0, 0, 0, 255));
                            (dot_box 2, (0, 0, 0, 255))]) /\
  box_x0 <$> [dot_box 0; dot_box 1; dot_box 2] = [2; 58; 114] /\
  (literal 25 2 ⋖ literal 5 1)%py = true.
Proof.
  assert (H7 : create_frame 7 = Some (mkImage "RGBA" (146, 34) (0, 0, 0, 0)
                           [(dot_box 0, (0, 0, 0, 127));
                            (dot_box 1, (0, 0, 0, 255));
                            (dot_box 2, (0, 0, 0, 255))])) by (vm_compute; reflexivity).
  destruct three_dots_sequential as [Hf [Hinc _]].
  split; [exact H7|]. split.
  - destruct (Hf 7 _ H7) as [_ [_ Hx]]. exact Hx.
  - apply (Hinc 1%nat 2%nat); [lia | reflexivity | reflexivity].
Defined.

(** C10: every ellipse that [create_frame] draws has the bounding box
    [x, y, x + DOT_SIZE, y + DOT_SIZE] of one of the three dots, and that
    box lies inside the canvas of WIDTH = 146 by HEIGHT = 34 pixels. *)
Theorem dots_inside_canvas n img x0 y0 x1 y1 fill :
  create_frame n = Some img ->
  ((x0, y0, x1, y1), fill) ∈ im_ellipses img ->
  im_size img = (WIDTH, HEIGHT) /\ WIDTH = 146 /\ HEIGHT = 34 /\
  (exists i, (i < NUM_DOTS)%nat /\
             x0 = PADDING + Z.of_nat i * (DOT_SIZE + DOT_SPACING)) /\
  y0 = PADDING /\ x1 = x0 + DOT_SIZE /\ y1 = y0 + DOT_SIZE /\
  0 <= x0 /\ x1 <= WIDTH /\ 0 <= y0 /\ y1 <= HEIGHT.
Proof.
  intros H Hin. apply create_frame_ellipses in H as [Hs He].
  assert (Hb : (x0, y0, x1, y1) ∈ (im_ellipses img).*1).
  { apply list_elem_of_fmap. exists ((x0, y0, x1, y1), fill). split; [reflexivity|exact Hin]. }
  rewrite He in Hb. split; [exact Hs|]. split; [reflexivity|]. split; [reflexivity|].
  cbn in Hb. unfold dot_box in Hb.
  repeat (apply elem_of_cons in Hb as [Hb|Hb]); try (inversion Hb; fail).
  - inversion Hb; subst. split; [exists 0%nat; split; [unfold NUM_DOTS; lia|reflexivity]|].
    vm_compute. repeat split; congruence.
  - inversion Hb; subst. split; [exists 1%nat; split; [unfold NUM_DOTS; lia|reflexivity]|].
    vm_compute. repeat split; congruence.
  - inversion Hb; subst. split; [exists 2%nat; split; [unfold NUM_DOTS; lia|reflexivity]|].
    vm_compute. repeat split; congruence.
Qed.

Lemma dots_inside_canvas_witness :
  0 <= 114 /\ 144 <= WIDTH /\ 0 <= 2 /\ 32 <= HEIGHT.
Proof.
  assert (H : create_frame 0 = Some (mkImage "RGBA" (146, 34) (0, 0, 0, 0)
                           [(dot_box 0, (0, 0, 0, 255));
                            (dot_box 1, (0, 0, 0, 255));
                            (dot_box 2, (0, 0, 0, 255))])) by (vm_compute; reflexivity).
  assert (Hin : ((114, 2, 144, 32), (0, 0, 0, 255))
                ∈ im_ellipses (mkImage "RGBA" (146, 34) (0, 0, 0, 0)
                           [(dot_box 0, (0, 0, 0, 255));
                            (dot_box 1, (0, 0, 0, 255));
                            (dot_box 2, (0, 0, 0, 255))])).
  { cbn. right. right. left. }
  destruct (dots_inside_canvas 0 _ 114 2 144 32 (0, 0, 0, 255) H Hin)
    as (_ & _ & _ & _ & _ & _ & _ & Hx0 & Hx1 & Hy0 & Hy1).
  repeat split; assumption.
Defined.

(* ===================================================================== *)
(** * A run of the generator *)
(* ===================================================================== *)


Lemma main_run argv w :
  files w !! "tmp" = None ->
  main argv w =
    generate_apng (match argv with _ :: arg :: _ => arg | _ => "ellipsis_animation.png" end)
      (mkWorld (files w) ({["tmp"]} ∪ dirs w) (trace w ++ [EvMakedirs "tmp"])).
Proof.
  intros Hw. unfold main.
  unfold mbind at 1, IO_bind at 1, io_bind at 1, os_makedirs at 1. rewrite Hw.
  destruct argv as [|a0 [|a1 argv]]; reflexivity.
Qed.

Lemma rendered_frames_makedirs p evs :
  rendered_frames (EvMakedirs p :: evs) = rendered_frames evs.
Proof. reflexivity. Qed.

Lemma saved_animations_makedirs p evs :
  saved_animations (EvMakedirs p :: evs) = saved_animations evs.
Proof. reflexivity. Qed.

Lemma new_events_main argv w :
  files w !! "tmp" = None ->
  new_events w (main argv w)
  = EvMakedirs "tmp"
    :: expected_trace (match argv with
                       | _ :: arg :: _ => arg
                       | _ => "ellipsis_animation.png"
                       end) cycle_frames 33.
Proof.
  intros Hw. rewrite (main_run argv w Hw), generate_apng_run.
  unfold new_events. cbn [trace]. rewrite <- app_assoc. apply drop_app_length.
Qed.








(* ===================================================================== *)
(** * The waveform *)
(* ===================================================================== *)

(** ** Comparisons through the order keys *)

Lemma compare_cont_Eq m1 m2 : Pos.compare_cont Eq m1 m2 = (Zpos m1 ?= Zpos m2).
Proof. reflexivity. Qed.

Lemma SFcompare_key x y :
  is_nan x = false -> is_nan y = false ->
  SFcompare x y = Some (if bool_decide (key_lt x y) then Lt
                        else if bool_decide (key_le x y) then Eq else Gt).
Proof.
  intros Hx Hy.
  destruct x as [sx|sx| |sx mx ex]; try discriminate;
  destruct y as [sy|sy| |sy my ey]; try discriminate;
  try (destruct sx); try (destruct sy);
  unfold key_lt, key_le; cbn [SFcompare key1 key2 key3];
  try rewrite compare_cont_Eq;
  try destruct (Z.compare_spec ex ey);
  try destruct (Z.compare_spec (Zpos mx) (Zpos my));
  cbn [CompOpp];
  repeat case_bool_decide; try reflexivity; exfalso; lia.
Qed.

Lemma flt_key x y :
  is_nan x = false -> is_nan y = false -> flt x y = bool_decide (key_lt x y).
Proof.
  intros Hx Hy. unfold flt, SFltb. rewrite SFcompare_key by assumption.
  repeat case_bool_decide; reflexivity.
Qed.

Lemma fle_key x y :
  is_nan x = false -> is_nan y = false -> fle x y = bool_decide (key_le x y).
Proof.
  intros Hx Hy. unfold fle, SFleb. rewrite SFcompare_key by assumption.
  repeat case_bool_decide; try reflexivity.
  exfalso. unfold key_lt, key_le in *. lia.
Qed.

Lemma fle_not_nan x y : fle x y = true -> is_nan x = false /\ is_nan y = false.
Proof. destruct x, y; cbn; try discriminate; auto. Qed.

Lemma flt_not_nan x y : flt x y = true -> is_nan x = false /\ is_nan y = false.
Proof. destruct x, y; cbn; try discriminate; auto. Qed.

(** Decide the comparisons of [t] with closed floats through the order
    keys, and close the cases that arithmetic rules out. *)
Ltac order_cases t Ht :=
  repeat match goal with
  | |- context [flt t ?c] => rewrite (flt_key t c Ht eq_refl)
  | |- context [fle ?c t] => rewrite (fle_key c t eq_refl Ht)
  end;
  repeat (case_bool_decide;
          repeat match goal with
          | H : context [key_lt t ?c] |- _ =>
              let v := eval vm_compute in c in
              change c with v in H; unfold key_lt in H; cbn [key1 key2 key3] in H
          | H : context [key_le ?c t] |- _ =>
              let v := eval vm_compute in c in
              change c with v in H; unfold key_le in H; cbn [key1 key2 key3] in H
          end;
          try (exfalso; lia));
  try (eexists; split; reflexivity).

(** ** The code against the reference waveform *)

(** At every time that is not NaN exactly one case of the reference
    applies, and it gives the value the code returns. *)
Lemma opacity_is_reference_waveform_nonnan i t :
  (i < 3)%nat -> is_nan t = false ->
  exists v, get_opacity_at_time i t = Some v /\ reference_waveform i t = [v].
Proof.
  intros Hi Ht. unfold get_opacity_at_time, reference_waveform, TRANSITION_TIME.
  destruct i as [|[|[|i]]]; [| | |lia];
    cbn [FADE_START BRIGHTEN_START lookup list_lookup mbind option_bind];
    order_cases t Ht.
Qed.


(** C1: for a dot index i in {0, 1, 2} and a time t with 0 <= t < 1.5,
    exactly one case of the reference waveform applies at t, and its
    value is what [get_opacity_at_time] returns: 1.0 before FADE_START[i];
    1.0 - 0.5 * ((t - FADE_START[i]) / 0.1) during the fade; 0.5 up to
    BRIGHTEN_START[i]; 0.5 + 0.5 * ((t - BRIGHTEN_START[i]) / 0.1) during
    the brightening; 1.0 afterwards.  The arithmetic of both sides is
    that of Python floats. *)
Theorem opacity_is_reference_waveform i t :
  (i < 3)%nat -> (literal 0 1 ⩽ t)%py = true -> (t ⋖ literal 15 1)%py = true ->
  exists v, get_opacity_at_time i t = Some v /\ reference_waveform i t = [v].
Proof.
  intros Hi H0 _. apply opacity_is_reference_waveform_nonnan; [exact Hi|].
  apply fle_not_nan in H0. apply H0.
Qed.

Lemma opacity_is_reference_waveform_witness :
  exists v, get_opacity_at_time 1 (literal 3 1) = Some v /\
            reference_waveform 1 (literal 3 1) = [v].
Proof.
  apply (opacity_is_reference_waveform 1 (literal 3 1));
    [lia | vm_compute; reflexivity | vm_compute; reflexivity].
Defined.

(** ** The loop *)



(** ** The shift between the dots *)

(** C9 fails as stated, and already at a time the animation samples: at
    t = 18 / 30 = 0.6 dot 2 has finished its fade and has opacity 0.5,
    while t - 0.25 * 2 = 0.09999999999999998 is still below
    TRANSITION_TIME and dot 0 has opacity 0.5000000000000001 there
    (0.5 + 0.1 rounds to 0.6, but 0.6 - 0.5 is less than 0.1). *)
Lemma shift_fails_at_frame_18 :
  frame_time 18 = Some (literal 6 1) /\
  get_opacity_at_time 2 (literal 6 1) = Some (literal 5 1) /\
  get_opacity_at_time 0 (literal 6 1 ⊖ literal 25 2 ⊗ float_of_int 2)%py
  = Some (S754_finite false 4503599627370497 (-53)) /\
  literal 5 1 = S754_finite false 4503599627370496 (-53) /\
  get_opacity_at_time 2 (literal 6 1)
  <> get_opacity_at_time 0 (literal 6 1 ⊖ literal 25 2 ⊗ float_of_int 2)%py.
Proof.
  split; [vm_compute; reflexivity|]. split; [vm_compute; reflexivity|].
  split; [vm_compute; reflexivity|]. split; [vm_compute; reflexivity|].
  vm_compute. discriminate.
Qed.

(* ===================================================================== *)
(** * The range of the opacity *)
(* ===================================================================== *)

(** ** Powers of two *)

Lemma bpow_pos e : (0 < bpow e)%R.
Proof. apply powerRZ_lt. lra. Qed.

Lemma bpow_add a b : bpow (a + b) = (bpow a * bpow b)%R.
Proof. apply powerRZ_add. lra. Qed.

Lemma bpow_IZR n : 0 <= n -> bpow n = IZR (2 ^ n).
Proof.
  intros Hn. unfold bpow. rewrite <- (Z2Nat.id n Hn) at 1.
  rewrite <- pow_powerRZ. rewrite pow_IZR. rewrite Z2Nat.id by exact Hn. reflexivity.
Qed.

Lemma bpow_0 : bpow 0 = 1%R.
Proof. reflexivity. Qed.

Lemma bpow_ge_1 n : 0 <= n -> (1 <= bpow n)%R.
Proof.
  intros Hn. rewrite bpow_IZR by exact Hn. apply IZR_le.
  pose proof (Z.pow_pos_nonneg 2 n). lia.
Qed.

Lemma bpow_le a b : a <= b -> (bpow a <= bpow b)%R.
Proof.
  intros Hab. replace b with (a + (b - a)) by lia. rewrite bpow_add.
  pose proof (bpow_pos a). pose proof (bpow_ge_1 (b - a) ltac:(lia)). nra.
Qed.

Lemma bpow_lt a b : a < b -> (bpow a < bpow b)%R.
Proof.
  intros Hab. replace b with (a + 1 + (b - a - 1)) by lia. rewrite !bpow_add.
  pose proof (bpow_pos a). pose proof (bpow_ge_1 (b - a - 1) ltac:(lia)).
  assert (bpow 1 = 2%R) as -> by (unfold bpow; simpl; lra). nra.
Qed.

Lemma bpow_lt_inv a b : (bpow a < bpow b)%R -> a < b.
Proof.
  intros H. destruct (Z_lt_le_dec a b) as [|Hle]; [assumption|].
  apply bpow_le in Hle. lra.
Qed.

Lemma pow2_pos n : 0 <= n -> 0 < 2 ^ n.
Proof. intros. apply Z.pow_pos_nonneg; lia. Qed.

(** ** Digits *)

Lemma digits2_pos_bounds p :
  2 ^ (Zpos (digits2_pos p) - 1) <= Zpos p < 2 ^ Zpos (digits2_pos p).
Proof.
  induction p as [p IH|p IH|]; cbn [digits2_pos].
  - rewrite Pos2Z.inj_succ. replace (Z.succ (Zpos (digits2_pos p)) - 1) with (Z.succ (Zpos (digits2_pos p) - 1)) by lia.
    rewrite !Z.pow_succ_r by lia. lia.
  - rewrite Pos2Z.inj_succ. replace (Z.succ (Zpos (digits2_pos p)) - 1) with (Z.succ (Zpos (digits2_pos p) - 1)) by lia.
    rewrite !Z.pow_succ_r by lia. lia.
  - cbn. lia.
Qed.

Lemma Zdigits2_nonneg m : 0 <= m -> 0 <= Zdigits2 m.
Proof. destruct m; cbn; lia. Qed.

Lemma Zdigits2_bounds m :
  0 < m -> 2 ^ (Zdigits2 m - 1) <= m < 2 ^ Zdigits2 m.
Proof. destruct m as [|p|p]; try lia. intros _. apply digits2_pos_bounds. Qed.

Lemma Zdigits2_upper m : 0 <= m -> m < 2 ^ Zdigits2 m.
Proof.
  intros Hm. destruct (Z.eq_dec m 0) as [->|]; [cbn; lia|].
  apply Zdigits2_bounds. lia.
Qed.

(** The digit count is the only [d] with [2^(d-1) <= m < 2^d]. *)
Lemma Zdigits2_unique m d :
  0 < m -> 2 ^ (d - 1) <= m < 2 ^ d -> Zdigits2 m = d.
Proof.
  intros Hm [Hlo Hhi]. pose proof (Zdigits2_bounds m Hm) as [Hlo' Hhi'].
  assert (0 <= d).
  { destruct (Z_lt_le_dec d 0) as [Hd|]; [|assumption].
    rewrite (Z.pow_neg_r 2 d Hd) in Hhi. lia. }
  assert (0 < Zdigits2 m) by (destruct m; cbn; lia).
  destruct (Z_lt_le_dec (Zdigits2 m) d) as [Hlt|Hge].
  - assert (2 ^ Zdigits2 m <= 2 ^ (d - 1)) by (apply Z.pow_le_mono_r; lia). lia.
  - destruct (Z_lt_le_dec d (Zdigits2 m)) as [Hlt|Hge']; [|lia].
    assert (2 ^ d <= 2 ^ (Zdigits2 m - 1)) by (apply Z.pow_le_mono_r; lia). lia.
Qed.

Lemma Zdigits2_ge m d : 0 <= d -> 2 ^ d <= m -> d < Zdigits2 m.
Proof.
  intros Hd Hm. assert (0 < m) by (pose proof (pow2_pos d Hd); lia).
  pose proof (Zdigits2_bounds m H) as [_ Hhi].
  destruct (Z_lt_le_dec d (Zdigits2 m)) as [|Hle]; [assumption|].
  assert (2 ^ Zdigits2 m <= 2 ^ d) by (apply Z.pow_le_mono_r; [lia|exact Hle]). lia.
Qed.

Lemma Zdigits2_le m d : 0 <= d -> 0 <= m < 2 ^ d -> Zdigits2 m <= d.
Proof.
  intros Hd [Hm0 Hm]. destruct (Z.eq_dec m 0) as [->|]; [cbn; lia|].
  pose proof (Zdigits2_bounds m ltac:(lia)) as [Hlo _].
  destruct (Z_lt_le_dec d (Zdigits2 m)) as [Hlt|]; [|assumption].
  assert (2 ^ d <= 2 ^ (Zdigits2 m - 1)) by (apply Z.pow_le_mono_r; lia). lia.
Qed.

Lemma Zdigits2_shift m j :
  0 < m -> 0 <= j -> Zdigits2 (m * 2 ^ j) = Zdigits2 m + j.
Proof.
  intros Hm Hj. pose proof (Zdigits2_bounds m Hm) as [Hlo Hhi].
  pose proof (pow2_pos j Hj).
  assert (0 < Zdigits2 m) by (destruct m; cbn; lia).
  apply Zdigits2_unique; [nia|].
  replace (Zdigits2 m + j - 1) with (Zdigits2 m - 1 + j) by lia.
  rewrite !Z.pow_add_r by lia. nia.
Qed.

(** ** Shifting a quotient to the right *)

Lemma fexp_53 e : fexp prec emax e = fexp53 e.
Proof. reflexivity. Qed.

Lemma record_of_loc_rec N D :
  0 < D -> shr_record_of_loc (N / D) (loc_of (N mod D) D) = rec_of N D.
Proof.
  intros HD. unfold loc_of, rec_of. pose proof (Z.mod_pos_bound N D HD) as Hr.
  destruct (Z.eqb_spec (N mod D) 0) as [E|E].
  - rewrite E, Z.mul_0_r. cbn [Z.eqb negb andb shr_record_of_loc].
    destruct (Z.leb_spec D 0); [lia|reflexivity].
  - destruct (Z.compare_spec (2 * (N mod D)) D) as [C|C|C]; cbn.
    + rewrite C, Z.leb_refl, Z.eqb_refl. reflexivity.
    + destruct (Z.leb_spec D (2 * (N mod D))); [lia|].
      destruct (Z.eqb_spec (2 * (N mod D)) D); [lia|reflexivity].
    + destruct (Z.leb_spec D (2 * (N mod D))); [|lia].
      destruct (Z.eqb_spec (2 * (N mod D)) D); [lia|reflexivity].
Qed.

Lemma div_mod_double N D :
  0 < D -> N / (2 * D) = N / D / 2 /\ N mod (2 * D) = N mod D + D * ((N / D) mod 2).
Proof.
  intros HD. split.
  - rewrite (Z.mul_comm 2 D). symmetry. apply Z.div_div; lia.
  - rewrite (Z.mul_comm 2 D). apply Z.rem_mul_r; lia.
Qed.

Lemma shr_1_rec N D : 0 <= N -> 0 < D -> shr_1 (rec_of N D) = rec_of N (2 * D).
Proof.
  intros HN HD. unfold rec_of.
  destruct (div_mod_double N D HD) as [Eq Er]. rewrite Eq, Er.
  pose proof (Z.mod_pos_bound N D HD) as Hr.
  assert (Hq : 0 <= N / D) by (apply Z.div_pos; lia).
  clear Eq Er. generalize dependent (N mod D). generalize dependent (N / D).
  intros q Hq r Hr.
  assert (Hs : (D <=? 2 * r) || negb (r =? 0) && negb (2 * r =? D) = negb (r =? 0)).
  { destruct (Z.leb_spec D (2 * r)), (Z.eqb_spec r 0), (Z.eqb_spec (2 * r) D);
      cbn; try reflexivity; lia. }
  assert (Hcase : q mod 2 = 0 \/ q mod 2 = 1) by (pose proof (Z.mod_pos_bound q 2); lia).
  unfold shr_1. rewrite Hs.
  destruct Hcase as [Hm|Hm]; rewrite Hm.
  - assert (Hq2 : q = 2 * (q / 2)) by (pose proof (Z.div_mod q 2); lia).
    replace (2 * (r + D * 0)) with (2 * r) by lia.
    replace (r + D * 0) with r by lia.
    destruct (Z.leb_spec (2 * D) (2 * r)); [lia|].
    replace (2 * r =? 2 * D) with false by (symmetry; apply Z.eqb_neq; lia).
    rewrite andb_true_r.
    destruct q as [|[p|p|]|p]; try lia; try reflexivity.
    replace (Z.pos p~0 / 2) with (Z.pos p) by lia. reflexivity.
  - assert (Hq2 : q = 2 * (q / 2) + 1) by (pose proof (Z.div_mod q 2); lia).
    replace (r + D * 1) with (r + D) by lia.
    destruct (Z.leb_spec (2 * D) (2 * (r + D))); [|lia].
    replace (r + D =? 0) with false by (symmetry; apply Z.eqb_neq; lia).
    replace (2 * (r + D) =? 2 * D) with (r =? 0)
      by (destruct (Z.eqb_spec r 0), (Z.eqb_spec (2 * (r + D)) (2 * D)); try reflexivity; lia).
    cbn [negb andb].
    destruct q as [|[p|p|]|p]; try lia; try reflexivity.
    replace (Z.pos p~1 / 2) with (Z.pos p) by lia. reflexivity.
Qed.

Lemma iter_pos_shr_1 p : forall N D,
  0 <= N -> 0 < D -> SpecFloat.iter_pos shr_1 p (rec_of N D) = rec_of N (D * 2 ^ Zpos p).
Proof.
  induction p as [p IH|p IH|]; intros N D HN HD; cbn [SpecFloat.iter_pos].
  - rewrite shr_1_rec, IH, IH by (try assumption; pose proof (pow2_pos (Zpos p)); nia).
    f_equal. replace (Zpos p~1) with (Zpos p + Zpos p + 1) by lia.
    rewrite !Z.pow_add_r by lia. change (2 ^ 1) with 2. ring.
  - rewrite IH, IH by (try assumption; pose proof (pow2_pos (Zpos p)); nia).
    f_equal. replace (Zpos p~0) with (Zpos p + Zpos p) by lia.
    rewrite !Z.pow_add_r by lia. ring.
  - rewrite shr_1_rec by assumption. f_equal. change (2 ^ 1) with 2. ring.
Qed.

Lemma shr_fexp_rec N D e :
  0 <= N -> 0 < D ->
  shr_fexp prec emax (N / D) e (loc_of (N mod D) D)
  = (rec_of N (D * 2 ^ Z.max 0 (fexp53 (Zdigits2 (N / D) + e) - e)),
     e + Z.max 0 (fexp53 (Zdigits2 (N / D) + e) - e)).
Proof.
  intros HN HD. unfold shr_fexp. rewrite record_of_loc_rec by exact HD.
  rewrite fexp_53. unfold shr.
  destruct (fexp53 (Zdigits2 (N / D) + e) - e) as [|p|p] eqn:E.
  - cbn [Z.max Z.compare]. rewrite Z.pow_0_r, Z.mul_1_r, Z.add_0_r. reflexivity.
  - rewrite iter_pos_shr_1 by assumption.
    replace (Z.max 0 (Zpos p)) with (Zpos p) by lia. reflexivity.
  - replace (Z.max 0 (Zneg p)) with 0 by lia.
    rewrite Z.pow_0_r, Z.mul_1_r, Z.add_0_r. reflexivity.
Qed.

(** ** Rounding to nearest, ties to even *)

Lemma rne_rec N D :
  0 <= N -> 0 < D ->
  let m := round_nearest_even (shr_m (rec_of N D)) (loc_of_shr_record (rec_of N D)) in
  (N / D <= m <= N / D + 1) /\ (N mod D = 0 -> m = N / D).
Proof.
  intros HN HD. unfold rec_of, loc_of_shr_record, round_nearest_even. cbn [shr_m].
  pose proof (Z.mod_pos_bound N D HD) as Hr.
  destruct (Z.leb_spec D (2 * (N mod D))), (Z.eqb_spec (N mod D) 0),
    (Z.eqb_spec (2 * (N mod D)) D); cbn; try destruct (Z.even (N / D)); lia.
Qed.

Lemma rne_upper N D H :
  0 <= N -> 0 < D -> N <= H * D ->
  round_nearest_even (shr_m (rec_of N D)) (loc_of_shr_record (rec_of N D)) <= H.
Proof.
  intros HN HD HH. destruct (rne_rec N D HN HD) as [[_ Hu] He].
  pose proof (Z.mod_pos_bound N D HD) as Hr. pose proof (Z.div_mod N D ltac:(lia)) as Hdm.
  destruct (Z.eq_dec (N mod D) 0) as [E|E].
  - rewrite (He E). nia.
  - assert (N / D < H) by nia. lia.
Qed.

Lemma rne_lower N D L :
  0 <= N -> 0 < D -> L * D <= N ->
  L <= round_nearest_even (shr_m (rec_of N D)) (loc_of_shr_record (rec_of N D)).
Proof.
  intros HN HD HL. destruct (rne_rec N D HN HD) as [[Hl _] _].
  assert (L <= N / D) by (apply Z.div_le_lower_bound; lia). lia.
Qed.

(** ** Canonical floats *)

Lemma valid_finite s m e :
  valid (S754_finite s m e) = true ->
  fexp53 (Zpos (digits2_pos m) + e) = e /\ e <= 971.
Proof.
  unfold valid, valid_binary, bounded, canonical_mantissa.
  intros H. apply andb_true_iff in H as [Hc Hb].
  apply Z.eqb_eq in Hc. apply Z.leb_le in Hb. split; [exact Hc|exact Hb].
Qed.

Lemma valid_finite_intro s m e :
  fexp53 (Zpos (digits2_pos m) + e) = e -> e <= 971 ->
  valid (S754_finite s m e) = true.
Proof.
  intros Hc Hb. unfold valid, valid_binary, bounded, canonical_mantissa.
  apply andb_true_iff. split; [apply Z.eqb_eq, Hc|apply Z.leb_le, Hb].
Qed.

(** A canonical mantissa has at most 53 digits, and exactly 53 above the
    smallest exponent. *)
Lemma valid_finite_bounds s m e :
  valid (S754_finite s m e) = true ->
  -1074 <= e <= 971 /\ 0 < Zpos m < 2 ^ 53 /\ (-1074 < e -> 2 ^ 52 <= Zpos m).
Proof.
  intros H. apply valid_finite in H as [Hc Hb]. unfold fexp53 in Hc.
  pose proof (digits2_pos_bounds m) as [Hlo Hhi].
  set (d := Zpos (digits2_pos m)) in *.
  assert (Hd : 0 < d) by (unfold d; lia).
  split; [lia|]. split.
  - split; [lia|]. assert (2 ^ d <= 2 ^ 53) by (apply Z.pow_le_mono_r; lia). lia.
  - intros He. assert (d = 53) as Hd53 by lia. rewrite Hd53 in Hlo. exact Hlo.
Qed.

(** ** The exact value against the grid of an exponent *)

Lemma IZR_pow2 n : 0 <= n -> IZR (2 ^ n) = bpow n.
Proof. intros. symmetry. apply bpow_IZR. assumption. Qed.

Lemma value_le_grid N D ex m e :
  0 < D -> ex <= e ->
  (IZR N / IZR D * bpow ex <= IZR m * bpow e)%R -> N <= m * 2 ^ (e - ex) * D.
Proof.
  intros HD He H. apply le_IZR. rewrite !mult_IZR, IZR_pow2 by lia.
  assert (HDr : (0 < IZR D)%R) by (apply IZR_lt; exact HD).
  pose proof (bpow_pos ex) as Hex.
  replace e with (e - ex + ex) in H by lia. rewrite bpow_add in H.
  replace (e - ex + ex - ex) with (e - ex) by lia.
  apply (Rmult_le_reg_r (bpow ex)); [exact Hex|].
  apply (Rmult_le_reg_r (/ IZR D)); [apply Rinv_0_lt_compat; exact HDr|].
  replace (IZR N * bpow ex * / IZR D)%R with (IZR N / IZR D * bpow ex)%R by (field; lra).
  replace (IZR m * bpow (e - ex) * IZR D * bpow ex * / IZR D)%R
    with (IZR m * (bpow (e - ex) * bpow ex))%R by (field; lra).
  exact H.
Qed.

Lemma grid_le_value N D ex m e :
  0 < D -> ex <= e ->
  (IZR m * bpow e <= IZR N / IZR D * bpow ex)%R -> m * 2 ^ (e - ex) * D <= N.
Proof.
  intros HD He H. apply le_IZR. rewrite !mult_IZR, IZR_pow2 by lia.
  assert (HDr : (0 < IZR D)%R) by (apply IZR_lt; exact HD).
  pose proof (bpow_pos ex) as Hex.
  replace e with (e - ex + ex) in H by lia. rewrite bpow_add in H.
  replace (e - ex + ex - ex) with (e - ex) by lia.
  apply (Rmult_le_reg_r (bpow ex)); [exact Hex|].
  apply (Rmult_le_reg_r (/ IZR D)); [apply Rinv_0_lt_compat; exact HDr|].
  replace (IZR N * bpow ex * / IZR D)%R with (IZR N / IZR D * bpow ex)%R by (field; lra).
  replace (IZR m * bpow (e - ex) * IZR D * bpow ex * / IZR D)%R
    with (IZR m * (bpow (e - ex) * bpow ex))%R by (field; lra).
  exact H.
Qed.

(** ** The two shifts of [binary_round_aux] *)

(** After the first shift the mantissa has exactly 53 digits, or fewer at
    the smallest exponent. *)
Lemma first_shift_size N D ex :
  0 <= N -> 0 < D ->
  let k := fexp53 (Zdigits2 (N / D) + ex) - ex in
  0 <= k ->
  (-1074 <= Zdigits2 (N / D) + ex - 53 -> 2 ^ 52 <= N / (D * 2 ^ k) < 2 ^ 53) /\
  (Zdigits2 (N / D) + ex - 53 < -1074 -> 0 <= N / (D * 2 ^ k) < 2 ^ 52).
Proof.
  intros HN HD k Hk.
  assert (Hmx : 0 <= N / D) by (apply Z.div_pos; lia).
  pose proof (pow2_pos k Hk) as Hpk.
  rewrite <- Z.div_div by lia.
  pose proof (Zdigits2_nonneg _ Hmx) as Hd0.
  unfold fexp53 in k. split; intros Hcase.
  - assert (Ek : k = Zdigits2 (N / D) - 53) by lia.
    assert (Hpos : 0 < N / D).
    { destruct (Z.eq_dec (N / D) 0) as [E|]; [|lia]. rewrite E in Ek. cbn in Ek. lia. }
    pose proof (Zdigits2_bounds _ Hpos) as [Hlo Hhi].
    replace (Zdigits2 (N / D) - 1) with (52 + k) in Hlo by lia.
    replace (Zdigits2 (N / D)) with (53 + k) in Hhi by lia.
    rewrite Z.pow_add_r in Hlo, Hhi by lia. split.
    + apply Z.div_le_lower_bound; lia.
    + apply Z.div_lt_upper_bound; lia.
  - split; [apply Z.div_pos; lia|].
    apply Z.div_lt_upper_bound; [lia|].
    pose proof (Zdigits2_upper _ Hmx) as Hhi.
    assert (2 ^ Zdigits2 (N / D) <= 2 ^ (k + 52)) by (apply Z.pow_le_mono_r; lia).
    rewrite Z.pow_add_r in H by lia. lia.
Qed.

Lemma shr_fexp_exact m e :
  0 <= m ->
  shr_fexp prec emax m e loc_Exact
  = (rec_of m (2 ^ Z.max 0 (fexp53 (Zdigits2 m + e) - e)),
     e + Z.max 0 (fexp53 (Zdigits2 m + e) - e)).
Proof.
  intros Hm. pose proof (shr_fexp_rec m 1 e Hm ltac:(lia)) as H.
  rewrite Z.div_1_r, Z.mod_1_r, Z.mul_1_l in H. exact H.
Qed.

(** The result of [binary_round_aux] on the quotient N / D at exponent
    [ex], when the quotient has enough digits for that exponent. *)
Lemma binary_round_aux_shape N D ex :
  0 <= N -> 0 < D ->
  let k := fexp53 (Zdigits2 (N / D) + ex) - ex in
  let m1 := round_nearest_even (shr_m (rec_of N (D * 2 ^ k)))
                               (loc_of_shr_record (rec_of N (D * 2 ^ k))) in
  0 <= k ->
  0 <= m1 <= 2 ^ 53 /\
  (-1074 <= Zdigits2 (N / D) + ex - 53 -> 2 ^ 52 <= m1) /\
  (Zdigits2 (N / D) + ex - 53 < -1074 -> m1 <= 2 ^ 52) /\
  binary_round_aux prec emax false (N / D) ex (loc_of (N mod D) D)
  = if m1 =? 0 then S754_zero false
    else if m1 <? 2 ^ 53 then
           if ex + k <=? 971 then S754_finite false (Z.to_pos m1) (ex + k)
           else S754_infinity false
         else
           if ex + k + 1 <=? 971 then S754_finite false (Z.to_pos (2 ^ 52)) (ex + k + 1)
           else S754_infinity false.
Proof.
  intros HN HD k m1 Hk.
  pose proof (pow2_pos k Hk) as Hpk.
  assert (HD' : 0 < D * 2 ^ k) by nia.
  destruct (first_shift_size N D ex HN HD Hk) as [HA HB]. fold k in HA, HB.
  destruct (rne_rec N (D * 2 ^ k) HN HD') as [[Hl Hu] _]. fold m1 in Hl, Hu.
  assert (Hm1 : 0 <= m1 <= 2 ^ 53).
  { destruct (Z_le_gt_dec (-1074) (Zdigits2 (N / D) + ex - 53)) as [C|C].
    - specialize (HA C). lia.
    - specialize (HB ltac:(lia)). change (2 ^ 52) with 4503599627370496 in *.
      change (2 ^ 53) with 9007199254740992. lia. }
  split; [exact Hm1|]. split; [intros C; specialize (HA C); lia|].
  split; [intros C; specialize (HB C); lia|].
  unfold binary_round_aux. rewrite shr_fexp_rec by assumption.
  replace (Z.max 0 (fexp53 (Zdigits2 (N / D) + ex) - ex)) with k by (unfold k; lia).
  fold m1. rewrite shr_fexp_exact by lia.
  assert (He' : -1074 <= ex + k) by (unfold k, fexp53; lia).
  destruct (Z.eqb_spec m1 0) as [E0|E0].
  { rewrite E0. cbn. reflexivity. }
  destruct (Z.ltb_spec m1 (2 ^ 53)) as [Hlt|Hge].
  - assert (Hd : Zdigits2 m1 <= 53) by (apply Zdigits2_le; lia).
    assert (Hd' : Zdigits2 (N / D) + ex - 53 < -1074 -> ex + k = -1074)
      by (unfold k, fexp53; lia).
    assert (Hd'' : -1074 <= Zdigits2 (N / D) + ex - 53 -> Zdigits2 m1 = 53).
    { intros C. specialize (HA C). apply Zdigits2_unique; [lia|]. change (53 - 1) with 52. lia. }
    replace (Z.max 0 (fexp53 (Zdigits2 m1 + (ex + k)) - (ex + k))) with 0
      by (unfold fexp53; lia).
    rewrite Z.pow_0_r, Z.add_0_r. unfold rec_of. cbn [shr_m]. rewrite Z.div_1_r.
    destruct m1 as [|p|p]; try lia. reflexivity.
  - assert (E : m1 = 2 ^ 53) by lia. rewrite E.
    replace (Z.max 0 (fexp53 (Zdigits2 (2 ^ 53) + (ex + k)) - (ex + k))) with 1
      by (change (Zdigits2 (2 ^ 53)) with 54; unfold fexp53; lia).
    reflexivity.
Qed.

Lemma IZR_grid m e e' :
  e' <= e -> (IZR (m * 2 ^ (e - e')) * bpow e' = IZR m * bpow e)%R.
Proof.
  intros He. rewrite mult_IZR, IZR_pow2 by lia.
  replace e with (e - e' + e') at 2 by lia. rewrite bpow_add. ring.
Qed.

Lemma floor_value N D ex k :
  0 <= N -> 0 < D -> 0 <= k ->
  (IZR (N / (D * 2 ^ k)) * bpow (ex + k) <= IZR N / IZR D * bpow ex)%R.
Proof.
  intros HN HD Hk. pose proof (pow2_pos k Hk) as Hpk.
  assert (HD' : 0 < D * 2 ^ k) by nia.
  pose proof (Z.mul_div_le N (D * 2 ^ k) HD') as Hfl.
  apply IZR_le in Hfl. rewrite !mult_IZR, IZR_pow2 in Hfl by lia.
  assert (HDr : (0 < IZR D)%R) by (apply IZR_lt; exact HD).
  pose proof (bpow_pos ex) as Hex. pose proof (bpow_pos k) as Hbk.
  rewrite bpow_add.
  apply (Rmult_le_reg_r (IZR D)); [exact HDr|].
  replace (IZR N / IZR D * bpow ex * IZR D)%R with (IZR N * bpow ex)%R by (field; lra).
  replace (IZR (N / (D * 2 ^ k)) * (bpow ex * bpow k) * IZR D)%R
    with (IZR D * bpow k * IZR (N / (D * 2 ^ k)) * bpow ex)%R by ring.
  apply Rmult_le_compat_r; [lra|exact Hfl].
Qed.

Lemma good_cases x :
  good x ->
  (exists s, x = S754_zero s) \/
  (exists m e, x = S754_finite false m e /\ valid x = true).
Proof.
  intros [Hv Hn]. destruct x as [s|s| |[|] m e]; try discriminate.
  - left. eauto.
  - right. eauto.
Qed.

Lemma F2R_nonneg x : good x -> (0 <= F2R x)%R.
Proof.
  intros Hx. destruct (good_cases x Hx) as [[s ->]|(m & e & -> & _)]; cbn; [lra|].
  pose proof (bpow_pos e). assert (0 < IZR (Zpos m))%R by (apply IZR_lt; lia). nra.
Qed.

(** ** Rounding keeps representable bounds *)

Lemma round_aux_bounds N D ex L H :
  0 <= N -> 0 < D -> ex <= fexp53 (Zdigits2 (N / D) + ex) ->
  good L -> good H ->
  (F2R L <= IZR N / IZR D * bpow ex <= F2R H)%R ->
  good (binary_round_aux prec emax false (N / D) ex (loc_of (N mod D) D)) /\
  (F2R L <= F2R (binary_round_aux prec emax false (N / D) ex (loc_of (N mod D) D))
   <= F2R H)%R.
Proof.
  intros HN HD Hex HL HH [HLv HvH].
  set (k := fexp53 (Zdigits2 (N / D) + ex) - ex).
  assert (Hk : 0 <= k) by (unfold k; lia).
  destruct (binary_round_aux_shape N D ex HN HD Hk) as (Hm1 & HA1 & HB1 & Er).
  fold k in Er, Hm1, HA1, HB1.
  set (D' := D * 2 ^ k) in *.
  set (m1 := round_nearest_even (shr_m (rec_of N D')) (loc_of_shr_record (rec_of N D'))) in *.
  set (e' := ex + k) in *.
  set (v := (IZR N / IZR D * bpow ex)%R) in *.
  pose proof (pow2_pos k Hk) as Hpk.
  assert (HD' : 0 < D') by (unfold D'; nia).
  assert (He' : -1074 <= e') by (unfold e', k, fexp53; lia).
  destruct (first_shift_size N D ex HN HD Hk) as [HA HB]. fold k D' in HA, HB.
  pose proof (floor_value N D ex k HN HD Hk) as Hfloor. fold D' e' v in Hfloor.
  assert (HcaseB : Zdigits2 (N / D) + ex - 53 < -1074 -> e' = -1074)
    by (unfold e', k, fexp53; lia).
  (* the value is at least 2^52 on its grid above the smallest exponent *)
  assert (Hbig : -1074 < e' -> (bpow (52 + e') <= v)%R).
  { intros C. assert (C' : -1074 <= Zdigits2 (N / D) + ex - 53) by lia.
    specialize (HA C'). destruct HA as [HA _]. apply IZR_le in HA.
    rewrite IZR_pow2 in HA by lia. rewrite bpow_add.
    pose proof (bpow_pos e'). nra. }
  (* an upper bound on the grid *)
  assert (HU : exists Hg, m1 <= Hg /\ (IZR Hg * bpow e' = F2R H)%R /\
                          (0 < Hg -> exists mH eH, H = S754_finite false mH eH /\
                                       e' <= eH <= 971 /\ Hg = Zpos mH * 2 ^ (eH - e'))).
  { destruct (good_cases H HH) as [[s ->]|(mH & eH & -> & HvH')].
    - exists 0. split; [|split; [cbn; lra|lia]].
      apply rne_upper; [assumption|assumption|].
      cbn [F2R] in HvH. pose proof (value_le_grid N D ex 0 ex HD ltac:(lia)) as G.
      rewrite Rmult_0_l in G. specialize (G HvH). lia.
    - pose proof (valid_finite_bounds _ _ _ HvH') as (HeH & HmH & _).
      cbn [F2R cond_Zopp] in HvH.
      assert (HeH' : e' <= eH).
      { destruct (Z_le_gt_dec e' eH) as [|C]; [assumption|exfalso].
        specialize (Hbig ltac:(lia)).
        assert (IZR (Zpos mH) < bpow 53)%R.
        { rewrite <- IZR_pow2 by lia. apply IZR_lt. lia. }
        pose proof (bpow_pos eH). pose proof (bpow_le (53 + eH) (52 + e') ltac:(lia)) as Hb.
        rewrite bpow_add in Hb. nra. }
      exists (Zpos mH * 2 ^ (eH - e')). split; [|split].
      + apply rne_upper; [assumption|assumption|].
        pose proof (value_le_grid N D ex (Zpos mH) eH HD ltac:(unfold e' in *; lia) HvH) as G.
        replace (eH - ex) with (eH - e' + k) in G by (unfold e'; lia).
        rewrite Z.pow_add_r in G by lia. unfold D'. lia.
      + apply IZR_grid. exact HeH'.
      + intros _. exists mH, eH. split; [reflexivity|]. split; [lia|reflexivity]. }
  destruct HU as (Hg & Hm1g & HgH & HgF).
  (* the value of the result *)
  assert (Hr : good (binary_round_aux prec emax false (N / D) ex (loc_of (N mod D) D)) /\
               F2R (binary_round_aux prec emax false (N / D) ex (loc_of (N mod D) D))
               = (IZR m1 * bpow e')%R).
  { rewrite Er. destruct (Z.eqb_spec m1 0) as [E0|E0].
    { rewrite E0. split; [split; reflexivity|cbn; lra]. }
    destruct (HgF ltac:(lia)) as (mH & eH & EH & HeH & EHg).
    assert (HmH : 0 < Zpos mH < 2 ^ 53).
    { destruct HH as [HHv _]. rewrite EH in HHv.
      apply valid_finite_bounds in HHv. apply HHv. }
    destruct (Z.ltb_spec m1 (2 ^ 53)) as [Hlt|Hge].
    - destruct (Z.leb_spec e' 971) as [|C]; [|lia].
      split.
      + split; [|reflexivity]. apply valid_finite_intro; [|assumption].
        replace (Zpos (digits2_pos (Z.to_pos m1))) with (Zdigits2 m1)
          by (destruct m1; try lia; reflexivity).
        destruct (Z_le_gt_dec (-1074) (Zdigits2 (N / D) + ex - 53)) as [C|C].
        * specialize (HA1 C).
          rewrite (Zdigits2_unique m1 53) by (try lia; change (53 - 1) with 52; lia).
          unfold fexp53. lia.
        * specialize (HB1 ltac:(lia)). specialize (HcaseB ltac:(lia)).
          assert (Zdigits2 m1 <= 53) by (apply Zdigits2_le; lia).
          pose proof (Zdigits2_nonneg m1 ltac:(lia)).
          unfold fexp53. lia.
      + cbn [F2R cond_Zopp]. rewrite Z2Pos.id by lia. reflexivity.
    - assert (E : m1 = 2 ^ 53) by lia.
      assert (He1 : e' + 1 <= eH).
      { destruct (Z_le_gt_dec (e' + 1) eH) as [|C]; [assumption|exfalso].
        assert (eH = e') by lia. subst eH. rewrite Z.sub_diag, Z.pow_0_r in EHg. lia. }
      destruct (Z.leb_spec (e' + 1) 971) as [|C]; [|lia].
      split.
      + split; [|reflexivity]. apply valid_finite_intro; [|assumption].
        change (Zpos (digits2_pos (Z.to_pos (2 ^ 52)))) with 53. unfold fexp53. lia.
      + cbn [F2R cond_Zopp]. rewrite E.
        change (Zpos (Z.to_pos (2 ^ 52))) with (2 ^ 52).
        rewrite !IZR_pow2 by lia. rewrite <- !bpow_add. f_equal. lia. }
  destruct Hr as [Hgood HF]. split; [exact Hgood|]. rewrite HF. split.
  - (* lower bound *)
    destruct (good_cases L HL) as [[s ->]|(mL & eL & -> & HvL')].
    + cbn [F2R]. pose proof (bpow_pos e'). assert (0 <= IZR m1)%R by (apply IZR_le; lia). nra.
    + pose proof (valid_finite_bounds _ _ _ HvL') as (HeL & HmL & _).
      cbn [F2R cond_Zopp] in HLv |- *.
      destruct (Z_le_gt_dec e' eL) as [C|C].
      * rewrite <- (IZR_grid (Zpos mL) eL e' C).
        apply Rmult_le_compat_r; [pose proof (bpow_pos e'); lra|]. apply IZR_le.
        apply rne_lower; [assumption|assumption|].
        pose proof (grid_le_value N D ex (Zpos mL) eL HD ltac:(unfold e' in *; lia) HLv) as G.
        replace (eL - ex) with (eL - e' + k) in G by (unfold e'; lia).
        rewrite Z.pow_add_r in G by lia. unfold D'. lia.
      * assert (C' : -1074 <= Zdigits2 (N / D) + ex - 53) by lia.
        specialize (HA1 C').
        assert (IZR (Zpos mL) < bpow 53)%R.
        { rewrite <- IZR_pow2 by lia. apply IZR_lt. lia. }
        assert (bpow 52 <= IZR m1)%R.
        { rewrite <- IZR_pow2 by lia. apply IZR_le. lia. }
        pose proof (bpow_pos eL). pose proof (bpow_pos e').
        pose proof (bpow_le (53 + eL) (52 + e') ltac:(lia)) as Hb.
        rewrite !bpow_add in Hb. nra.
  - rewrite <- HgH. apply Rmult_le_compat_r; [pose proof (bpow_pos e'); lra|].
    apply IZR_le. exact Hm1g.
Qed.

(** ** The order of canonical floats is the order of their values *)

Lemma good_not_nan x : good x -> is_nan x = false.
Proof. intros [_ Hn]. destruct x; try discriminate; reflexivity. Qed.

Lemma canonical_lt mx ex my ey :
  valid (S754_finite false mx ex) = true -> valid (S754_finite false my ey) = true ->
  ex < ey -> (IZR (Zpos mx) * bpow ex < IZR (Zpos my) * bpow ey)%R.
Proof.
  intros Hx Hy Hlt.
  apply valid_finite_bounds in Hx as (Hex & Hmx & _).
  apply valid_finite_bounds in Hy as (Hey & Hmy & Hbig).
  specialize (Hbig ltac:(lia)).
  assert (IZR (Zpos mx) < bpow 53)%R by (rewrite <- IZR_pow2 by lia; apply IZR_lt; lia).
  assert (bpow 52 <= IZR (Zpos my))%R by (rewrite <- IZR_pow2 by lia; apply IZR_le; lia).
  pose proof (bpow_pos ex). pose proof (bpow_pos ey).
  pose proof (bpow_le (53 + ex) (52 + ey) ltac:(lia)) as Hb.
  rewrite !bpow_add in Hb. nra.
Qed.

Lemma key_lt_F2R x y : good x -> good y -> key_lt x y -> (F2R x < F2R y)%R.
Proof.
  intros Hx Hy. pose proof (F2R_nonneg y Hy) as Hy0.
  destruct (good_cases x Hx) as [[sx ->]|(mx & ex & -> & Hvx)];
  destruct (good_cases y Hy) as [[sy ->]|(my & ey & -> & Hvy)];
    unfold key_lt; cbn [key1 key2 key3 F2R cond_Zopp]; intros Hk.
  - lia.
  - pose proof (bpow_pos ey). assert (0 < IZR (Zpos my))%R by (apply IZR_lt; lia). nra.
  - lia.
  - destruct Hk as [Hk|[_ [Hk|[-> Hk]]]]; [lia| |].
    + apply canonical_lt; assumption.
    + apply Rmult_lt_compat_r; [apply bpow_pos|apply IZR_lt; exact Hk].
Qed.

Lemma key_le_F2R x y : good x -> good y -> key_le x y -> (F2R x <= F2R y)%R.
Proof.
  intros Hx Hy Hk.
  assert (Hc : key_lt x y \/ (key1 x = key1 y /\ key2 x = key2 y /\ key3 x = key3 y))
    by (unfold key_lt, key_le in *; lia).
  destruct Hc as [Hc|(E1 & E2 & E3)].
  - apply Rlt_le, key_lt_F2R; assumption.
  - destruct (good_cases x Hx) as [[sx ->]|(mx & ex & -> & Hvx)];
    destruct (good_cases y Hy) as [[sy ->]|(my & ey & -> & Hvy)];
      cbn [key1 key2 key3 F2R cond_Zopp] in *; try lia; try lra.
    subst ey. inversion E3; subst. lra.
Qed.

Lemma key_total x y : key_lt x y \/ key_le y x.
Proof. unfold key_lt, key_le. lia. Qed.

Lemma flt_F2R x y : good x -> good y -> (flt x y = true <-> (F2R x < F2R y)%R).
Proof.
  intros Hx Hy. rewrite flt_key by (apply good_not_nan; assumption).
  rewrite bool_decide_eq_true. split; [apply key_lt_F2R; assumption|].
  intros Hlt. destruct (key_total x y) as [|Hle]; [assumption|].
  apply key_le_F2R in Hle; [lra|assumption|assumption].
Qed.

Lemma fle_F2R x y : good x -> good y -> (fle x y = true <-> (F2R x <= F2R y)%R).
Proof.
  intros Hx Hy. rewrite fle_key by (apply good_not_nan; assumption).
  rewrite bool_decide_eq_true. split; [apply key_le_F2R; assumption|].
  intros Hle. destruct (key_total y x) as [Hlt|]; [|assumption].
  apply key_lt_F2R in Hlt; [lra|assumption|assumption].
Qed.

Lemma flt_false_F2R x y : good x -> good y -> flt x y = false -> (F2R y <= F2R x)%R.
Proof.
  intros Hx Hy Hf. destruct (Rle_or_lt (F2R y) (F2R x)) as [|Hlt]; [assumption|].
  apply (flt_F2R x y Hx Hy) in Hlt. congruence.
Qed.

(** Below a float with a mantissa above 2^52 there is no float closer
    than one unit of its last place. *)
Lemma flt_pred t mh eh :
  good t -> valid (S754_finite false mh eh) = true -> 2 ^ 52 < Zpos mh ->
  flt t (S754_finite false mh eh) = true ->
  (F2R t <= IZR (Zpos mh - 1) * bpow eh)%R.
Proof.
  intros Ht Hh Hmh Hlt.
  rewrite flt_key in Hlt by (try reflexivity; apply good_not_nan; assumption).
  apply bool_decide_eq_true in Hlt. unfold key_lt in Hlt.
  assert (bpow 52 <= IZR (Zpos mh - 1))%R by (rewrite <- IZR_pow2 by lia; apply IZR_le; lia).
  pose proof (bpow_pos eh).
  destruct (good_cases t Ht) as [[s ->]|(m & e & -> & Hv)];
    cbn [key1 key2 key3 F2R cond_Zopp] in *.
  - pose proof (bpow_pos 52). nra.
  - destruct Hlt as [Hk|[_ [Hk|[-> Hk]]]]; [lia| |].
    + apply valid_finite_bounds in Hv as (He & Hm & _).
      assert (IZR (Zpos m) < bpow 53)%R by (rewrite <- IZR_pow2 by lia; apply IZR_lt; lia).
      pose proof (bpow_pos e).
      pose proof (bpow_le (53 + e) (52 + eh) ltac:(lia)) as Hb.
      rewrite !bpow_add in Hb. nra.
    + apply Rmult_le_compat_r; [lra|]. apply IZR_le. lia.
Qed.

(** ** The operations round the exact result between representable bounds *)

Lemma round_exact_bounds M ex L H :
  0 <= M -> ex <= fexp53 (Zdigits2 M + ex) -> good L -> good H ->
  (F2R L <= IZR M * bpow ex <= F2R H)%R ->
  good (binary_round_aux prec emax false M ex loc_Exact) /\
  (F2R L <= F2R (binary_round_aux prec emax false M ex loc_Exact) <= F2R H)%R.
Proof.
  intros HM Hex HL HH Hv.
  pose proof (round_aux_bounds M 1 ex L H HM ltac:(lia)) as G.
  rewrite Z.div_1_r, Z.mod_1_r in G. unfold Rdiv in G. rewrite Rinv_1, Rmult_1_r in G.
  apply G; assumption.
Qed.

Lemma fexp53_mono a b : a <= b -> fexp53 a <= fexp53 b.
Proof. unfold fexp53. lia. Qed.

Lemma fmul_bounds x y L H :
  good x -> good y -> good L -> good H ->
  (F2R L <= F2R x * F2R y <= F2R H)%R ->
  good (fmul x y) /\ (F2R L <= F2R (fmul x y) <= F2R H)%R.
Proof.
  intros Hx Hy HL HH Hv.
  destruct (good_cases x Hx) as [[sx ->]|(mx & ex & -> & Hvx)];
  destruct (good_cases y Hy) as [[sy ->]|(my & ey & -> & Hvy)];
    cbn [F2R cond_Zopp] in Hv;
    try (rewrite ?Rmult_0_l, ?Rmult_0_r in Hv;
         split; [split; reflexivity|cbn; lra]).
  unfold fmul, SFmul. cbn [xorb].
  apply round_exact_bounds; try assumption; try lia.
  - pose proof (valid_finite_bounds _ _ _ Hvx) as (Hex & Hmx & Hbx).
    pose proof (valid_finite_bounds _ _ _ Hvy) as (Hey & Hmy & Hby).
    rewrite Pos2Z.inj_mul.
    destruct (Z.eq_dec ex (-1074)) as [Ex|Ex]; [destruct (Z.eq_dec ey (-1074)) as [Ey|Ey]|].
    + unfold fexp53. lia.
    + specialize (Hby ltac:(lia)).
      assert (52 < Zdigits2 (Zpos mx * Zpos my)) by (apply Zdigits2_ge; [lia|nia]).
      unfold fexp53. lia.
    + specialize (Hbx ltac:(lia)).
      assert (52 < Zdigits2 (Zpos mx * Zpos my)) by (apply Zdigits2_ge; [lia|nia]).
      unfold fexp53. lia.
  - rewrite Pos2Z.inj_mul, mult_IZR, bpow_add.
    replace (IZR (Zpos mx) * IZR (Zpos my) * (bpow ex * bpow ey))%R
      with (IZR (Zpos mx) * bpow ex * (IZR (Zpos my) * bpow ey))%R by ring.
    exact Hv.
Qed.

(** *** Division *)

Lemma new_location_loc_of D r :
  0 < D -> 0 <= r < D -> new_location D r = loc_of r D.
Proof.
  intros HD Hr. unfold new_location, new_location_even, new_location_odd, loc_of.
  destruct (Z.even D) eqn:Ev; [reflexivity|].
  destruct (Z.eqb_spec r 0); [reflexivity|]. f_equal.
  assert (Hodd : Z.odd D = true) by (rewrite <- Z.negb_even, Ev; reflexivity).
  apply Z.odd_spec in Hodd as [j Hj].
  destruct (Z.compare_spec (2 * r + 1) D), (Z.compare_spec (2 * r) D);
    try reflexivity; lia.
Qed.

Lemma div_digits mx my s :
  0 <= s ->
  Zdigits2 (Zpos mx) + s - Zdigits2 (Zpos my)
  <= Zdigits2 (Zpos mx * 2 ^ s / Zpos my).
Proof.
  intros Hs. pose proof (pow2_pos s Hs) as Hps.
  assert (Hq : 0 <= Zpos mx * 2 ^ s / Zpos my) by (apply Z.div_pos; lia).
  pose proof (Zdigits2_nonneg _ Hq) as Hd0.
  set (j := Zdigits2 (Zpos mx) + s - Zdigits2 (Zpos my) - 1).
  destruct (Z_lt_le_dec j 0) as [|Hj]; [lia|].
  assert (j < Zdigits2 (Zpos mx * 2 ^ s / Zpos my)); [|lia].
  apply Zdigits2_ge; [exact Hj|].
  apply Z.div_le_lower_bound; [lia|].
  pose proof (Zdigits2_bounds (Zpos mx) ltac:(lia)) as [Hlo _].
  pose proof (Zdigits2_bounds (Zpos my) ltac:(lia)) as [_ Hhi].
  assert (0 < Zdigits2 (Zpos my)) by (cbn; lia).
  assert (E : 2 ^ (Zdigits2 (Zpos mx) - 1) * 2 ^ s = 2 ^ Zdigits2 (Zpos my) * 2 ^ j).
  { rewrite <- !Z.pow_add_r by (unfold j in *; cbn in *; lia). f_equal. unfold j. lia. }
  pose proof (pow2_pos j Hj). nia.
Qed.

Lemma SFdiv_core_binary_spec mx ex my ey :
  let e' := Z.min (fexp53 (Zdigits2 (Zpos mx) + ex - (Zdigits2 (Zpos my) + ey))) (ex - ey) in
  let s := ex - ey - e' in
  SFdiv_core_binary prec emax (Zpos mx) ex (Zpos my) ey
  = (Zpos mx * 2 ^ s / Zpos my, e', loc_of ((Zpos mx * 2 ^ s) mod Zpos my) (Zpos my)).
Proof.
  intros e' s. unfold SFdiv_core_binary.
  change (fexp prec emax ?a) with (fexp53 a). fold e'. fold s.
  assert (Hs : 0 <= s) by (unfold s, e'; lia).
  assert (Em : match s with
               | 0 => Zpos mx
               | Zpos _ => Z.shiftl (Zpos mx) s
               | Zneg _ => 0
               end = Zpos mx * 2 ^ s).
  { destruct s as [|p|p] eqn:Es; [rewrite Z.pow_0_r; lia| |lia].
    apply Z.shiftl_mul_pow2. lia. }
  rewrite Em.
  pose proof (Z.mod_pos_bound (Zpos mx * 2 ^ s) (Zpos my) ltac:(lia)) as Hr.
  unfold Z.div, Z.modulo in *.
  destruct (Z.div_eucl (Zpos mx * 2 ^ s) (Zpos my)) as [q r].
  rewrite new_location_loc_of by lia. reflexivity.
Qed.

Lemma fdiv_bounds x my ey L H :
  good x -> valid (S754_finite false my ey) = true -> good L -> good H ->
  (F2R L <= F2R x / F2R (S754_finite false my ey) <= F2R H)%R ->
  good (fdiv x (S754_finite false my ey)) /\
  (F2R L <= F2R (fdiv x (S754_finite false my ey)) <= F2R H)%R.
Proof.
  intros Hx Hvy HL HH Hv.
  destruct (good_cases x Hx) as [[sx ->]|(mx & ex & -> & Hvx)].
  { cbn [F2R] in Hv. unfold Rdiv in Hv. rewrite Rmult_0_l in Hv.
    split; [split; reflexivity|cbn; lra]. }
  unfold fdiv, SFdiv. rewrite SFdiv_core_binary_spec. cbn [xorb].
  set (e' := Z.min (fexp53 (Zdigits2 (Zpos mx) + ex - (Zdigits2 (Zpos my) + ey))) (ex - ey)).
  set (s := ex - ey - e').
  assert (Hs : 0 <= s) by (unfold s, e'; lia).
  pose proof (pow2_pos s Hs) as Hps.
  apply round_aux_bounds; try assumption; try lia.
  - pose proof (div_digits mx my s Hs) as Hd.
    assert (Hle : e' <= fexp53 (Zdigits2 (Zpos mx) + ex - (Zdigits2 (Zpos my) + ey)))
      by (unfold e'; lia).
    etransitivity; [exact Hle|]. apply fexp53_mono. unfold s in *. lia.
  - cbn [F2R cond_Zopp] in Hv.
    replace (IZR (Zpos mx * 2 ^ s) / IZR (Zpos my) * bpow e')%R
      with (IZR (Zpos mx) * bpow ex / (IZR (Zpos my) * bpow ey))%R; [exact Hv|].
    rewrite mult_IZR, IZR_pow2 by lia.
    replace ex with (s + e' + ey) at 1 by (unfold s; lia). rewrite !bpow_add.
    pose proof (bpow_pos ey). assert (0 < IZR (Zpos my))%R by (apply IZR_lt; lia).
    field. split; lra.
Qed.

(** *** Addition and subtraction *)

Lemma iter_xO m d : Zpos (Pos.iter xO m d) = Zpos m * 2 ^ Zpos d.
Proof.
  revert m. induction d as [|d IH] using Pos.peano_ind; intros m.
  - cbn. lia.
  - rewrite Pos.iter_succ, Pos2Z.inj_xO, IH, Pos2Z.inj_succ, Z.pow_succ_r by lia. ring.
Qed.

Lemma shl_align_spec m e e' :
  snd (shl_align m e e') = Z.min e e' /\
  Zpos (fst (shl_align m e e')) = Zpos m * 2 ^ (e - Z.min e e').
Proof.
  unfold shl_align. destruct (e' - e) as [|p|p] eqn:E; cbn [fst snd].
  - replace (Z.min e e') with e by lia. rewrite Z.sub_diag. split; lia.
  - replace (Z.min e e') with e by lia. rewrite Z.sub_diag. split; lia.
  - replace (Z.min e e') with e' by lia. split; [reflexivity|].
    rewrite iter_xO. f_equal. f_equal. lia.
Qed.

Lemma binary_round_bounds m e L H :
  good L -> good H ->
  (F2R L <= IZR (Zpos m) * bpow e <= F2R H)%R ->
  good (binary_round prec emax false m e) /\
  (F2R L <= F2R (binary_round prec emax false m e) <= F2R H)%R.
Proof.
  intros HL HH Hv. unfold binary_round.
  change (fexp prec emax ?a) with (fexp53 a).
  set (fe := fexp53 (Zpos (digits2_pos m) + e)).
  destruct (shl_align_spec m e fe) as [Hsnd Hfst].
  destruct (shl_align m e fe) as [mz ez]. cbn [fst snd] in Hsnd, Hfst.
  assert (Hsh : 0 <= e - ez) by lia.
  apply round_exact_bounds; try assumption; try lia.
  - rewrite Hfst, <- Hsnd, Zdigits2_shift by lia.
    change (Zdigits2 (Zpos m)) with (Zpos (digits2_pos m)).
    replace (Zpos (digits2_pos m) + (e - ez) + ez) with (Zpos (digits2_pos m) + e) by lia.
    fold fe. lia.
  - rewrite Hfst, <- Hsnd, IZR_grid by lia. exact Hv.
Qed.

Lemma binary_normalize_bounds M e L H :
  0 <= M -> good L -> good H ->
  (F2R L <= IZR M * bpow e <= F2R H)%R ->
  good (binary_normalize prec emax M e false) /\
  (F2R L <= F2R (binary_normalize prec emax M e false) <= F2R H)%R.
Proof.
  intros HM HL HH Hv. destruct M as [|m|m]; [|apply binary_round_bounds; assumption|lia].
  rewrite Rmult_0_l in Hv. split; [split; reflexivity|cbn; lra].
Qed.

Lemma aligned_value m e ez :
  ez = Z.min e ez ->
  (IZR (Zpos (fst (shl_align m e ez))) * bpow ez = IZR (Zpos m) * bpow e)%R.
Proof.
  intros Hz. destruct (shl_align_spec m e ez) as [_ Hfst].
  rewrite Hfst, <- Hz. apply IZR_grid. lia.
Qed.

Lemma fsub_bounds x y L H :
  good x -> good y -> good L -> good H ->
  (F2R L <= F2R x - F2R y <= F2R H)%R ->
  good (fsub x y) /\ (F2R L <= F2R (fsub x y) <= F2R H)%R.
Proof.
  intros Hx Hy HL HH Hv. pose proof (F2R_nonneg L HL) as HL0.
  destruct (good_cases x Hx) as [[sx ->]|(mx & ex & -> & Hvx)];
  destruct (good_cases y Hy) as [[sy ->]|(my & ey & -> & Hvy)].
  - cbn [F2R] in Hv. destruct sx, sy; (split; [split; reflexivity|cbn; lra]).
  - exfalso. cbn [F2R cond_Zopp] in Hv.
    pose proof (bpow_pos ey). assert (0 < IZR (Zpos my))%R by (apply IZR_lt; lia). nra.
  - cbn [F2R] in Hv. rewrite Rminus_0_r in Hv. split; [exact Hx|exact Hv].
  - unfold fsub, SFsub. cbn [cond_Zopp].
    set (ez := Z.min ex ey).
    cbn [F2R cond_Zopp] in Hv.
    pose proof (aligned_value mx ex ez ltac:(unfold ez; lia)) as Ax.
    pose proof (aligned_value my ey ez ltac:(unfold ez; lia)) as Ay.
    set (ax := Zpos (fst (shl_align mx ex ez))) in *.
    set (ay := Zpos (fst (shl_align my ey ez))) in *.
    assert (Ev : (IZR (ax - ay) * bpow ez
                  = IZR (Zpos mx) * bpow ex - IZR (Zpos my) * bpow ey)%R).
    { rewrite minus_IZR, <- Ax, <- Ay. ring. }
    apply binary_normalize_bounds; try assumption.
    + apply le_IZR. pose proof (bpow_pos ez). rewrite <- Ev in Hv. nra.
    + rewrite Ev. exact Hv.
Qed.

Lemma fadd_bounds x y L H :
  good x -> good y -> good L -> good H ->
  (F2R L <= F2R x + F2R y <= F2R H)%R ->
  good (fadd x y) /\ (F2R L <= F2R (fadd x y) <= F2R H)%R.
Proof.
  intros Hx Hy HL HH Hv.
  destruct (good_cases x Hx) as [[sx ->]|(mx & ex & -> & Hvx)];
  destruct (good_cases y Hy) as [[sy ->]|(my & ey & -> & Hvy)].
  - cbn [F2R] in Hv. destruct sx, sy; (split; [split; reflexivity|cbn; lra]).
  - cbn [F2R] in Hv. rewrite Rplus_0_l in Hv. split; [exact Hy|exact Hv].
  - cbn [F2R] in Hv. rewrite Rplus_0_r in Hv. split; [exact Hx|exact Hv].
  - unfold fadd, SFadd. cbn [cond_Zopp].
    set (ez := Z.min ex ey).
    cbn [F2R cond_Zopp] in Hv.
    pose proof (aligned_value mx ex ez ltac:(unfold ez; lia)) as Ax.
    pose proof (aligned_value my ey ez ltac:(unfold ez; lia)) as Ay.
    set (ax := Zpos (fst (shl_align mx ex ez))) in *.
    set (ay := Zpos (fst (shl_align my ey ez))) in *.
    assert (Ev : (IZR (ax + ay) * bpow ez
                  = IZR (Zpos mx) * bpow ex + IZR (Zpos my) * bpow ey)%R).
    { rewrite plus_IZR, <- Ax, <- Ay. ring. }
    apply binary_normalize_bounds; try assumption.
    + unfold ax, ay. lia.
    + rewrite Ev. exact Hv.
Qed.

(** *** Truncation to an integer *)

Lemma int_of_float_bounds x lo hi :
  good x -> (IZR lo <= F2R x <= IZR hi)%R ->
  exists a, int_of_float x = Some a /\ lo <= a <= hi.
Proof.
  intros Hx [Hlo Hhi].
  destruct (good_cases x Hx) as [[s ->]|(m & e & -> & Hv)]; cbn [F2R cond_Zopp int_of_float] in *.
  - exists 0. split; [reflexivity|]. split; apply le_IZR; assumption.
  - eexists. split; [reflexivity|]. destruct e as [|p|p].
    + rewrite Z.pow_0_r, Z.mul_1_r. change (bpow 0) with 1%R in *.
      rewrite Rmult_1_r in *. split; apply le_IZR; assumption.
    + rewrite <- IZR_pow2, <- mult_IZR in * by lia. split; apply le_IZR; assumption.
    + pose proof (pow2_pos (Zpos p) ltac:(lia)) as Hp.
      rewrite Z.quot_div_nonneg by lia.
      assert (Eb : (bpow (Zneg p) * IZR (2 ^ Zpos p) = 1)%R).
      { rewrite IZR_pow2 by lia. rewrite <- bpow_add.
        replace (Zneg p + Zpos p) with 0 by lia. reflexivity. }
      assert (Hp' : (0 < IZR (2 ^ Zpos p))%R) by (apply IZR_lt; lia).
      assert (Em : (IZR (Zpos m) = IZR (Zpos m) * bpow (Zneg p) * IZR (2 ^ Zpos p))%R)
        by (rewrite Rmult_assoc, Eb; ring).
      split.
      * apply Z.div_le_lower_bound; [lia|]. apply le_IZR. rewrite mult_IZR, Em.
        rewrite (Rmult_comm (IZR (2 ^ Zpos p))).
        apply Rmult_le_compat_r; [lra|exact Hlo].
      * apply Z.div_le_upper_bound; [lia|]. apply le_IZR. rewrite mult_IZR, Em.
        rewrite (Rmult_comm (IZR (2 ^ Zpos p))).
        apply Rmult_le_compat_r; [lra|exact Hhi].
Qed.

(** ** The constants of the waveform as real numbers *)

Lemma F2R_neg_exp m p :
  F2R (S754_finite false m (Zneg p)) = (IZR (Zpos m) / IZR (2 ^ Zpos p))%R.
Proof.
  cbn [F2R cond_Zopp]. rewrite IZR_pow2 by lia.
  assert (E : (bpow (Zneg p) * bpow (Zpos p) = 1)%R).
  { rewrite <- bpow_add. replace (Zneg p + Zpos p) with 0 by lia. reflexivity. }
  pose proof (bpow_pos (Zpos p)). field_simplify_eq; [|lra]. rewrite Rmult_assoc, E. ring.
Qed.

Lemma F2R_one : F2R (literal 10 1) = 1%R.
Proof.
  change (literal 10 1) with (S754_finite false 4503599627370496 (-52)).
  rewrite F2R_neg_exp. change (2 ^ 52) with 4503599627370496. lra.
Qed.

Lemma F2R_half : F2R (literal 5 1) = (1 / 2)%R.
Proof.
  change (literal 5 1) with (S754_finite false 4503599627370496 (-53)).
  rewrite F2R_neg_exp. change (2 ^ 53) with 9007199254740992. lra.
Qed.

Lemma F2R_transition :
  F2R TRANSITION_TIME = (7205759403792794 / 72057594037927936)%R.
Proof.
  change TRANSITION_TIME with (S754_finite false 7205759403792794 (-56)).
  rewrite F2R_neg_exp. change (2 ^ 56) with 72057594037927936. reflexivity.
Qed.

Lemma F2R_255 : F2R (float_of_int 255) = 255%R.
Proof.
  change (float_of_int 255) with (S754_finite false 8972014882652160 (-45)).
  rewrite F2R_neg_exp. change (2 ^ 45) with 35184372088832. lra.
Qed.

Lemma F2R_127 : F2R (float_of_int 127) = 127%R.
Proof.
  change (float_of_int 127) with (S754_finite false 8936830510563328 (-46)).
  rewrite F2R_neg_exp. change (2 ^ 46) with 70368744177664. lra.
Qed.

Lemma good_closed x : valid x && is_nonneg x = true -> good x.
Proof. intros H. apply andb_true_iff in H. exact H. Qed.

(** ** The transition pipeline *)

Lemma progress_bounds t start :
  good t -> good start ->
  (F2R start <= F2R t)%R -> (F2R t - F2R start <= F2R TRANSITION_TIME)%R ->
  good ((t ⊖ start) ⊘ TRANSITION_TIME)%py /\
  (0 <= F2R ((t ⊖ start) ⊘ TRANSITION_TIME)%py <= 1)%R.
Proof.
  intros Ht Hs Hlo Hhi.
  assert (Hc : good TRANSITION_TIME) by (apply good_closed; vm_compute; reflexivity).
  assert (H0 : good (S754_zero false)) by (split; reflexivity).
  assert (H1 : good (literal 10 1)) by (apply good_closed; vm_compute; reflexivity).
  destruct (fsub_bounds t start (S754_zero false) TRANSITION_TIME Ht Hs H0 Hc)
    as [Hd Hdv]; [cbn [F2R]; lra|].
  cbn [F2R] in Hdv. rewrite <- F2R_one.
  change (0%R) with (F2R (S754_zero false)).
  change TRANSITION_TIME with (S754_finite false 7205759403792794 (-56)) at 1 3.
  apply fdiv_bounds; try assumption; [vm_compute; reflexivity|].
  change (S754_finite false 7205759403792794 (-56)) with TRANSITION_TIME.
  rewrite F2R_one. cbn [F2R]. rewrite F2R_transition in *.
  split.
  - apply Rmult_le_pos; [lra|]. apply Rlt_le, Rinv_0_lt_compat. lra.
  - apply (Rmult_le_reg_r (7205759403792794 / 72057594037927936)); [lra|].
    field_simplify; lra.
Qed.

Lemma half_progress_bounds p :
  good p -> (0 <= F2R p <= 1)%R ->
  good (literal 5 1 ⊗ p)%py /\ (0 <= F2R (literal 5 1 ⊗ p)%py <= 1 / 2)%R.
Proof.
  intros Hp Hv.
  assert (H0 : good (S754_zero false)) by (split; reflexivity).
  assert (Hh : good (literal 5 1)) by (apply good_closed; vm_compute; reflexivity).
  rewrite <- F2R_half. change (0%R) with (F2R (S754_zero false)).
  apply fmul_bounds; try assumption.
  rewrite F2R_half. cbn [F2R]. lra.
Qed.

Lemma fade_bounds p :
  good p -> (0 <= F2R p <= 1)%R ->
  good (literal 10 1 ⊖ literal 5 1 ⊗ p)%py /\
  (1 / 2 <= F2R (literal 10 1 ⊖ literal 5 1 ⊗ p)%py <= 1)%R.
Proof.
  intros Hp Hv. destruct (half_progress_bounds p Hp Hv) as [Hh Hhv].
  assert (Hhalf : good (literal 5 1)) by (apply good_closed; vm_compute; reflexivity).
  assert (H1 : good (literal 10 1)) by (apply good_closed; vm_compute; reflexivity).
  rewrite <- F2R_half at 1. rewrite <- F2R_one.
  apply fsub_bounds; try assumption.
  rewrite F2R_half, F2R_one. lra.
Qed.

Lemma brighten_bounds p :
  good p -> (0 <= F2R p <= 1)%R ->
  good (literal 5 1 ⊕ literal 5 1 ⊗ p)%py /\
  (1 / 2 <= F2R (literal 5 1 ⊕ literal 5 1 ⊗ p)%py <= 1)%R.
Proof.
  intros Hp Hv. destruct (half_progress_bounds p Hp Hv) as [Hh Hhv].
  assert (Hhalf : good (literal 5 1)) by (apply good_closed; vm_compute; reflexivity).
  assert (H1 : good (literal 10 1)) by (apply good_closed; vm_compute; reflexivity).
  rewrite <- F2R_half at 1. rewrite <- F2R_one.
  apply fadd_bounds; try assumption.
  rewrite F2R_half, F2R_one. lra.
Qed.

Lemma alpha_bounds v :
  good v -> (1 / 2 <= F2R v <= 1)%R ->
  exists a, int_of_float (v ⊗ float_of_int 255)%py = Some a /\ 127 <= a <= 255.
Proof.
  intros Hv Hb.
  assert (H255 : good (float_of_int 255)) by (apply good_closed; vm_compute; reflexivity).
  assert (H127 : good (float_of_int 127)) by (apply good_closed; vm_compute; reflexivity).
  destruct (fmul_bounds v (float_of_int 255) (float_of_int 127) (float_of_int 255)
              Hv H255 H127 H255) as [Hg Hgv].
  { rewrite F2R_255, F2R_127. lra. }
  rewrite F2R_255, F2R_127 in Hgv.
  apply int_of_float_bounds; assumption.
Qed.

(** Inside a transition window the elapsed time is at most
    TRANSITION_TIME. *)
Lemma window_bounds t start mh eh :
  good t -> good start ->
  valid (S754_finite false mh eh) = true -> 2 ^ 52 < Zpos mh ->
  (IZR (Zpos mh - 1) * bpow eh - F2R start <= F2R TRANSITION_TIME)%R ->
  flt t start = false -> flt t (S754_finite false mh eh) = true ->
  (F2R start <= F2R t)%R /\ (F2R t - F2R start <= F2R TRANSITION_TIME)%R.
Proof.
  intros Ht Hs Hh Hmh Hc Hge Hlt.
  split; [apply flt_false_F2R; assumption|].
  pose proof (flt_pred t mh eh Ht Hh Hmh Hlt). lra.
Qed.

Lemma opacity_value_bounds fs bs t mf ef mb eb :
  window_ok fs mf ef -> window_ok bs mb eb -> good t ->
  good (opacity_value fs bs t) /\ (1 / 2 <= F2R (opacity_value fs bs t) <= 1)%R.
Proof.
  intros (Hfs & Ef & Hvf & Hmf & Hcf) (Hbs & Eb & Hvb & Hmb & Hcb) Ht.
  assert (Hhalf : good (literal 5 1)) by (apply good_closed; vm_compute; reflexivity).
  assert (H1 : good (literal 10 1)) by (apply good_closed; vm_compute; reflexivity).
  unfold opacity_value.
  destruct (t ⋖ fs)%py eqn:G1; [rewrite F2R_one; split; [exact H1|lra]|].
  destruct (t ⋖ fs ⊕ TRANSITION_TIME)%py eqn:G2.
  { rewrite Ef in G2.
    destruct (window_bounds t fs mf ef Ht Hfs Hvf Hmf Hcf G1 G2) as [Hlo Hhi].
    destruct (progress_bounds t fs Ht Hfs Hlo Hhi) as [Hp Hpv].
    apply fade_bounds; assumption. }
  destruct (t ⋖ bs)%py eqn:G3; [rewrite F2R_half; split; [exact Hhalf|lra]|].
  destruct (t ⋖ bs ⊕ TRANSITION_TIME)%py eqn:G4.
  { rewrite Eb in G4.
    destruct (window_bounds t bs mb eb Ht Hbs Hvb Hmb Hcb G3 G4) as [Hlo Hhi].
    destruct (progress_bounds t bs Ht Hbs Hlo Hhi) as [Hp Hpv].
    apply brighten_bounds; assumption. }
  rewrite F2R_one; split; [exact H1|lra].
Qed.

(** The six windows of the script. *)
Ltac window_closed :=
  split; [apply good_closed; vm_compute; reflexivity|];
  split; [vm_compute; reflexivity|];
  split; [vm_compute; reflexivity|];
  split; [vm_compute; reflexivity|];
  rewrite F2R_transition;
  match goal with
  | |- context [F2R ?c] =>
      let v := eval vm_compute in c in
      change c with v
  end;
  match goal with
  | |- context [bpow (Zneg ?p)] =>
      let q := eval vm_compute in (2 ^ Zpos p) in
      assert (Eb : (bpow (Zneg p) = / IZR q)%R)
        by (pose proof (F2R_neg_exp 1 p) as E; cbn [F2R cond_Zopp] in E;
            rewrite Rmult_1_l in E; rewrite E; unfold Rdiv;
            rewrite Rmult_1_l; reflexivity);
      rewrite Eb
  end;
  try rewrite F2R_neg_exp; cbn [F2R];
  repeat match goal with
  | |- context [2 ^ Zpos ?p] =>
      let q := eval vm_compute in (2 ^ Zpos p) in change (2 ^ Zpos p) with q
  end;
  match goal with
  | |- context [IZR (?a - 1)] =>
      let q := eval vm_compute in (a - 1) in change (a - 1) with q
  end;
  lra.

Lemma fade_window_0 : window_ok (literal 0 1) 7205759403792794 (-56).
Proof. window_closed. Qed.

Lemma fade_window_1 : window_ok (literal 25 2) 6305039478318694 (-54).
Proof. window_closed. Qed.

Lemma fade_window_2 : window_ok (literal 5 1) 5404319552844595 (-53).
Proof. window_closed. Qed.

Lemma brighten_window_0 : window_ok (literal 75 2) 7656119366529843 (-53).
Proof. window_closed. Qed.

Lemma brighten_window_1 : window_ok (literal 10 1) 4953959590107546 (-52).
Proof. window_closed. Qed.

Lemma brighten_window_2 : window_ok (literal 125 2) 6079859496950170 (-52).
Proof. window_closed. Qed.

Lemma get_opacity_value i t fs bs :
  FADE_START !! i = Some fs -> BRIGHTEN_START !! i = Some bs ->
  get_opacity_at_time i t = Some (opacity_value fs bs t).
Proof. intros Hf Hb. unfold get_opacity_at_time. rewrite Hf, Hb. reflexivity. Qed.

(** A float that is not below zero is zero, positive and finite, or the
    positive infinity. *)
Lemma nonneg_cases t :
  valid t = true -> (literal 0 1 ⩽ t)%py = true -> good t \/ t = S754_infinity false.
Proof.
  intros Hv H0. change (literal 0 1) with (S754_zero false) in H0.
  destruct t as [s|[|]| |[|] m e]; try discriminate.
  - left. split; [exact Hv|reflexivity].
  - right. reflexivity.
  - left. split; [exact Hv|reflexivity].
Qed.

(** The opacity and the alpha of a dot at a time that is not below
    zero. *)
Lemma opacity_range i t :
  (i < 3)%nat -> valid t = true -> (literal 0 1 ⩽ t)%py = true ->
  exists v a,
    get_opacity_at_time i t = Some v /\
    (literal 5 1 ⩽ v)%py = true /\ (v ⩽ literal 10 1)%py = true /\
    int_of_float (v ⊗ float_of_int 255)%py = Some a /\ 127 <= a <= 255.
Proof.
  intros Hi Hv H0.
  assert (Hhalf : good (literal 5 1)) by (apply good_closed; vm_compute; reflexivity).
  assert (H1 : good (literal 10 1)) by (apply good_closed; vm_compute; reflexivity).
  destruct (nonneg_cases t Hv H0) as [Ht| ->].
  - assert (Hb : exists fs bs,
               get_opacity_at_time i t = Some (opacity_value fs bs t) /\
               good (opacity_value fs bs t) /\
               (1 / 2 <= F2R (opacity_value fs bs t) <= 1)%R).
    { destruct i as [|[|[|i]]]; [| | |lia].
      - exists (literal 0 1), (literal 75 2). split; [apply get_opacity_value; reflexivity|].
        exact (opacity_value_bounds _ _ t _ _ _ _ fade_window_0 brighten_window_0 Ht).
      - exists (literal 25 2), (literal 10 1). split; [apply get_opacity_value; reflexivity|].
        exact (opacity_value_bounds _ _ t _ _ _ _ fade_window_1 brighten_window_1 Ht).
      - exists (literal 5 1), (literal 125 2). split; [apply get_opacity_value; reflexivity|].
        exact (opacity_value_bounds _ _ t _ _ _ _ fade_window_2 brighten_window_2 Ht). }
    destruct Hb as (fs & bs & Hget & Hg & Hr).
    destruct (alpha_bounds _ Hg Hr) as (a & Ha & Hab).
    exists (opacity_value fs bs t), a.
    split; [exact Hget|]. split; [|split; [|split; assumption]].
    + apply fle_F2R; [assumption|assumption|]. rewrite F2R_half. lra.
    + apply fle_F2R; [assumption|assumption|]. rewrite F2R_one. lra.
  - exists (literal 10 1), 255.
    destruct i as [|[|[|i]]]; [| | |lia]; repeat split; vm_compute; congruence.
Qed.

Lemma draw_dots_alphas t : forall dots img,
  valid t = true -> (literal 0 1 ⩽ t)%py = true ->
  Forall (fun i => (i < 3)%nat) dots -> alphas_in_range img ->
  exists img', draw_dots t img dots = Some img' /\ alphas_in_range img'.
Proof.
  induction dots as [|i dots IH]; intros img Hv H0 Hd Himg.
  - exists img. split; [reflexivity|exact Himg].
  - apply Forall_cons in Hd as [Hi Hd].
    destruct (opacity_range i t Hi Hv H0) as (v & a & Hget & _ & _ & Ha & Hab).
    cbn [draw_dots]. unfold draw_dot. rewrite Hget. cbn [mbind option_bind].
    rewrite Ha. cbn [mbind option_bind].
    apply IH; try assumption.
    unfold alphas_in_range, draw_ellipse. cbn [im_ellipses].
    apply Forall_app. split; [exact Himg|].
    apply Forall_singleton. split; [reflexivity|exact Hab].
Qed.

Lemma create_frame_alphas n t :
  frame_time n = Some t -> valid t = true -> (literal 0 1 ⩽ t)%py = true ->
  exists img, create_frame n = Some img /\ alphas_in_range img.
Proof.
  intros Hn Hv H0. unfold create_frame. rewrite Hn. cbn [mbind option_bind].
  apply draw_dots_alphas; try assumption.
  - unfold NUM_DOTS. repeat constructor.
  - unfold alphas_in_range, Image_new. cbn [im_ellipses]. constructor.
Qed.

(** C8: for a dot index i in {0, 1, 2} and a time t that is not below
    zero ([valid] says that t is a float in the canonical form that all
    float values have), [get_opacity_at_time] returns an opacity between 0.5 and 1.0,
    and the alpha int(opacity * 255) computed from it lies between 127
    and 255; so every frame whose sampling time is not below zero is
    rendered with all its dots at an alpha between 127 and 255, and so
    are the 45 frames of the cycle. *)
Theorem opacity_in_range :
  (forall i t,
     (i < 3)%nat -> valid t = true -> (literal 0 1 ⩽ t)%py = true ->
     exists v a,
       get_opacity_at_time i t = Some v /\
       (literal 5 1 ⩽ v)%py = true /\ (v ⩽ literal 10 1)%py = true /\
       alpha_at i t = Some a /\ 127 <= a <= 255) /\
  (forall n t,
     frame_time n = Some t -> valid t = true -> (literal 0 1 ⩽ t)%py = true ->
     exists img, create_frame n = Some img /\ alphas_in_range img) /\
  Forall alphas_in_range cycle_frames.
Proof.
  split; [|split].
  - intros i t Hi Hv H0.
    destruct (opacity_range i t Hi Hv H0) as (v & a & Hget & Hlo & Hhi & Ha & Hab).
    exists v, a. unfold alpha_at. rewrite Hget. cbn [mbind option_bind]. auto.
  - exact create_frame_alphas.
  - apply (bool_decide_unpack _). vm_compute. reflexivity.
Qed.

Lemma opacity_in_range_witness :
  exists v a,
    get_opacity_at_time 1 (literal 3 1) = Some v /\
    (literal 5 1 ⩽ v)%py = true /\ (v ⩽ literal 10 1)%py = true /\
    alpha_at 1 (literal 3 1) = Some a /\ 127 <= a <= 255.
Proof.
  destruct opacity_in_range as [H _].
  apply (H 1%nat (literal 3 1));
    [lia | vm_compute; reflexivity | vm_compute; reflexivity].
Defined.

(* ===================================================================== *)
(** * The delay between the dots *)
(* ===================================================================== *)

(** ** Rounding a negative number *)

Lemma binary_round_aux_sign m e l :
  binary_round_aux prec emax true m e l = SFopp (binary_round_aux prec emax false m e l).
Proof.
  unfold binary_round_aux.
  destruct (shr_fexp prec emax m e l) as [mrs' e'].
  destruct (shr_fexp prec emax _ e' loc_Exact) as [mrs'' e''].
  destruct (shr_m mrs'') as [|p|p]; try reflexivity.
  destruct (e'' <=? emax - prec); reflexivity.
Qed.

Lemma binary_round_sign m e :
  binary_round prec emax true m e = SFopp (binary_round prec emax false m e).
Proof.
  unfold binary_round. destruct (shl_align m e _) as [mz ez].
  apply binary_round_aux_sign.
Qed.

(** ** Rounding from below only *)

(** The result of rounding is the positive infinity, or the float whose
    mantissa is the rounded quotient on the grid of the result's
    exponent. *)
Lemma round_aux_value N D ex :
  0 <= N -> 0 < D ->
  let k := fexp53 (Zdigits2 (N / D) + ex) - ex in
  let m1 := round_nearest_even (shr_m (rec_of N (D * 2 ^ k)))
                               (loc_of_shr_record (rec_of N (D * 2 ^ k))) in
  let r := binary_round_aux prec emax false (N / D) ex (loc_of (N mod D) D) in
  0 <= k ->
  (r = S754_infinity false /\ 0 < m1) \/
  (good r /\ F2R r = (IZR m1 * bpow (ex + k))%R).
Proof.
  intros HN HD k m1 r Hk.
  destruct (binary_round_aux_shape N D ex HN HD Hk) as (Hm1 & HA1 & HB1 & Er).
  fold k m1 in Hm1, HA1, HB1, Er. fold r in Er.
  assert (He' : -1074 <= ex + k) by (unfold k, fexp53; lia).
  assert (HcaseB : Zdigits2 (N / D) + ex - 53 < -1074 -> ex + k = -1074)
    by (unfold k, fexp53; lia).
  rewrite Er. destruct (Z.eqb_spec m1 0) as [E0|E0].
  { right. rewrite E0. split; [split; reflexivity|cbn; lra]. }
  destruct (Z.ltb_spec m1 (2 ^ 53)) as [Hlt|Hge].
  - destruct (Z.leb_spec (ex + k) 971) as [Hle|Hgt]; [right|left; split; [reflexivity|lia]].
    split.
    + split; [|reflexivity]. apply valid_finite_intro; [|assumption].
      replace (Zpos (digits2_pos (Z.to_pos m1))) with (Zdigits2 m1)
        by (destruct m1; try lia; reflexivity).
      destruct (Z_le_gt_dec (-1074) (Zdigits2 (N / D) + ex - 53)) as [C|C].
      * specialize (HA1 C).
        rewrite (Zdigits2_unique m1 53) by (try lia; change (53 - 1) with 52; lia).
        unfold fexp53. lia.
      * specialize (HB1 ltac:(lia)). specialize (HcaseB ltac:(lia)).
        assert (Zdigits2 m1 <= 53) by (apply Zdigits2_le; lia).
        pose proof (Zdigits2_nonneg m1 ltac:(lia)).
        unfold fexp53. lia.
    + cbn [F2R cond_Zopp]. rewrite Z2Pos.id by lia. reflexivity.
  - assert (E : m1 = 2 ^ 53) by lia.
    destruct (Z.leb_spec (ex + k + 1) 971) as [Hle|Hgt]; [right|left; split; [reflexivity|lia]].
    split.
    + split; [|reflexivity]. apply valid_finite_intro; [|assumption].
      change (Zpos (digits2_pos (Z.to_pos (2 ^ 52)))) with 53. unfold fexp53. lia.
    + cbn [F2R cond_Zopp]. rewrite E.
      change (Zpos (Z.to_pos (2 ^ 52))) with (2 ^ 52).
      rewrite !IZR_pow2 by lia. rewrite <- !bpow_add. f_equal. lia.
Qed.

(** A float below the exact value is below the rounded mantissa. *)
Lemma round_aux_mantissa_lower N D ex L :
  0 <= N -> 0 < D ->
  let k := fexp53 (Zdigits2 (N / D) + ex) - ex in
  let m1 := round_nearest_even (shr_m (rec_of N (D * 2 ^ k)))
                               (loc_of_shr_record (rec_of N (D * 2 ^ k))) in
  0 <= k -> good L ->
  (F2R L <= IZR N / IZR D * bpow ex)%R ->
  (F2R L <= IZR m1 * bpow (ex + k))%R.
Proof.
  intros HN HD k m1 Hk HL HLv.
  destruct (binary_round_aux_shape N D ex HN HD Hk) as (Hm1 & HA1 & HB1 & _).
  fold k m1 in Hm1, HA1, HB1.
  pose proof (pow2_pos k Hk) as Hpk.
  assert (HD' : 0 < D * 2 ^ k) by nia.
  destruct (good_cases L HL) as [[s ->]|(mL & eL & -> & HvL')].
  - cbn [F2R]. pose proof (bpow_pos (ex + k)).
    assert (0 <= IZR m1)%R by (apply IZR_le; lia). nra.
  - pose proof (valid_finite_bounds _ _ _ HvL') as (HeL & HmL & _).
    cbn [F2R cond_Zopp] in HLv |- *.
    destruct (Z_le_gt_dec (ex + k) eL) as [C|C].
    + rewrite <- (IZR_grid (Zpos mL) eL (ex + k) C).
      apply Rmult_le_compat_r; [pose proof (bpow_pos (ex + k)); lra|]. apply IZR_le.
      apply rne_lower; [assumption|assumption|].
      pose proof (grid_le_value N D ex (Zpos mL) eL HD ltac:(lia) HLv) as G.
      replace (eL - ex) with (eL - (ex + k) + k) in G by lia.
      rewrite Z.pow_add_r in G by lia. lia.
    + assert (C' : -1074 <= Zdigits2 (N / D) + ex - 53) by (unfold k, fexp53 in *; lia).
      specialize (HA1 C').
      assert (IZR (Zpos mL) < bpow 53)%R.
      { rewrite <- IZR_pow2 by lia. apply IZR_lt. lia. }
      assert (bpow 52 <= IZR m1)%R.
      { rewrite <- IZR_pow2 by lia. apply IZR_le. lia. }
      set (e' := ex + k) in *.
      pose proof (bpow_pos eL). pose proof (bpow_pos e').
      pose proof (bpow_le (53 + eL) (52 + e') ltac:(lia)) as Hb.
      rewrite !bpow_add in Hb. nra.
Qed.

Lemma round_aux_lower N D ex L :
  0 <= N -> 0 < D -> ex <= fexp53 (Zdigits2 (N / D) + ex) -> good L ->
  (F2R L <= IZR N / IZR D * bpow ex)%R ->
  binary_round_aux prec emax false (N / D) ex (loc_of (N mod D) D) = S754_infinity false \/
  (good (binary_round_aux prec emax false (N / D) ex (loc_of (N mod D) D)) /\
   (F2R L <= F2R (binary_round_aux prec emax false (N / D) ex (loc_of (N mod D) D)))%R).
Proof.
  intros HN HD Hex HL HLv.
  assert (Hk : 0 <= fexp53 (Zdigits2 (N / D) + ex) - ex) by lia.
  destruct (round_aux_value N D ex HN HD Hk) as [[Hinf _]|[Hg Hv]]; [left; exact Hinf|].
  right. split; [exact Hg|]. rewrite Hv.
  apply round_aux_mantissa_lower; assumption.
Qed.

Lemma binary_round_lower m e L :
  good L -> (F2R L <= IZR (Zpos m) * bpow e)%R ->
  binary_round prec emax false m e = S754_infinity false \/
  (good (binary_round prec emax false m e) /\
   (F2R L <= F2R (binary_round prec emax false m e))%R).
Proof.
  intros HL Hv. unfold binary_round.
  change (fexp prec emax ?a) with (fexp53 a).
  set (fe := fexp53 (Zpos (digits2_pos m) + e)).
  destruct (shl_align_spec m e fe) as [Hsnd Hfst].
  destruct (shl_align m e fe) as [mz ez]. cbn [fst snd] in Hsnd, Hfst.
  assert (Hsh : 0 <= e - ez) by lia.
  pose proof (round_aux_lower (Zpos mz) 1 ez L ltac:(lia) ltac:(lia)) as G.
  rewrite Z.div_1_r, Z.mod_1_r in G. unfold Rdiv in G. rewrite Rinv_1, Rmult_1_r in G.
  apply G; [|exact HL|].
  - rewrite Hfst, <- Hsnd, Zdigits2_shift by lia.
    change (Zdigits2 (Zpos m)) with (Zpos (digits2_pos m)).
    replace (Zpos (digits2_pos m) + (e - ez) + ez) with (Zpos (digits2_pos m) + e) by lia.
    fold fe. lia.
  - rewrite Hfst, <- Hsnd, IZR_grid by lia. exact Hv.
Qed.

(** ** Subtracting a larger number *)

Lemma good_positive x :
  good x -> (0 < F2R x)%R -> exists m e, x = S754_finite false m e.
Proof.
  intros Hx Hp. destruct (good_cases x Hx) as [[s ->]|(m & e & -> & _)].
  - cbn in Hp. lra.
  - eauto.
Qed.

(** The smallest positive float. *)
Lemma F2R_tiny : F2R (S754_finite false 1 (-1074)) = bpow (-1074).
Proof. cbn [F2R cond_Zopp]. lra. Qed.

(** [t - s] is below zero when [t] is below the positive float [s]. *)
Lemma fsub_negative t ms es :
  valid t = true -> valid (S754_finite false ms es) = true ->
  flt t (S754_finite false ms es) = true ->
  flt (fsub t (S754_finite false ms es)) (S754_zero false) = true.
Proof.
  intros Hvt Hvs Hlt.
  assert (Hs : good (S754_finite false ms es)) by (split; [exact Hvs|reflexivity]).
  assert (Htiny : good (S754_finite false 1 (-1074)))
    by (apply good_closed; vm_compute; reflexivity).
  destruct t as [st|[|]| |[|] mt et]; try discriminate.
  - (* zero *) reflexivity.
  - (* minus infinity *) reflexivity.
  - (* negative *)
    unfold fsub, SFsub. cbn [cond_Zopp].
    set (ez := Z.min et es).
    set (at' := Zpos (fst (shl_align mt et ez))).
    set (as' := Zpos (fst (shl_align ms es ez))).
    replace (- at' - as') with (Zneg (Z.to_pos (at' + as'))) by (unfold at', as'; lia).
    cbn [binary_normalize]. rewrite binary_round_sign.
    pose proof (aligned_value ms es ez ltac:(unfold ez; lia)) as As. fold as' in As.
    assert (Hv : (F2R (S754_finite false ms es)
                  <= IZR (Zpos (Z.to_pos (at' + as'))) * bpow ez)%R).
    { cbn [F2R cond_Zopp]. rewrite <- As. rewrite Z2Pos.id by (unfold at', as'; lia).
      apply Rmult_le_compat_r; [pose proof (bpow_pos ez); lra|].
      apply IZR_le. unfold at'. lia. }
    destruct (binary_round_lower _ ez _ Hs Hv) as [->|[Hg Hb]]; [reflexivity|].
    destruct (good_positive _ Hg) as (m & e & ->); [|reflexivity].
    cbn [F2R cond_Zopp] in Hb |- *.
    pose proof (bpow_pos es). assert (0 < IZR (Zpos ms))%R by (apply IZR_lt; lia).
    cbn [F2R cond_Zopp] in Hv. nra.
  - (* positive and below s *)
    assert (Ht : good (S754_finite false mt et)) by (split; [exact Hvt|reflexivity]).
    apply (flt_F2R _ _ Ht Hs) in Hlt. cbn [F2R cond_Zopp] in Hlt.
    unfold fsub, SFsub. cbn [cond_Zopp].
    set (ez := Z.min et es).
    pose proof (aligned_value mt et ez ltac:(unfold ez; lia)) as At.
    pose proof (aligned_value ms es ez ltac:(unfold ez; lia)) as As.
    set (at' := Zpos (fst (shl_align mt et ez))) in *.
    set (as' := Zpos (fst (shl_align ms es ez))) in *.
    assert (Hd : at' < as').
    { apply lt_IZR. pose proof (bpow_pos ez). nra. }
    replace (at' - as') with (Zneg (Z.to_pos (as' - at'))) by lia.
    cbn [binary_normalize]. rewrite binary_round_sign.
    assert (Hez : -1074 <= ez).
    { apply valid_finite_bounds in Hvt, Hvs. unfold ez. lia. }
    assert (Hv : (F2R (S754_finite false 1 (-1074))
                  <= IZR (Zpos (Z.to_pos (as' - at'))) * bpow ez
                  <= F2R (S754_finite false ms es))%R).
    { rewrite F2R_tiny. cbn [F2R cond_Zopp]. rewrite Z2Pos.id by lia. split.
      - pose proof (bpow_le (-1074) ez Hez). pose proof (bpow_pos ez).
        assert (1 <= IZR (as' - at'))%R by (apply IZR_le; lia). nra.
      - rewrite minus_IZR. pose proof (bpow_pos ez).
        assert (0 < IZR at')%R by (apply IZR_lt; unfold at'; lia). nra. }
    destruct (binary_round_bounds _ ez _ _ Htiny Hs Hv) as [Hg [Hb _]].
    destruct (good_positive _ Hg) as (m & e & ->); [|reflexivity].
    rewrite F2R_tiny in Hb. pose proof (bpow_pos (-1074)). lra.
Qed.

(** ** Floats next to a float *)

(** Above a float with a mantissa below 2^53 - 1. *)
Lemma flt_succ t mh eh :
  good t -> valid (S754_finite false mh eh) = true -> Zpos mh < 2 ^ 53 - 1 ->
  flt t (S754_finite false mh eh) = false -> t <> S754_finite false mh eh ->
  (IZR (Zpos mh + 1) * bpow eh <= F2R t)%R.
Proof.
  intros Ht Hh Hmh Hlt Hne.
  rewrite flt_key in Hlt by (try reflexivity; apply good_not_nan; assumption).
  apply bool_decide_eq_false in Hlt. unfold key_lt in Hlt.
  pose proof (bpow_pos eh).
  pose proof (valid_finite_bounds _ _ _ Hh) as (Heh & Hmh' & _).
  destruct (good_cases t Ht) as [[s ->]|(m & e & -> & Hv)];
    cbn [key1 key2 key3 F2R cond_Zopp] in *; [lia|].
  pose proof (valid_finite_bounds _ _ _ Hv) as (He & Hm & Hbig).
  destruct (Z_lt_le_dec eh e) as [C|C].
  - specialize (Hbig ltac:(lia)).
    assert (bpow 52 <= IZR (Zpos m))%R by (rewrite <- IZR_pow2 by lia; apply IZR_le; lia).
    assert (IZR (Zpos mh + 1) <= bpow 53)%R by (rewrite <- IZR_pow2 by lia; apply IZR_le; lia).
    pose proof (bpow_pos e).
    pose proof (bpow_le (53 + eh) (52 + e) ltac:(lia)) as Hb.
    rewrite !bpow_add in Hb.
    apply Rle_trans with (bpow 53 * bpow eh)%R; [apply Rmult_le_compat_r; lra|].
    apply Rle_trans with (bpow 52 * bpow e)%R; [exact Hb|].
    apply Rmult_le_compat_r; lra.
  - assert (E : e = eh) by lia. subst e.
    assert (Zpos mh < Zpos m).
    { destruct (Z_lt_le_dec (Zpos mh) (Zpos m)) as [|C']; [assumption|exfalso].
      assert (Zpos m = Zpos mh) by lia. apply Hne. congruence. }
    apply Rmult_le_compat_r; [lra|]. apply IZR_le. lia.
Qed.

(** Below a power of two. *)
Lemma flt_pred_pow2 t eh :
  good t -> -1074 < eh ->
  flt t (S754_finite false 4503599627370496 eh) = true ->
  (F2R t <= IZR (2 ^ 53 - 1) * bpow (eh - 1))%R.
Proof.
  intros Ht Heh Hlt.
  rewrite flt_key in Hlt by (try reflexivity; apply good_not_nan; assumption).
  apply bool_decide_eq_true in Hlt. unfold key_lt in Hlt.
  pose proof (bpow_pos (eh - 1)).
  destruct (good_cases t Ht) as [[s ->]|(m & e & -> & Hv)];
    cbn [key1 key2 key3 F2R cond_Zopp] in *.
  - assert (0 <= IZR (2 ^ 53 - 1))%R by (apply IZR_le; lia). nra.
  - pose proof (valid_finite_bounds _ _ _ Hv) as (He & Hm & Hbig).
    change (2 ^ 52) with 4503599627370496 in Hbig.
    assert (C : e <= eh - 1) by lia.
    assert (IZR (Zpos m) <= IZR (2 ^ 53 - 1))%R by (apply IZR_le; lia).
    pose proof (bpow_le e (eh - 1) C). pose proof (bpow_pos e).
    assert (0 < IZR (Zpos m))%R by (apply IZR_lt; lia). nra.
Qed.

(** ** Exact results *)

Lemma good_F2R_inj x y :
  good x -> good y -> F2R x = F2R y ->
  x = y \/ (exists sx sy, x = S754_zero sx /\ y = S754_zero sy).
Proof.
  intros Hx Hy E.
  assert (Hxy : ~ key_lt x y) by (intros K; apply (key_lt_F2R x y Hx Hy) in K; lra).
  assert (Hyx : ~ key_lt y x) by (intros K; apply (key_lt_F2R y x Hy Hx) in K; lra).
  unfold key_lt in *.
  destruct (good_cases x Hx) as [[sx ->]|(mx & ex & -> & _)];
  destruct (good_cases y Hy) as [[sy ->]|(my & ey & -> & _)];
    cbn [key1 key2 key3] in *; try lia.
  - right. eauto.
  - left. assert (ex = ey) by lia. assert (Zpos mx = Zpos my) by lia. congruence.
Qed.

(** An integer below 2^53 times a power of two in range is a float. *)
Lemma binary_normalize_exact M e :
  0 <= M < 2 ^ 53 -> -1074 <= e <= 971 ->
  good (binary_normalize prec emax M e false) /\
  F2R (binary_normalize prec emax M e false) = (IZR M * bpow e)%R.
Proof.
  intros HM0 He. destruct M as [|m|m]; [| |lia].
  { split; [split; reflexivity|cbn; lra]. }
  assert (HM : Zpos m < 2 ^ 53) by lia. clear HM0.
  cbn [binary_normalize]. unfold binary_round.
  change (fexp prec emax ?a) with (fexp53 a).
  set (fe := fexp53 (Zpos (digits2_pos m) + e)).
  assert (Hd : Zdigits2 (Zpos m) <= 53) by (apply Zdigits2_le; lia).
  change (Zdigits2 (Zpos m)) with (Zpos (digits2_pos m)) in Hd.
  assert (Hfe : fe <= e) by (unfold fe, fexp53; lia).
  destruct (shl_align_spec m e fe) as [Hsnd Hfst].
  destruct (shl_align m e fe) as [mz ez]. cbn [fst snd] in Hsnd, Hfst.
  assert (Ez : ez = fe) by lia.
  assert (Hk : fexp53 (Zdigits2 (Zpos mz) + ez) - ez = 0).
  { rewrite Hfst, <- Hsnd, Zdigits2_shift by lia.
    change (Zdigits2 (Zpos m)) with (Zpos (digits2_pos m)).
    replace (Zpos (digits2_pos m) + (e - ez) + ez) with (Zpos (digits2_pos m) + e) by lia.
    fold fe. lia. }
  pose proof (round_aux_value (Zpos mz) 1 ez ltac:(lia) ltac:(lia)) as G.
  cbv zeta in G. rewrite Z.div_1_r, Z.mod_1_r, Hk, Z.pow_0_r, Z.mul_1_r, Z.add_0_r in G.
  change (loc_of 0 1) with loc_Exact in G.
  destruct (rne_rec (Zpos mz) 1 ltac:(lia) ltac:(lia)) as [_ Hex].
  rewrite Z.div_1_r in Hex. rewrite (Hex (Z.mod_1_r _)) in G.
  assert (Hval : (IZR (Zpos mz) * bpow ez = IZR (Zpos m) * bpow e)%R)
    by (rewrite Hfst, <- Hsnd; apply IZR_grid; lia).
  destruct (G ltac:(lia)) as [[Hinf _]|[Hg Hv]].
  - exfalso.
    assert (Hk0 : 0 <= fexp53 (Zdigits2 (Zpos mz / 1) + ez) - ez)
      by (rewrite Z.div_1_r, Hk; lia).
    destruct (binary_round_aux_shape (Zpos mz) 1 ez ltac:(lia) ltac:(lia) Hk0)
      as (_ & _ & _ & Er).
    rewrite Z.mod_1_r in Er. change (loc_of 0 1) with loc_Exact in Er.
    rewrite !Z.div_1_r in Er. rewrite Hk, Z.pow_0_r, Z.mul_1_r, Z.add_0_r in Er.
    rewrite (Hex (Z.mod_1_r _)) in Er.
    rewrite Er in Hinf.
    assert (Hmz : Zpos mz < 2 ^ 53).
    { pose proof (Zdigits2_upper (Zpos mz) ltac:(lia)) as Hu.
      assert (Zdigits2 (Zpos mz) <= 53).
      { rewrite Hfst, <- Hsnd, Zdigits2_shift by lia.
        change (Zdigits2 (Zpos m)) with (Zpos (digits2_pos m)).
        unfold fe, fexp53 in *. lia. }
      assert (2 ^ Zdigits2 (Zpos mz) <= 2 ^ 53) by (apply Z.pow_le_mono_r; lia). lia. }
    destruct (Z.ltb_spec (Zpos mz) (2 ^ 53)) as [_|]; [|lia].
    cbn [Z.eqb] in Hinf.
    destruct (Z.leb_spec ez 971); [discriminate|lia].
  - split; [exact Hg|]. rewrite Hv. exact Hval.
Qed.

(** A difference that is a float is computed exactly. *)
Lemma fsub_exact x y M e :
  good x -> good y -> 0 <= M < 2 ^ 53 -> -1074 <= e <= 971 ->
  (F2R x - F2R y = IZR M * bpow e)%R ->
  good (fsub x y) /\ F2R (fsub x y) = (F2R x - F2R y)%R.
Proof.
  intros Hx Hy HM He Hv.
  destruct (binary_normalize_exact M e HM He) as [Hg Hf].
  destruct (fsub_bounds x y _ _ Hx Hy Hg Hg) as [Hgr Hb]; [rewrite Hf; lra|].
  split; [exact Hgr|]. rewrite Hf in Hb. lra.
Qed.

(** ** One dot against the first dot *)

Lemma fsub_zero_r x : fsub x (S754_zero false) = x.
Proof. destruct x as [[|]|[|]| |s m e]; reflexivity. Qed.

Lemma flt_zero_good x : good x -> flt x (S754_zero false) = false.
Proof.
  intros Hx. destruct (flt x (S754_zero false)) eqn:E; [|reflexivity].
  apply (flt_F2R x _ Hx) in E; [|split; reflexivity].
  pose proof (F2R_nonneg x Hx). cbn [F2R] in E. lra.
Qed.

Lemma flt_true x y : good x -> good y -> (F2R x < F2R y)%R -> flt x y = true.
Proof. intros Hx Hy H. apply flt_F2R; assumption. Qed.

Lemma flt_false x y : good x -> good y -> (F2R y <= F2R x)%R -> flt x y = false.
Proof.
  intros Hx Hy H. destruct (flt x y) eqn:E; [|reflexivity].
  apply (flt_F2R x y Hx Hy) in E. lra.
Qed.

Lemma shift_dot s hi bs hb P01 P075 P085 t :
  shift_facts s hi bs hb P01 P075 P085 ->
  valid t = true ->
  (match t with S754_zero _ | S754_finite _ _ _ => True | _ => False end) ->
  t <> hi ->
  opacity_value s bs t = opacity_value (literal 0 1) (literal 75 2) (fsub t s).
Proof.
  intros F Hvt Hfin Hne.
  destruct (sf_s _ _ _ _ _ _ _ F) as (ms & es & Es & Hvs).
  destruct (sf_good _ _ _ _ _ _ _ F) as (Hhi & Hbs & Hhb & HP01 & HP075 & HP085).
  assert (Hs : good s) by (split; [exact Hvs|rewrite Es; reflexivity]).
  assert (Hs0 : (0 < F2R s)%R).
  { rewrite Es. cbn [F2R cond_Zopp]. pose proof (bpow_pos es).
    assert (0 < IZR (Zpos ms))%R by (apply IZR_lt; lia). nra. }
  assert (H0 : good (S754_zero false)) by (split; reflexivity).
  assert (H01 : good (literal 1 1)) by (apply good_closed; vm_compute; reflexivity).
  assert (H075 : good (literal 75 2)) by (apply good_closed; vm_compute; reflexivity).
  assert (H085 : good (literal 85 2)) by (apply good_closed; vm_compute; reflexivity).
  unfold opacity_value.
  rewrite (sf_hi _ _ _ _ _ _ _ F), (sf_hb _ _ _ _ _ _ _ F).
  replace (literal 0 1 ⊕ TRANSITION_TIME)%py with (literal 1 1) by (vm_compute; reflexivity).
  replace (literal 75 2 ⊕ TRANSITION_TIME)%py with (literal 85 2) by (vm_compute; reflexivity).
  change (literal 0 1) with (S754_zero false).
  destruct (flt t s) eqn:G1.
  { (* before the fade *)
    rewrite Es in G1 |- *. rewrite Es in Hvs.
    rewrite (fsub_negative t ms es Hvt Hvs G1). reflexivity. }
  assert (Ht : good t).
  { split; [exact Hvt|]. rewrite Es in G1.
    destruct t as [[|]| | |[|] mt et]; try contradiction; try reflexivity; discriminate. }
  pose proof (flt_false_F2R t s Ht Hs G1) as Hts.
  assert (Hsub : forall L H, good L -> good H ->
            (F2R L <= F2R t - F2R s <= F2R H)%R ->
            good (fsub t s) /\ (F2R L <= F2R (fsub t s) <= F2R H)%R).
  { intros L H HL HH Hb. apply fsub_bounds; assumption. }
  destruct (Hsub (S754_zero false) t H0 Ht) as [Ht' _]; [cbn [F2R]; lra|].
  rewrite (flt_zero_good _ Ht'). rewrite fsub_zero_r.
  destruct (flt t hi) eqn:G2.
  { (* fading *)
    pose proof (sf_fade_in _ _ _ _ _ _ _ F t Ht G2) as Hb.
    destruct (Hsub (S754_zero false) P01 H0 HP01) as [_ [_ Hu]]; [cbn [F2R]; lra|].
    rewrite (flt_true _ _ Ht' H01) by (pose proof (sf_P01 _ _ _ _ _ _ _ F); lra).
    reflexivity. }
  pose proof (sf_fade_out _ _ _ _ _ _ _ F t Ht G2 Hne) as Hb2.
  destruct (Hsub (literal 1 1) t H01 Ht) as [_ [Hl2 _]]; [lra|].
  rewrite (flt_false _ _ Ht' H01 Hl2).
  destruct (flt t bs) eqn:G3.
  { (* faded *)
    pose proof (sf_low_in _ _ _ _ _ _ _ F t Ht G3) as Hb.
    destruct (Hsub (S754_zero false) P075 H0 HP075) as [_ [_ Hu]]; [cbn [F2R]; lra|].
    rewrite (flt_true _ _ Ht' H075) by (pose proof (sf_P075 _ _ _ _ _ _ _ F); lra).
    reflexivity. }
  pose proof (flt_false_F2R t bs Ht Hbs G3) as Hb3.
  pose proof (sf_low_out _ _ _ _ _ _ _ F) as Hlo.
  destruct (Hsub (literal 75 2) t H075 Ht) as [_ [Hl3 _]]; [lra|].
  rewrite (flt_false _ _ Ht' H075 Hl3).
  destruct (flt t hb) eqn:G4.
  { (* brightening *)
    pose proof (sf_bright_in _ _ _ _ _ _ _ F t Ht G4) as Hb.
    destruct (Hsub (S754_zero false) P085 H0 HP085) as [_ [_ Hu]]; [cbn [F2R]; lra|].
    rewrite (flt_true _ _ Ht' H085) by (pose proof (sf_P085 _ _ _ _ _ _ _ F); lra).
    rewrite (sf_exact _ _ _ _ _ _ _ F t Ht G3 G4). reflexivity. }
  pose proof (flt_false_F2R t hb Ht Hhb G4) as Hb4.
  pose proof (sf_bright_out _ _ _ _ _ _ _ F) as Hbo.
  destruct (Hsub (literal 85 2) t H085 Ht) as [_ [Hl4 _]]; [lra|].
  rewrite (flt_false _ _ Ht' H085 Hl4). reflexivity.
Qed.

Lemma fsub_diag m e :
  fsub (S754_finite false m e) (S754_finite false m e) = S754_zero false.
Proof.
  unfold fsub, SFsub. cbn [cond_Zopp]. rewrite Z.min_id.
  rewrite Z.sub_diag. reflexivity.
Qed.

Lemma good_positive_finite x :
  good x -> (0 < F2R x)%R -> exists m e, x = S754_finite false m e.
Proof.
  intros [Hv Hn] H. destruct x as [s| | |[|] m e]; try discriminate.
  - cbn [F2R] in H. lra.
  - eauto.
Qed.

(** Inside a brightening window that lies in [1, 2) every subtraction
    of the delayed computation is exact. *)
Lemma brighten_exact s c mb mh Ks t :
  good s -> good c ->
  valid (S754_finite false mb (-52)) = true ->
  valid (S754_finite false mh (-52)) = true ->
  0 < Ks < Zpos mb ->
  F2R s = (IZR Ks * bpow (-52))%R ->
  F2R c = (IZR (Zpos mb - Ks) * bpow (-52))%R ->
  good t ->
  flt t (S754_finite false mb (-52)) = false ->
  flt t (S754_finite false mh (-52)) = true ->
  fsub t (S754_finite false mb (-52)) = fsub (fsub t s) c.
Proof.
  intros Hs Hc Hvb Hvh HK Es Ec Ht G3 G4.
  assert (Hm : exists m, t = S754_finite false m (-52) /\ Zpos mb <= Zpos m < Zpos mh).
  { destruct Ht as [Hvt Hnt].
    rewrite flt_key in G3, G4 by (destruct t; try discriminate; reflexivity).
    apply bool_decide_eq_false in G3. apply bool_decide_eq_true in G4.
    unfold key_lt in G3, G4.
    destruct t as [st| | |[|] m e]; try discriminate;
      cbn [key1 key2 key3] in G3, G4; try (exfalso; lia).
    assert (e = -52) by lia. subst e. exists m. split; [reflexivity|lia]. }
  destruct Hm as (m & -> & Hmb).
  set (bs := S754_finite false mb (-52)) in *.
  assert (Hbs : good bs) by (split; [exact Hvb|reflexivity]).
  pose proof (valid_finite_bounds _ _ _ (proj1 Ht)) as (_ & Hm53 & _).
  pose proof (bpow_pos (-52)) as Hp.
  assert (Et : F2R (S754_finite false m (-52)) = (IZR (Zpos m) * bpow (-52))%R) by reflexivity.
  assert (Eb : F2R bs = (IZR (Zpos mb) * bpow (-52))%R) by reflexivity.
  set (t := S754_finite false m (-52)) in *.
  destruct (fsub_exact t s (Zpos m - Ks) (-52) Ht Hs ltac:(lia) ltac:(lia)) as [Ht' Et'].
  { rewrite Et, Es, minus_IZR. ring. }
  destruct (fsub_exact t bs (Zpos m - Zpos mb) (-52) Ht Hbs ltac:(lia) ltac:(lia)) as [H1 E1].
  { rewrite Et, Eb, minus_IZR. ring. }
  destruct (fsub_exact (fsub t s) c (Zpos m - Zpos mb) (-52) Ht' Hc ltac:(lia) ltac:(lia))
    as [H2 E2].
  { rewrite Et', Et, Es, Ec, !minus_IZR. ring. }
  assert (E12 : F2R (fsub t bs) = F2R (fsub (fsub t s) c)).
  { rewrite E1, E2, Et', Et, Eb, Es, Ec, !minus_IZR. ring. }
  destruct (good_F2R_inj _ _ H1 H2 E12) as [E|(sx & sy & Ex & Ey)]; [exact E|].
  (* both differences are zero: t is the start of the window *)
  assert (Z0 : F2R (fsub t bs) = 0%R) by (rewrite Ex; reflexivity).
  rewrite E1, Et, Eb in Z0.
  assert (Emb : Zpos m = Zpos mb).
  { apply eq_IZR. nra. }
  assert (m = mb) by congruence. subst m.
  assert (Etc : fsub t s = c).
  { assert (Hc0 : (0 < F2R c)%R).
    { rewrite Ec. assert (0 < IZR (Zpos mb - Ks))%R by (apply IZR_lt; lia). nra. }
    destruct (good_F2R_inj _ _ Ht' Hc) as [E|(sx' & sy' & _ & Ey')]; [|exact E|].
    - rewrite Et', Et, Es, Ec, minus_IZR. ring.
    - rewrite Ey' in Hc0. cbn [F2R] in Hc0. lra. }
  rewrite Etc.
  assert (Hc0 : (0 < F2R c)%R).
  { rewrite Ec. assert (0 < IZR (Zpos mb - Ks))%R by (apply IZR_lt; lia). nra. }
  destruct (good_positive_finite c Hc Hc0) as (mc & ec & ->).
  unfold t, bs. rewrite !fsub_diag. reflexivity.
Qed.

Lemma bpow_neg_frac p q : 2 ^ Zpos p = q -> bpow (Zneg p) = (/ IZR q)%R.
Proof.
  intros <-. pose proof (F2R_neg_exp 1 p) as E. cbn [F2R cond_Zopp] in E.
  rewrite Rmult_1_l in E. rewrite E. unfold Rdiv. rewrite Rmult_1_l. reflexivity.
Qed.

Lemma F2R_frac m p q :
  2 ^ Zpos p = q -> F2R (S754_finite false m (Zneg p)) = (IZR (Zpos m) / IZR q)%R.
Proof. intros <-. apply F2R_neg_exp. Qed.

(** Rewrites the value of every closed float and every closed power of
    two under a hypothesis or in the goal into a quotient of numerals. *)
Ltac closed_reals :=
  repeat match goal with
  | |- context [F2R (S754_finite false ?m (Zneg ?p))] =>
      let q := eval vm_compute in (2 ^ Zpos p) in
      rewrite (F2R_frac m p q eq_refl)
  | H : context [F2R (S754_finite false ?m (Zneg ?p))] |- _ =>
      let q := eval vm_compute in (2 ^ Zpos p) in
      rewrite (F2R_frac m p q eq_refl) in H
  | |- context [bpow (Zneg ?p)] =>
      let q := eval vm_compute in (2 ^ Zpos p) in
      rewrite (bpow_neg_frac p q eq_refl)
  | H : context [bpow (Zneg ?p)] |- _ =>
      let q := eval vm_compute in (2 ^ Zpos p) in
      rewrite (bpow_neg_frac p q eq_refl) in H
  | H : context [IZR (Zpos ?m + 1)] |- _ =>
      let q := eval vm_compute in (Zpos m + 1) in
      change (Zpos m + 1) with q in H
  | H : context [IZR (Zpos ?m - 1)] |- _ =>
      let q := eval vm_compute in (Zpos m - 1) in
      change (Zpos m - 1) with q in H
  | H : context [IZR (2 ^ 53 - 1)] |- _ =>
      change (2 ^ 53 - 1) with 9007199254740991 in H
  end.

Ltac closed_good := apply good_closed; vm_compute; reflexivity.

(** Dot 1: start 0.25, window ends 0.35, 1.0 and 1.1. *)
Lemma shift_facts_1 :
  shift_facts (literal 25 2) (literal 35 2) (literal 10 1) (literal 11 1)
    (S754_finite false 7205759403792793 (-56))
    (S754_finite false 6755399441055743 (-53))
    (S754_finite false 7656119366529842 (-53)).
Proof.
  change (literal 25 2) with (S754_finite false 4503599627370496 (-54)).
  change (literal 35 2) with (S754_finite false 6305039478318694 (-54)).
  change (literal 10 1) with (S754_finite false 4503599627370496 (-52)).
  change (literal 11 1) with (S754_finite false 4953959590107546 (-52)).
  split.
  - eexists _, _. split; reflexivity.
  - vm_compute. reflexivity.
  - vm_compute. reflexivity.
  - repeat split; reflexivity.
  - change (literal 1 1) with (S754_finite false 7205759403792794 (-56)).
    closed_reals. lra.
  - change (literal 75 2) with (S754_finite false 6755399441055744 (-53)).
    closed_reals. lra.
  - change (literal 85 2) with (S754_finite false 7656119366529843 (-53)).
    closed_reals. lra.
  - intros t Ht G. apply flt_pred in G; [|exact Ht|reflexivity|lia].
    closed_reals. lra.
  - intros t Ht G Hne. apply flt_succ in G; [|exact Ht|reflexivity|lia|exact Hne].
    change (literal 1 1) with (S754_finite false 7205759403792794 (-56)).
    closed_reals. lra.
  - intros t Ht G. apply flt_pred_pow2 in G; [|exact Ht|lia].
    change (-52 - 1) with (-53) in G.
    closed_reals. lra.
  - change (literal 75 2) with (S754_finite false 6755399441055744 (-53)).
    closed_reals. lra.
  - intros t Ht G. apply flt_pred in G; [|exact Ht|reflexivity|lia].
    closed_reals. lra.
  - change (literal 85 2) with (S754_finite false 7656119366529843 (-53)).
    closed_reals. lra.
  - intros t Ht G3 G4.
    apply (brighten_exact (S754_finite false 4503599627370496 (-54)) (literal 75 2)
             4503599627370496 4953959590107546 (2 ^ 50) t); try assumption;
      try closed_good; try reflexivity; try lia.
    + change (2 ^ 50) with 1125899906842624. closed_reals. lra.
    + change (literal 75 2) with (S754_finite false 6755399441055744 (-53)).
      change (_ - 2 ^ 50) with 3377699720527872. closed_reals. lra.
Qed.

(** Dot 2: start 0.5, window ends 0.6, 1.25 and 1.35. *)
Lemma shift_facts_2 :
  shift_facts (literal 5 1) (literal 6 1) (literal 125 2) (literal 135 2)
    (S754_finite false 7205759403792793 (-56))
    (S754_finite false 6755399441055743 (-53))
    (S754_finite false 7656119366529842 (-53)).
Proof.
  change (literal 5 1) with (S754_finite false 4503599627370496 (-53)).
  change (literal 6 1) with (S754_finite false 5404319552844595 (-53)).
  change (literal 125 2) with (S754_finite false 5629499534213120 (-52)).
  change (literal 135 2) with (S754_finite false 6079859496950170 (-52)).
  split.
  - eexists _, _. split; reflexivity.
  - vm_compute. reflexivity.
  - vm_compute. reflexivity.
  - repeat split; reflexivity.
  - change (literal 1 1) with (S754_finite false 7205759403792794 (-56)).
    closed_reals. lra.
  - change (literal 75 2) with (S754_finite false 6755399441055744 (-53)).
    closed_reals. lra.
  - change (literal 85 2) with (S754_finite false 7656119366529843 (-53)).
    closed_reals. lra.
  - intros t Ht G. apply flt_pred in G; [|exact Ht|reflexivity|lia].
    closed_reals. lra.
  - intros t Ht G Hne. apply flt_succ in G; [|exact Ht|reflexivity|lia|exact Hne].
    change (literal 1 1) with (S754_finite false 7205759403792794 (-56)).
    closed_reals. lra.
  - intros t Ht G. apply flt_pred in G; [|exact Ht|reflexivity|lia].
    closed_reals. lra.
  - change (literal 75 2) with (S754_finite false 6755399441055744 (-53)).
    closed_reals. lra.
  - intros t Ht G. apply flt_pred in G; [|exact Ht|reflexivity|lia].
    closed_reals. lra.
  - change (literal 85 2) with (S754_finite false 7656119366529843 (-53)).
    closed_reals. lra.
  - intros t Ht G3 G4.
    apply (brighten_exact (S754_finite false 4503599627370496 (-53)) (literal 75 2)
             5629499534213120 6079859496950170 (2 ^ 51) t); try assumption;
      try closed_good; try reflexivity; try lia.
    + change (2 ^ 51) with 2251799813685248. closed_reals. lra.
    + change (literal 75 2) with (S754_finite false 6755399441055744 (-53)).
      change (_ - 2 ^ 51) with 3377699720527872. closed_reals. lra.
Qed.

Lemma shifted_time_0 t : shifted_time 0 t = t.
Proof.
  unfold shifted_time.
  replace (literal 25 2 ⊗ float_of_int (Z.of_nat 0))%py with (S754_zero false)
    by (vm_compute; reflexivity).
  apply fsub_zero_r.
Qed.

Lemma shift_not_finite s bs t :
  (s = literal 25 2 /\ bs = literal 10 1) \/ (s = literal 5 1 /\ bs = literal 125 2) ->
  match t with S754_zero _ | S754_finite _ _ _ => False | _ => True end ->
  opacity_value s bs t = opacity_value (literal 0 1) (literal 75 2) (fsub t s).
Proof.
  intros [[-> ->] | [-> ->]] Ht; destruct t as [st|[|]| |st mt et]; try contradiction;
    vm_compute; reflexivity.
Qed.

Lemma shift_opacity i t :
  (i < NUM_DOTS)%nat -> valid t = true -> ~ shift_exception i t ->
  get_opacity_at_time i t = get_opacity_at_time 0 (shifted_time i t).
Proof.
  intros Hi Hv Hne.
  destruct i as [|[|[|i]]]; [| | |unfold NUM_DOTS in Hi; lia].
  - rewrite shifted_time_0. reflexivity.
  - unfold shifted_time.
    replace (literal 25 2 ⊗ float_of_int (Z.of_nat 1))%py with (literal 25 2)
      by (vm_compute; reflexivity).
    rewrite (get_opacity_value 1 t (literal 25 2) (literal 10 1)) by reflexivity.
    rewrite (get_opacity_value 0 _ (literal 0 1) (literal 75 2)) by reflexivity.
    f_equal.
    assert (Hhi : t <> literal 35 2).
    { intros ->. apply Hne. split; [lia|vm_compute; reflexivity]. }
    destruct t as [st|[|]| |st mt et].
    + apply (shift_dot _ _ _ _ _ _ _ _ shift_facts_1 Hv I Hhi).
    + apply shift_not_finite; [left; split; reflexivity|exact I].
    + apply shift_not_finite; [left; split; reflexivity|exact I].
    + apply shift_not_finite; [left; split; reflexivity|exact I].
    + apply (shift_dot _ _ _ _ _ _ _ _ shift_facts_1 Hv I Hhi).
  - unfold shifted_time.
    replace (literal 25 2 ⊗ float_of_int (Z.of_nat 2))%py with (literal 5 1)
      by (vm_compute; reflexivity).
    rewrite (get_opacity_value 2 t (literal 5 1) (literal 125 2)) by reflexivity.
    rewrite (get_opacity_value 0 _ (literal 0 1) (literal 75 2)) by reflexivity.
    f_equal.
    assert (Hhi : t <> literal 6 1).
    { intros ->. apply Hne. split; [lia|vm_compute; reflexivity]. }
    destruct t as [st|[|]| |st mt et].
    + apply (shift_dot _ _ _ _ _ _ _ _ shift_facts_2 Hv I Hhi).
    + apply shift_not_finite; [right; split; reflexivity|exact I].
    + apply shift_not_finite; [right; split; reflexivity|exact I].
    + apply shift_not_finite; [right; split; reflexivity|exact I].
    + apply (shift_dot _ _ _ _ _ _ _ _ shift_facts_2 Hv I Hhi).
Qed.

Lemma shift_exception_cases i t :
  shift_exception i t ->
  (i = 1%nat /\ t = literal 35 2) \/ (i = 2%nat /\ t = literal 6 1).
Proof.
  intros [Hi E]. destruct i as [|[|[|i]]]; [lia| | |discriminate].
  - left. split; [reflexivity|]. injection E as <-. vm_compute. reflexivity.
  - right. split; [reflexivity|]. injection E as <-. vm_compute. reflexivity.
Qed.

(** C9, as amended: the timing tables are shifted copies, FADE_START[i] =
    0.25 * i and BRIGHTEN_START[i] - 0.25 * i = 0.75 for every dot i; the
    identity get_opacity_at_time(i, t) = get_opacity_at_time(0, t - 0.25 * i)
    holds for every dot i and every float t except where t is the end
    FADE_START[i] + TRANSITION_TIME of the fade of dot 1 or dot 2 (0.35 and
    0.6); there dot i has opacity 0.5 and dot 0, 0.25 * i earlier, has
    0.5000000000000001; the alpha int(opacity * 255) a dot is drawn with is
    the same on both sides at every t; and among the 45 times the animation
    samples, the opacities differ only for dot 2 at frame 18. *)
Theorem wave_is_time_shifted :
  Forall (fun i => FADE_START !! i = Some (literal 25 2 ⊗ float_of_int (Z.of_nat i))%py /\
                   (fun b => b ⊖ literal 25 2 ⊗ float_of_int (Z.of_nat i))%py
                     <$> BRIGHTEN_START !! i = Some (literal 75 2))
         (seq 0 NUM_DOTS) /\
  (forall i t, (i < NUM_DOTS)%nat -> valid t = true -> ~ shift_exception i t ->
     get_opacity_at_time i t = get_opacity_at_time 0 (shifted_time i t)) /\
  (forall i t, shift_exception i t ->
     get_opacity_at_time i t = Some (S754_finite false 4503599627370496 (-53)) /\
     get_opacity_at_time 0 (shifted_time i t)
     = Some (S754_finite false 4503599627370497 (-53))) /\
  (forall i t, (i < NUM_DOTS)%nat -> valid t = true ->
     alpha_at i t = alpha_at 0 (shifted_time i t)) /\
  shift_mismatches = [(2%nat, 18)].
Proof.
  split; [apply (bool_decide_unpack _); vm_compute; reflexivity|].
  split; [exact shift_opacity|].
  split.
  { intros i t H. destruct (shift_exception_cases i t H) as [[-> ->]|[-> ->]];
      split; vm_compute; reflexivity. }
  split; [|vm_compute; reflexivity].
  intros i t Hi Hv. destruct (decide (shift_exception i t)) as [H|H].
  - destruct (shift_exception_cases i t H) as [[-> ->]|[-> ->]]; vm_compute; reflexivity.
  - unfold alpha_at. rewrite (shift_opacity i t Hi Hv H). reflexivity.
Qed.

Lemma wave_is_time_shifted_witness :
  get_opacity_at_time 1 (literal 3 1)
  = get_opacity_at_time 0 (shifted_time 1 (literal 3 1)) /\
  (get_opacity_at_time 2 (literal 6 1) = Some (S754_finite false 4503599627370496 (-53)) /\
   get_opacity_at_time 0 (shifted_time 2 (literal 6 1))
   = Some (S754_finite false 4503599627370497 (-53))) /\
  alpha_at 2 (literal 6 1) = alpha_at 0 (shifted_time 2 (literal 6 1)).
Proof.
  destruct wave_is_time_shifted as (_ & H2 & H3 & H4 & _).
  split; [|split].
  - apply (H2 1%nat (literal 3 1)).
    + unfold NUM_DOTS. lia.
    + vm_compute. reflexivity.
    + intros [_ E]. vm_compute in E. discriminate.
  - apply (H3 2%nat (literal 6 1)). split; [lia|vm_compute; reflexivity].
  - apply (H4 2%nat (literal 6 1)); [unfold NUM_DOTS; lia|vm_compute; reflexivity].
Defined.

(* ===================================================================== *)
(** * The phases of the wave *)
(* ===================================================================== *)

(** As [order_cases], for comparisons that are hypotheses. *)
Ltac order_hyps t Ht :=
  repeat match goal with
  | H : context [flt t ?c] |- _ => rewrite (flt_key t c Ht eq_refl) in H
  | H : context [fle ?c t] |- _ => rewrite (fle_key c t eq_refl Ht) in H
  | H : context [fle t ?c] |- _ => rewrite (fle_key t c Ht eq_refl) in H
  | H : context [flt ?c t] |- _ => rewrite (flt_key c t eq_refl Ht) in H
  end;
  repeat match goal with
  | H : bool_decide _ = true |- _ => apply bool_decide_eq_true in H
  | H : bool_decide _ = false |- _ => apply bool_decide_eq_false in H
  end;
  repeat match goal with
  | H : context [key_lt t ?c] |- _ =>
      let v := eval vm_compute in c in
      change c with v in H; unfold key_lt in H; cbn [key1 key2 key3] in H
  | H : context [key_le ?c t] |- _ =>
      let v := eval vm_compute in c in
      change c with v in H; unfold key_le in H; cbn [key1 key2 key3] in H
  | H : context [key_le t ?c] |- _ =>
      let v := eval vm_compute in c in
      change c with v in H; unfold key_le in H; cbn [key1 key2 key3] in H
  | H : context [key_lt ?c t] |- _ =>
      let v := eval vm_compute in c in
      change c with v in H; unfold key_lt in H; cbn [key1 key2 key3] in H
  end.

Lemma all_at_minimum i t :
  (i < NUM_DOTS)%nat ->
  (literal 5 1 ⊕ TRANSITION_TIME ⩽ t)%py = true -> (t ⩽ literal 75 2)%py = true ->
  get_opacity_at_time i t = Some (literal 5 1).
Proof.
  intros Hi Hlo Hhi.
  assert (Ht : is_nan t = false) by (apply fle_not_nan in Hlo; apply Hlo).
  order_hyps t Ht.
  unfold get_opacity_at_time, TRANSITION_TIME.
  destruct i as [|[|[|i]]]; [| | |unfold NUM_DOTS in Hi; lia];
    cbn [FADE_START BRIGHTEN_START lookup list_lookup mbind option_bind];
    order_cases t Ht; try reflexivity.
  (* dot 0 at the start of its brightening *)
  assert (t = literal 75 2).
  { destruct t as [st|st| |[|] mt et]; cbn [key1 key2 key3] in *; try (exfalso; lia).
    assert (et = -53) by lia. assert (Zpos mt = 6755399441055744) by lia.
    subst et. replace mt with 6755399441055744%positive by lia. vm_compute. reflexivity. }
  subst t. vm_compute. reflexivity.
Qed.

Lemma full_outside_cycle i t :
  (i < NUM_DOTS)%nat ->
  is_nan t = true \/ (t ⩽ literal 0 1)%py = true \/
  (literal 125 2 ⊕ TRANSITION_TIME ⩽ t)%py = true ->
  get_opacity_at_time i t = Some (literal 10 1).
Proof.
  intros Hi [Hn|H].
  { destruct t; try discriminate.
    destruct i as [|[|[|i]]]; [| | |unfold NUM_DOTS in Hi; lia]; vm_compute; reflexivity. }
  assert (Ht : is_nan t = false).
  { destruct H as [H|H]; apply fle_not_nan in H; apply H. }
  destruct H as [H|H]; order_hyps t Ht;
    unfold get_opacity_at_time, TRANSITION_TIME;
    (destruct i as [|[|[|i]]]; [| | |unfold NUM_DOTS in Hi; lia]);
    cbn [FADE_START BRIGHTEN_START lookup list_lookup mbind option_bind];
    order_cases t Ht; try reflexivity.
  (* dot 0 at time zero *)
  destruct t as [[|]|[|]| |[|] mt et]; try discriminate;
    cbn [key1 key2 key3] in *; try (exfalso; lia);
    vm_compute; reflexivity.
Qed.

Lemma transitions_apart i j t vi vj :
  i <> j ->
  get_opacity_at_time i t = Some vi -> get_opacity_at_time j t = Some vj ->
  vi <> literal 5 1 -> vi <> literal 10 1 ->
  vj = literal 5 1 \/ vj = literal 10 1.
Proof.
  intros Hij Hi Hj.
  assert (Hi3 : (i < NUM_DOTS)%nat).
  { unfold get_opacity_at_time in Hi. destruct (FADE_START !! i) eqn:E; [|discriminate].
    apply lookup_lt_Some in E. exact E. }
  assert (Hj3 : (j < NUM_DOTS)%nat).
  { unfold get_opacity_at_time in Hj. destruct (FADE_START !! j) eqn:E; [|discriminate].
    apply lookup_lt_Some in E. exact E. }
  destruct (is_nan t) eqn:Ht.
  { rewrite (full_outside_cycle i t Hi3 (or_introl Ht)) in Hi. congruence. }
  revert Hi Hj. unfold get_opacity_at_time, TRANSITION_TIME.
  destruct i as [|[|[|i]]]; [| | |unfold NUM_DOTS in Hi3; lia];
  (destruct j as [|[|[|j]]]; [| | |unfold NUM_DOTS in Hj3; lia]);
    try congruence;
    cbn [FADE_START BRIGHTEN_START lookup list_lookup mbind option_bind];
    order_cases t Ht;
    intros [= <-] [= <-] ? ?; try congruence; auto.
Qed.

Lemma opacity_range_any i t v :
  valid t = true -> get_opacity_at_time i t = Some v ->
  (literal 5 1 ⩽ v)%py = true /\ (v ⩽ literal 10 1)%py = true.
Proof.
  intros Hv Hi.
  assert (Hi3 : (i < 3)%nat).
  { unfold get_opacity_at_time in Hi. destruct (FADE_START !! i) eqn:E; [|discriminate].
    apply lookup_lt_Some in E. exact E. }
  destruct (is_nan t) eqn:Ht.
  { rewrite (full_outside_cycle i t Hi3 (or_introl Ht)) in Hi.
    injection Hi as <-. split; vm_compute; reflexivity. }
  destruct (fle (literal 0 1) t) eqn:H0.
  - destruct (opacity_range i t Hi3 Hv H0) as (v' & a & Hget & Hlo & Hhi & _).
    rewrite Hget in Hi. injection Hi as <-. split; assumption.
  - assert (Hneg : (t ⩽ literal 0 1)%py = true).
    { order_hyps t Ht. rewrite (fle_key t (literal 0 1) Ht eq_refl).
      apply bool_decide_eq_true.
      change (literal 0 1) with (S754_zero false). unfold key_le. cbn [key1 key2 key3].
      destruct t as [st|st| |st mt et]; cbn [key1 key2 key3] in *; try discriminate;
        destruct st; lia. }
    rewrite (full_outside_cycle i t Hi3 (or_intror (or_introl Hneg))) in Hi.
    injection Hi as <-. split; vm_compute; reflexivity.
Qed.

(** X4: the wave runs from left to right.  At a time before 0.75 a dot
    further left is never brighter than a dot further right (the dots
    fade left to right), and from 0.75 on it is never dimmer (they
    brighten left to right). *)
Theorem wave_left_to_right i j t vi vj :
  (i < j)%nat -> valid t = true ->
  get_opacity_at_time i t = Some vi -> get_opacity_at_time j t = Some vj ->
  ((t ⋖ literal 75 2)%py = true -> (vi ⩽ vj)%py = true) /\
  ((literal 75 2 ⩽ t)%py = true -> (vj ⩽ vi)%py = true).
Proof.
  intros Hij Hv Hi Hj.
  destruct (opacity_range_any i t vi Hv Hi) as [Ri_lo Ri_hi].
  destruct (opacity_range_any j t vj Hv Hj) as [Rj_lo Rj_hi].
  assert (Hj3 : (j < NUM_DOTS)%nat).
  { unfold get_opacity_at_time in Hj. destruct (FADE_START !! j) eqn:E; [|discriminate].
    apply lookup_lt_Some in E. exact E. }
  split; intros H.
  - assert (Ht : is_nan t = false) by (apply flt_not_nan in H; apply H).
    order_hyps t Ht. revert Hi Hj. unfold get_opacity_at_time, TRANSITION_TIME.
    destruct j as [|[|[|j]]]; [lia| | |unfold NUM_DOTS in Hj3; lia];
    (destruct i as [|[|[|i]]]; try lia);
      cbn [FADE_START BRIGHTEN_START lookup list_lookup mbind option_bind];
      order_cases t Ht;
      intros [= Ei] [= Ej];
      first [ rewrite <- Ej; exact Ri_hi | rewrite <- Ei; exact Rj_lo ].
  - assert (Ht : is_nan t = false) by (apply fle_not_nan in H; apply H).
    order_hyps t Ht. revert Hi Hj. unfold get_opacity_at_time, TRANSITION_TIME.
    destruct j as [|[|[|j]]]; [lia| | |unfold NUM_DOTS in Hj3; lia];
    (destruct i as [|[|[|i]]]; try lia);
      cbn [FADE_START BRIGHTEN_START lookup list_lookup mbind option_bind];
      order_cases t Ht;
      intros [= Ei] [= Ej];
      first [ rewrite <- Ei; exact Rj_hi | rewrite <- Ej; exact Ri_lo ].
Qed.

Lemma wave_left_to_right_witness :
  get_opacity_at_time 0 (literal 3 1) = Some (literal 5 1) /\
  get_opacity_at_time 2 (literal 3 1) = Some (literal 10 1) /\
  (literal 5 1 ⩽ literal 10 1)%py = true.
Proof.
  assert (H0 : get_opacity_at_time 0 (literal 3 1) = Some (literal 5 1))
    by (vm_compute; reflexivity).
  assert (H2 : get_opacity_at_time 2 (literal 3 1) = Some (literal 10 1))
    by (vm_compute; reflexivity).
  split; [exact H0|]. split; [exact H2|].
  destruct (wave_left_to_right 0 2 (literal 3 1) (literal 5 1) (literal 10 1))
    as [H _]; [lia|vm_compute; reflexivity|exact H0|exact H2|].
  apply H. vm_compute. reflexivity.
Defined.

(** X1: outside the wave every dot is at full opacity.  For a time that
    is NaN, or not above zero, or not below BRIGHTEN_START[2] +
    TRANSITION_TIME (in particular from CYCLE_DURATION on, and at both
    infinities), [get_opacity_at_time] returns exactly 1.0 for each of
    the three dots, and the alpha drawn from it is 255. *)
Theorem opacity_full_outside_wave i t :
  (i < NUM_DOTS)%nat ->
  is_nan t = true \/ (t ⩽ literal 0 1)%py = true \/
  (literal 125 2 ⊕ TRANSITION_TIME ⩽ t)%py = true ->
  get_opacity_at_time i t = Some (literal 10 1) /\ alpha_at i t = Some 255.
Proof.
  intros Hi H. pose proof (full_outside_cycle i t Hi H) as E.
  split; [exact E|]. unfold alpha_at. rewrite E. vm_compute. reflexivity.
Qed.

Lemma opacity_full_outside_wave_witness :
  get_opacity_at_time 1 CYCLE_DURATION = Some (literal 10 1) /\
  alpha_at 1 CYCLE_DURATION = Some 255.
Proof.
  apply (opacity_full_outside_wave 1 CYCLE_DURATION); [unfold NUM_DOTS; lia|].
  right. right. vm_compute. reflexivity.
Defined.

(** X2: all dots reach the minimum together.  At every time from the
    end of the last fade, FADE_START[2] + TRANSITION_TIME, up to and
    including the start of the first brightening, BRIGHTEN_START[0] =
    0.75, each of the three dots has opacity exactly 0.5 and is drawn
    with alpha 127. *)
Theorem all_dots_at_minimum i t :
  (i < NUM_DOTS)%nat ->
  (literal 5 1 ⊕ TRANSITION_TIME ⩽ t)%py = true -> (t ⩽ literal 75 2)%py = true ->
  get_opacity_at_time i t = Some (literal 5 1) /\ alpha_at i t = Some 127.
Proof.
  intros Hi Hlo Hhi. pose proof (all_at_minimum i t Hi Hlo Hhi) as E.
  split; [exact E|]. unfold alpha_at. rewrite E. vm_compute. reflexivity.
Qed.

Lemma all_dots_at_minimum_witness :
  get_opacity_at_time 2 (literal 7 1) = Some (literal 5 1) /\
  alpha_at 2 (literal 7 1) = Some 127.
Proof.
  apply (all_dots_at_minimum 2 (literal 7 1));
    [unfold NUM_DOTS; lia | vm_compute; reflexivity | vm_compute; reflexivity].
Defined.

(** X3: the dots change one at a time.  Whenever one dot has an opacity
    other than 0.5 and 1.0, so that it is inside one of its two
    transitions, every other dot has opacity exactly 0.5 or exactly
    1.0. *)
Theorem one_dot_in_transition i j t vi :
  i <> j -> (j < NUM_DOTS)%nat ->
  get_opacity_at_time i t = Some vi -> vi <> literal 5 1 -> vi <> literal 10 1 ->
  get_opacity_at_time j t = Some (literal 5 1) \/
  get_opacity_at_time j t = Some (literal 10 1).
Proof.
  intros Hij Hj Hi H5 H10.
  destruct (get_opacity_at_time j t) as [vj|] eqn:Ej.
  - destruct (transitions_apart i j t vi vj Hij Hi Ej H5 H10) as [-> | ->]; auto.
  - exfalso. unfold get_opacity_at_time in Ej.
    destruct (FADE_START !! j) as [f|] eqn:Ef.
    + destruct (BRIGHTEN_START !! j) as [b|] eqn:Eb; [discriminate|].
      apply lookup_ge_None in Eb. cbn in Eb. unfold NUM_DOTS in Hj. lia.
    + apply lookup_ge_None in Ef. cbn in Ef. unfold NUM_DOTS in Hj. lia.
Qed.

Lemma one_dot_in_transition_witness :
  get_opacity_at_time 0 (literal 5 2) = Some (literal 75 2) /\
  (get_opacity_at_time 1 (literal 5 2) = Some (literal 5 1) \/
   get_opacity_at_time 1 (literal 5 2) = Some (literal 10 1)).
Proof.
  assert (H0 : get_opacity_at_time 0 (literal 5 2) = Some (literal 75 2))
    by (vm_compute; reflexivity).
  split; [exact H0|].
  apply (one_dot_in_transition 0 1 (literal 5 2) (literal 75 2));
    [lia | unfold NUM_DOTS; lia | exact H0
     | intros H; vm_compute in H; discriminate H
     | intros H; vm_compute in H; discriminate H].
Defined.

(* ===================================================================== *)
(** * Runs of the script *)
(* ===================================================================== *)

Lemma files_after_lookup output_path m p :
  files_after output_path m !! p =
    if bool_decide (p ∈ temp_paths) then None
    else if bool_decide (p = output_path)
         then Some (ApngFile ((fun img => (img, 33)) <$> cycle_frames))
         else m !! p.
Proof.
  unfold files_after.
  case_bool_decide as Hp.
  - apply delete_all_lookup_in, Hp.
  - rewrite delete_all_lookup_notin by exact Hp.
    case_bool_decide as Ho.
    + subst p. apply lookup_insert_eq.
    + rewrite lookup_insert_ne by congruence.
      apply write_pngs_lookup_notin. rewrite temp_frames_fst. exact Hp.
Qed.

Lemma generate_apng_files output_path w :
  generate_apng output_path w =
    Ok tt (mkWorld (files_after output_path (files w)) (dirs w)
                   (trace w ++ expected_trace output_path cycle_frames 33)).
Proof. apply generate_apng_run. Qed.

Lemma files_after_twice output_path m :
  files_after output_path (files_after output_path m) = files_after output_path m.
Proof.
  apply map_eq. intros p. rewrite !files_after_lookup.
  destruct (bool_decide (p ∈ temp_paths)); [reflexivity|].
  destruct (bool_decide (p = output_path)); reflexivity.
Qed.


Lemma main_output_file argv w :
  main argv w =
    (_ ← os_makedirs "tmp";
     generate_apng (default "ellipsis_animation.png" (argv !! 1%nat))) w.
Proof.
  unfold main. destruct argv as [|a0 [|a1 argv]]; reflexivity.
Qed.

(** X13: of the command line the script reads only the first argument:
    two command lines with the same sys.argv[1] (or both without one)
    give the same run, whatever sys.argv[0] and the further arguments
    are. *)
Theorem main_reads_one_argument argv argv' w :
  argv !! 1%nat = argv' !! 1%nat -> main argv w = main argv' w.
Proof. intros H. rewrite !main_output_file, H. reflexivity. Qed.

Lemma main_reads_one_argument_witness :
  main ["generate_ellipsis_wave.py"; "dots.png"; "more"] empty_world
  = main ["wave.py"; "dots.png"] empty_world.
Proof.
  apply (main_reads_one_argument ["generate_ellipsis_wave.py"; "dots.png"; "more"]
           ["wave.py"; "dots.png"] empty_world).
  reflexivity.
Defined.


Lemma playback_time_cycle :
  playback_time ((fun img => (img, 33)) <$> cycle_frames) = 1485.
Proof. vm_compute. reflexivity. Qed.



(* ===================================================================== *)
(** * The pixels of a frame *)
(* ===================================================================== *)

Lemma draw_dots_shape t : forall dots img img',
  draw_dots t img dots = Some img' ->
  exists alphas,
    Forall2 (fun i a => alpha_at i t = Some a) dots alphas /\
    img' = mkImage (im_mode img) (im_size img) (im_background img)
             (im_ellipses img ++ zip_with (fun i a => (dot_box i, (0, 0, 0, a))) dots alphas).
Proof.
  induction dots as [|i dots IH]; intros img img' H.
  - cbn in H. injection H as <-. exists []. split; [constructor|].
    cbn. rewrite app_nil_r. destruct img; reflexivity.
  - cbn [draw_dots] in H.
    destruct (draw_dot t img i) as [img1|] eqn:Hd; [|discriminate].
    cbn [mbind option_bind] in H. apply IH in H as (alphas & Ha & ->).
    unfold draw_dot in Hd.
    destruct (get_opacity_at_time i t) as [opacity|] eqn:Ho; [|discriminate].
    cbn [mbind option_bind] in Hd.
    destruct (int_of_float (opacity ⊗ float_of_int 255)%py) as [alpha|] eqn:Hal; [|discriminate].
    cbn [mbind option_bind] in Hd. injection Hd as <-.
    exists (alpha :: alphas). split.
    + constructor; [|exact Ha]. unfold alpha_at. rewrite Ho. exact Hal.
    + cbn [draw_ellipse im_mode im_size im_background im_ellipses zip_with].
      rewrite <- app_assoc. reflexivity.
Qed.

(** A frame is the blank canvas with the three dots, black, each with
    the alpha of its opacity at the time of the frame. *)
Lemma create_frame_shape n img :
  create_frame n = Some img ->
  exists t a0 a1 a2,
    frame_time n = Some t /\
    alpha_at 0 t = Some a0 /\ alpha_at 1 t = Some a1 /\ alpha_at 2 t = Some a2 /\
    img = mkImage "RGBA" (WIDTH, HEIGHT) (0, 0, 0, 0)
            [(dot_box 0, (0, 0, 0, a0)); (dot_box 1, (0, 0, 0, a1));
             (dot_box 2, (0, 0, 0, a2))].
Proof.
  unfold create_frame. intros H.
  destruct (frame_time n) as [t|]; [|discriminate]. cbn [mbind option_bind] in H.
  apply draw_dots_shape in H as (alphas & Ha & ->).
  change (seq 0 NUM_DOTS) with [0; 1; 2]%nat in Ha.
  apply Forall2_cons_inv_l in Ha as (a0 & l0 & H0 & Ha & ->).
  apply Forall2_cons_inv_l in Ha as (a1 & l1 & H1 & Ha & ->).
  apply Forall2_cons_inv_l in Ha as (a2 & l2 & H2 & Ha & ->).
  apply Forall2_nil_inv_l in Ha as ->.
  exists t, a0, a1, a2. repeat (split; [assumption || reflexivity|]). reflexivity.
Qed.

Lemma dots_disjoint i j p :
  in_box (dot_box i) p = true -> in_box (dot_box j) p = true -> i = j.
Proof.
  unfold in_box, dot_box, PADDING, DOT_SIZE, DOT_SPACING. destruct p as [x y]. cbn [fst snd].
  rewrite !andb_true_iff, !Z.leb_le. lia.
Qed.

Lemma center_in_box i : in_box (dot_box i) (box_center (dot_box i)) = true.
Proof.
  unfold in_box, box_center, dot_box, PADDING, DOT_SIZE, DOT_SPACING. cbn [fst snd].
  rewrite !andb_true_iff, !Z.leb_le.
  set (x := 2 + Z.of_nat i * (30 + 26)).
  assert ((x + (x + 30)) / 2 = x + 15) by (symmetry; apply Z.div_unique with (r := 0); lia).
  assert ((2 + (2 + 30)) / 2 = 17) by reflexivity. lia.
Qed.



(** X8: the dots never overlap.  For any two different dot indices, no
    point lies in the bounding boxes of both dots; the box of the next
    dot begins DOT_SPACING pixels to the right of the end of the box of
    a dot. *)
Theorem dots_do_not_overlap i j p :
  i <> j -> in_box (dot_box i) p = true ->
  in_box (dot_box j) p = false /\
  box_x0 (dot_box (S i)) - (box_x0 (dot_box i) + DOT_SIZE) = DOT_SPACING.
Proof.
  intros Hij Hi. split.
  - destruct (in_box (dot_box j) p) eqn:Hj; [|reflexivity].
    exfalso. apply Hij. exact (dots_disjoint i j p Hi Hj).
  - unfold box_x0, dot_box, PADDING, DOT_SIZE, DOT_SPACING. cbn [fst snd]. lia.
Qed.

Lemma dots_do_not_overlap_witness :
  in_box (dot_box 1) (17, 17) = false /\
  box_x0 (dot_box 1) - (box_x0 (dot_box 0) + DOT_SIZE) = DOT_SPACING.
Proof.
  apply (dots_do_not_overlap 0 1 (17, 17)); [lia|reflexivity].
Defined.

(* ===================================================================== *)
(** * The names of the temporary files *)
(* ===================================================================== *)

Lemma string_length_append (s1 s2 : string) :
  String.length (s1 +:+ s2) = (String.length s1 + String.length s2)%nat.
Proof. induction s1 as [|c s1 IH]; simpl; [reflexivity|]. f_equal. exact IH. Qed.

Lemma append_inv_tail (s1 s2 t : string) : s1 +:+ t = s2 +:+ t -> s1 = s2.
Proof.
  revert s2. induction s1 as [|c s1 IH]; intros [|d s2] H.
  - reflexivity.
  - apply (f_equal String.length) in H. rewrite !string_length_append in H. simpl in H. lia.
  - apply (f_equal String.length) in H. rewrite !string_length_append in H. simpl in H. lia.
  - simpl in H. injection H as -> H. f_equal. apply IH, H.
Qed.

Lemma zero_fill_add a b s : zero_fill (a + b) s = zero_fill a (zero_fill b s).
Proof. induction a as [|a IH]; simpl; [reflexivity|]. f_equal. exact IH. Qed.

Lemma zero_fill_inj k s1 s2 : zero_fill k s1 = zero_fill k s2 -> s1 = s2.
Proof. induction k as [|k IH]; simpl; [auto|]. intros [= H]. apply IH, H. Qed.


Lemma pretty_N_go_head x : forall s,
  (0 < x)%N ->
  exists c rest, pretty_N_go x s = String c rest /\ c <> "0"%char /\ c <> "-"%char.
Proof.
  induction (N.lt_wf_0 x) as [x _ IH]. intros s Hx.
  rewrite pretty_N_go_step by exact Hx.
  destruct (decide (x `div` 10 = 0)%N) as [E|E].
  - rewrite E, pretty_N_go_0.
    assert (Hlt : (x < 10)%N) by (apply (proj1 (N.div_small_iff x 10 ltac:(lia))), E).
    rewrite N.mod_small by exact Hlt.
    eexists _, _. split; [reflexivity|].
    assert (x = 1 \/ x = 2 \/ x = 3 \/ x = 4 \/ x = 5 \/ x = 6
            \/ x = 7 \/ x = 8 \/ x = 9)%N as Hc by lia.
    destruct Hc as [->|[->|[->|[->|[->|[->|[->|[->| ->]]]]]]]]; split; discriminate.
  - apply IH; [apply N.div_lt; [exact Hx|reflexivity]|apply N.neq_0_lt_0, E].
Qed.

Lemma pretty_numeral (n : Z) : 0 <= n -> numeral (pretty n).
Proof.
  intros Hn. destruct n as [|p|p]; [cbn; split; [discriminate|reflexivity]| |lia].
  unfold pretty, pretty_Z, pretty, pretty_positive, pretty, pretty_N.
  destruct (decide (N.pos p = 0%N)) as [|_]; [discriminate|].
  destruct (pretty_N_go_head (N.pos p) "" ltac:(lia)) as (c & rest & -> & H0 & Hd).
  split; [exact Hd|]. intros ->. contradiction.
Qed.

(** Padding numerals with zeros to a width keeps them apart. *)
Lemma zero_fill_numeral_inj W s1 s2 :
  numeral s1 -> numeral s2 ->
  zero_fill (W - String.length s1) s1 = zero_fill (W - String.length s2) s2 -> s1 = s2.
Proof.
  assert (Hle : forall k1 k2 s1 s2, (k1 <= k2)%nat -> numeral s1 -> numeral s2 ->
            zero_fill k1 s1 = zero_fill k2 s2 -> s1 = s2).
  { intros k1 k2 t1 t2 Hk H1 H2 E.
    replace k2 with (k1 + (k2 - k1))%nat in E by lia.
    rewrite zero_fill_add in E. apply zero_fill_inj in E.
    destruct (k2 - k1)%nat as [|d] eqn:Ed; [exact E|].
    exfalso. simpl in E. subst t1. destruct H1 as [_ H1]. specialize (H1 eq_refl).
    destruct d.
    - destruct t2 as [|c r]; [destruct H2|discriminate H1].
    - discriminate H1. }
  intros H1 H2 E.
  destruct (Nat.le_ge_cases (W - String.length s1) (W - String.length s2)) as [Hk|Hk].
  - exact (Hle _ _ _ _ Hk H1 H2 E).
  - symmetry. exact (Hle _ _ _ _ Hk H2 H1 (eq_sym E)).
Qed.

Lemma zero_fill_head k s :
  numeral s -> exists c rest, zero_fill k s = String c rest /\ c <> "-"%char.
Proof.
  intros Hs. destruct k as [|k].
  - destruct s as [|c rest]; [destruct Hs|]. exists c, rest. split; [reflexivity|apply Hs].
  - cbn. eexists _, _. split; [reflexivity|discriminate].
Qed.

Lemma format_04d_inj i j : format_04d i = format_04d j -> i = j.
Proof.
  unfold format_04d. intros H.
  destruct (Z.ltb_spec i 0) as [Hi|Hi]; destruct (Z.ltb_spec j 0) as [Hj|Hj].
  - cbn in H. injection H as H.
    apply zero_fill_numeral_inj in H; try (apply pretty_numeral; lia).
    apply (inj pretty) in H. lia.
  - exfalso. destruct (zero_fill_head (4 - String.length (pretty j)) (pretty j)
                         (pretty_numeral j Hj)) as (c & rest & E & Hc).
    rewrite E in H. cbn in H. injection H as H _. congruence.
  - exfalso. destruct (zero_fill_head (4 - String.length (pretty i)) (pretty i)
                         (pretty_numeral i Hi)) as (c & rest & E & Hc).
    rewrite E in H. cbn in H. injection H as H _. congruence.
  - apply zero_fill_numeral_inj in H; try (apply pretty_numeral; lia).
    apply (inj pretty) in H. exact H.
Qed.

Lemma temp_path_of_inj i j : temp_path_of i = temp_path_of j -> i = j.
Proof.
  unfold temp_path_of. intros H. apply (inj (String.append _)) in H.
  apply append_inv_tail in H. apply format_04d_inj, H.
Qed.

(** X10: the names of the temporary files never collide.  Different
    frame numbers, of any size and sign, get different temporary paths,
    so that for any number of frames the paths tmp\frame_NNNN.png of a
    run are pairwise different. *)
Theorem temp_paths_never_collide :
  (forall i j, i <> j -> temp_path_of i <> temp_path_of j) /\
  (forall n, NoDup (temp_path_of <$> range n)).
Proof.
  split.
  - intros i j Hij H. apply Hij, temp_path_of_inj, H.
  - intros n. unfold range. apply NoDup_fmap_2; [intros i j; apply temp_path_of_inj|].
    apply NoDup_fmap_2; [intros i j; lia|]. apply NoDup_seq.
Qed.

Lemma temp_paths_never_collide_witness : temp_path_of 7 <> temp_path_of 123456.
Proof. apply (proj1 temp_paths_never_collide). lia. Defined.

(* ===================================================================== *)
(** * Frame numbers outside the cycle *)
(* ===================================================================== *)

(** The quotient of two positive integers. *)
Lemma fdiv_raw_bounds mx my L H :
  good L -> good H ->
  (F2R L <= IZR (Zpos mx) / IZR (Zpos my) <= F2R H)%R ->
  good (fdiv (raw (Zpos mx)) (raw (Zpos my))) /\
  (F2R L <= F2R (fdiv (raw (Zpos mx)) (raw (Zpos my))) <= F2R H)%R.
Proof.
  intros HL HH Hv. unfold fdiv, SFdiv, raw. rewrite SFdiv_core_binary_spec. cbn [xorb].
  set (e' := Z.min (fexp53 (Zdigits2 (Zpos mx) + 0 - (Zdigits2 (Zpos my) + 0))) (0 - 0)).
  set (s := 0 - 0 - e').
  assert (Hs : 0 <= s) by (unfold s, e'; lia).
  pose proof (pow2_pos s Hs) as Hps.
  apply round_aux_bounds; try assumption; try lia.
  - pose proof (div_digits mx my s Hs) as Hd.
    assert (Hle : e' <= fexp53 (Zdigits2 (Zpos mx) + 0 - (Zdigits2 (Zpos my) + 0)))
      by (unfold e'; lia).
    etransitivity; [exact Hle|]. apply fexp53_mono. unfold s in *. lia.
  - replace (IZR (Zpos mx * 2 ^ s) / IZR (Zpos my) * bpow e')%R
      with (IZR (Zpos mx) / IZR (Zpos my))%R; [exact Hv|].
    rewrite mult_IZR, IZR_pow2 by lia.
    assert (E : (bpow s * bpow e' = 1)%R).
    { rewrite <- bpow_add. replace (s + e') with 0 by (unfold s; lia). apply bpow_0. }
    assert (0 < IZR (Zpos my))%R by (apply IZR_lt; lia).
    field_simplify_eq; [|lra]. rewrite Rmult_assoc, E. ring.
Qed.

Lemma fdiv_raw_neg mx my :
  fdiv (raw (Zneg mx)) (raw (Zpos my)) = SFopp (fdiv (raw (Zpos mx)) (raw (Zpos my))).
Proof.
  unfold fdiv, SFdiv, raw. cbn [xorb].
  destruct (SFdiv_core_binary prec emax (Zpos mx) 0 (Zpos my) 0) as [[mz ez] lz].
  apply binary_round_aux_sign.
Qed.

Lemma fadd_neg_l mm em mw ew :
  fadd (S754_finite true mm em) (S754_finite false mw ew)
  = fsub (S754_finite false mw ew) (S754_finite false mm em).
Proof.
  unfold fadd, fsub, SFadd, SFsub. cbn [cond_Zopp].
  rewrite (Z.min_comm ew em). reflexivity.
Qed.

(** The remainder of a positive float by CYCLE_DURATION is exact. *)
Lemma fmod_cycle mx ex :
  valid (S754_finite false mx ex) = true ->
  exists R e,
    0 <= R /\
    (forall sx, fmod (S754_finite sx mx ex) CYCLE_DURATION
                = binary_normalize prec emax (cond_Zopp sx R) e sx) /\
    good (binary_normalize prec emax R e false) /\
    F2R (binary_normalize prec emax R e false) = (IZR R * bpow e)%R /\
    (IZR R * bpow e < 3 / 2)%R /\
    (0 < R -> (bpow (-52) <= IZR R * bpow e)%R \/
              (IZR R * bpow e = IZR (Zpos mx) * bpow ex)%R).
Proof.
  intros Hv. pose proof (valid_finite_bounds _ _ _ Hv) as (He & Hm & _).
  change CYCLE_DURATION with (S754_finite false 6755399441055744 (-52)).
  set (e := Z.min ex (-52)).
  set (X := Zpos mx * 2 ^ (ex - e)).
  set (Y := 6755399441055744 * 2 ^ (-52 - e)).
  assert (HX : 0 < X) by (unfold X; pose proof (pow2_pos (ex - e) ltac:(unfold e; lia)); nia).
  assert (HY : 0 < Y) by (unfold Y; pose proof (pow2_pos (-52 - e) ltac:(unfold e; lia)); nia).
  exists (Z.rem X Y), e.
  rewrite Z.rem_mod_nonneg by lia.
  pose proof (Z.mod_pos_bound X Y HY) as HR.
  assert (HR53 : X mod Y < 2 ^ 53).
  { destruct (Z_le_gt_dec (-52) ex) as [Hc|Hc].
    - assert (EY : Y = 6755399441055744).
      { unfold Y. replace (-52 - e) with 0 by (unfold e; lia). reflexivity. }
      change (2 ^ 53) with 9007199254740992. clearbody X Y.
      set (r := X mod Y) in *. lia.
    - assert (EX : X = Zpos mx).
      { unfold X. replace (ex - e) with 0 by (unfold e; lia). lia. }
      rewrite EX. pose proof (Z.mod_le (Zpos mx) Y ltac:(lia) HY) as Hle.
      clearbody X Y. set (r := Zpos mx mod Y) in *. lia. }
  destruct (binary_normalize_exact (X mod Y) e ltac:(lia) ltac:(unfold e; lia)) as [Hg Hval].
  assert (HYv : (IZR Y * bpow e = 3 / 2)%R).
  { unfold Y. rewrite mult_IZR, IZR_pow2 by (unfold e; lia).
    rewrite Rmult_assoc, <- bpow_add. replace (-52 - e + e) with (-52) by lia.
    rewrite (bpow_neg_frac 52 4503599627370496 eq_refl). lra. }
  split; [lia|]. split; [|split; [exact Hg|split; [exact Hval|split]]].
  - intros sx. unfold fmod. fold e. fold X. fold Y. rewrite Z.rem_mod_nonneg by lia.
    reflexivity.
  - pose proof (bpow_pos e). assert (IZR (X mod Y) < IZR Y)%R by (apply IZR_lt; lia). nra.
  - intros HRpos. destruct (Z_le_gt_dec (-52) ex) as [Hc|Hc].
    + left. replace e with (-52) by (unfold e; lia).
      pose proof (bpow_pos (-52)). assert (1 <= IZR (X mod Y))%R by (apply IZR_le; lia). nra.
    + right. assert (Ee : e = ex) by (unfold e; lia).
      assert (EX : X = Zpos mx).
      { unfold X. replace (ex - e) with 0 by lia. lia. }
      rewrite EX, Ee. rewrite Z.mod_small; [reflexivity|].
      unfold Y. rewrite Ee. pose proof (pow2_pos (-52 - ex - 1) ltac:(lia)).
      replace (-52 - ex) with (1 + (-52 - ex - 1)) by lia.
      rewrite Z.pow_add_r by lia. change (2 ^ 1) with 2.
      change (2 ^ 53) with 9007199254740992 in Hm. nia.
Qed.

Lemma good_CYCLE_DURATION : good CYCLE_DURATION.
Proof. apply good_closed. vm_compute. reflexivity. Qed.

Lemma F2R_CYCLE_DURATION : F2R CYCLE_DURATION = (3 / 2)%R.
Proof.
  change CYCLE_DURATION with (S754_finite false 6755399441055744 (-52)).
  rewrite (F2R_frac _ 52 4503599627370496 eq_refl). lra.
Qed.


Lemma in_cycle_intro t : good t -> (F2R t < 3 / 2)%R -> in_cycle t.
Proof.
  intros Ht Hlt. split; [apply Ht|]. split.
  - apply fle_F2R; [split; reflexivity|exact Ht|]. cbn [F2R]. apply F2R_nonneg, Ht.
  - apply flt_F2R; [exact Ht|exact good_CYCLE_DURATION|]. rewrite F2R_CYCLE_DURATION. exact Hlt.
Qed.

(** The remainder of a float that is not negative. *)
Lemma float_rem_nonneg q :
  good q -> exists t, float_rem q CYCLE_DURATION = Some t /\ in_cycle t.
Proof.
  intros Hq. destruct (good_cases q Hq) as [[s ->]|(mx & ex & -> & Hv)].
  - exists (S754_zero false). split; [destruct s; reflexivity|].
    apply in_cycle_intro; [split; reflexivity|cbn [F2R]; lra].
  - destruct (fmod_cycle mx ex Hv) as (R & e & HR & Hf & Hg & Hval & Hlt & _).
    unfold float_rem. change (is_zero CYCLE_DURATION) with false. cbv iota.
    rewrite (Hf false). cbn [cond_Zopp].
    set (m := binary_normalize prec emax R e false) in *.
    destruct (is_zero m) eqn:Ez.
    + exists (S754_zero false). split; [reflexivity|].
      apply in_cycle_intro; [split; reflexivity|cbn [F2R]; lra].
    + change (CYCLE_DURATION ⋖ S754_zero false)%py with false.
      rewrite (flt_zero_good m Hg). cbn [xorb].
      exists m. split; [reflexivity|]. apply in_cycle_intro; [exact Hg|].
      rewrite Hval. exact Hlt.
Qed.

(** The remainder of a negative float that is not tiny. *)
Lemma float_rem_neg mx ex :
  valid (S754_finite false mx ex) = true ->
  (bpow (-52) <= F2R (S754_finite false mx ex))%R ->
  exists t, float_rem (S754_finite true mx ex) CYCLE_DURATION = Some t /\ in_cycle t.
Proof.
  intros Hv Hlow.
  destruct (fmod_cycle mx ex Hv) as (R & e & HR & Hf & Hg & Hval & Hlt & Hmin).
  unfold float_rem. change (is_zero CYCLE_DURATION) with false. cbv iota.
  rewrite (Hf true). cbn [cond_Zopp].
  destruct R as [|r|r]; [| |lia].
  - exists (S754_zero false). split; [reflexivity|].
    apply in_cycle_intro; [split; reflexivity|cbn [F2R]; lra].
  - change (binary_normalize prec emax (- Zpos r) e true)
      with (binary_round prec emax true r e).
    rewrite binary_round_sign.
    change (binary_round prec emax false r e)
      with (binary_normalize prec emax (Zpos r) e false).
    set (m := binary_normalize prec emax (Zpos r) e false) in *.
    assert (Hpos : (0 < F2R m)%R).
    { rewrite Hval. pose proof (bpow_pos e).
      assert (0 < IZR (Zpos r))%R by (apply IZR_lt; lia). nra. }
    destruct (good_positive m Hg Hpos) as (mm & em & Em). rewrite Em.
    cbn [SFopp negb is_zero].
    change (CYCLE_DURATION ⋖ S754_zero false)%py with false.
    change (S754_finite true mm em ⋖ S754_zero false)%py with true. cbn [xorb].
    change CYCLE_DURATION with (S754_finite false 6755399441055744 (-52)).
    rewrite fadd_neg_l. rewrite <- Em.
    change (S754_finite false 6755399441055744 (-52)) with CYCLE_DURATION.
    assert (Hge : (bpow (-52) <= F2R m)%R).
    { rewrite Hval. destruct (Hmin ltac:(lia)) as [H|H]; [exact H|].
      rewrite H. exact Hlow. }
    destruct (fsub_bounds CYCLE_DURATION m (S754_zero false)
                (S754_finite false 6755399441055743 (-52))
                good_CYCLE_DURATION Hg ltac:(split; reflexivity)
                ltac:(apply good_closed; vm_compute; reflexivity)) as [Hgt [_ Hup]].
    { rewrite F2R_CYCLE_DURATION. change (F2R (S754_zero false)) with 0%R.
      rewrite (F2R_frac _ 52 4503599627370496 eq_refl).
      rewrite (bpow_neg_frac 52 4503599627370496 eq_refl) in Hge.
      rewrite Hval in *. lra. }
    eexists. split; [reflexivity|]. apply in_cycle_intro; [exact Hgt|].
    rewrite (F2R_frac _ 52 4503599627370496 eq_refl) in Hup. lra.
Qed.

Lemma F2R_max_float :
  F2R (S754_finite false 9007199254740991 971) = IZR (9007199254740991 * 2 ^ 971).
Proof. cbn [F2R cond_Zopp]. rewrite mult_IZR, IZR_pow2 by lia. reflexivity. Qed.

Lemma quotient_below_max p :
  Zpos p <= 2 ^ 1024 ->
  (IZR (Zpos p) / IZR (Zpos 30) <= F2R (S754_finite false 9007199254740991 971))%R.
Proof.
  intros Hp. rewrite F2R_max_float.
  assert (HK : 2 ^ 1024 <= 30 * (9007199254740991 * 2 ^ 971)).
  { apply Z.leb_le. vm_compute. reflexivity. }
  assert (H1 : (IZR (Zpos p) <= 30 * IZR (9007199254740991 * 2 ^ 971))%R).
  { rewrite <- mult_IZR. apply IZR_le. etransitivity; [exact Hp|exact HK]. }
  set (a := IZR (Zpos p)) in *. set (b := IZR (9007199254740991 * 2 ^ 971)) in *.
  change (IZR (Zpos 30)) with 30%R. lra.
Qed.

Lemma frame_time_in_cycle n :
  Z.abs n <= 2 ^ 1024 -> exists t, frame_time n = Some t /\ in_cycle t.
Proof.
  intros Hn. unfold frame_time, int_true_div. change (FPS =? 0) with false. cbv iota.
  change FPS with (Zpos 30).
  assert (Hmax : good (S754_finite false 9007199254740991 971))
    by (apply good_closed; vm_compute; reflexivity).
  destruct n as [|p|p].
  - change (fdiv (raw 0) (raw (Zpos 30))) with (S754_zero false).
    cbn [mbind option_bind]. apply float_rem_nonneg. split; reflexivity.
  - destruct (fdiv_raw_bounds p 30 (S754_zero false) _ ltac:(split; reflexivity) Hmax)
      as [Hq _].
    { split; [|apply quotient_below_max; lia].
      change (F2R (S754_zero false)) with 0%R.
      assert (0 < IZR (Zpos p))%R by (apply IZR_lt; lia).
      change (IZR (Zpos 30)) with 30%R. apply Rlt_le, Rdiv_lt_0_compat; lra. }
    set (q := fdiv (raw (Zpos p)) (raw (Zpos 30))) in *.
    destruct (good_cases q Hq) as [[s Eq]|(mx & ex & Eq & _)]; rewrite Eq in *;
      cbn [mbind option_bind]; apply float_rem_nonneg; exact Hq.
  - rewrite fdiv_raw_neg.
    destruct (fdiv_raw_bounds p 30 (S754_finite false 4503599627370496 (-57)) _
                ltac:(apply good_closed; vm_compute; reflexivity) Hmax) as [Hq [Hlo _]].
    { split; [|apply quotient_below_max; lia].
      rewrite (F2R_frac _ 57 144115188075855872 eq_refl).
      assert (1 <= IZR (Zpos p))%R by (apply IZR_le; lia).
      change (IZR (Zpos 30)) with 30%R. lra. }
    set (q := fdiv (raw (Zpos p)) (raw (Zpos 30))) in *.
    rewrite (F2R_frac _ 57 144115188075855872 eq_refl) in Hlo.
    assert (Hpos : (0 < F2R q)%R) by lra.
    destruct (good_positive q Hq Hpos) as (mx & ex & Eq). rewrite Eq in *.
    cbn [SFopp negb mbind option_bind].
    apply float_rem_neg; [apply Hq|].
    rewrite (bpow_neg_frac 52 4503599627370496 eq_refl). lra.
Qed.

Lemma create_frame_in_cycle n :
  Z.abs n <= 2 ^ 1024 ->
  exists t img,
    frame_time n = Some t /\ in_cycle t /\
    create_frame n = Some img /\ alphas_in_range img.
Proof.
  intros Hn. destruct (frame_time_in_cycle n Hn) as (t & Ht & Hc).
  destruct Hc as (Hv & H0 & Hlt).
  destruct (create_frame_alphas n t Ht Hv H0) as (img & Himg & Ha).
  exists t, img. repeat split; assumption.
Qed.

Lemma frame_time_overflow : frame_time (2 ^ 1030) = None /\ create_frame (2 ^ 1030) = None.
Proof. split; vm_compute; reflexivity. Qed.

(** X7: [create_frame] accepts every frame number, not only those of
    the cycle.  For an integer n of magnitude up to 2^1024, negative
    ones included, the time (n / FPS) % CYCLE_DURATION it samples is a
    float t with 0 <= t < CYCLE_DURATION, and the frame is rendered with
    every dot black at an alpha between 127 and 255.  A frame number
    whose quotient by FPS overflows the floats makes it raise
    (2^1030 does). *)
Theorem create_frame_any_frame :
  (forall n, Z.abs n <= 2 ^ 1024 ->
     exists t img,
       frame_time n = Some t /\
       valid t = true /\ (literal 0 1 ⩽ t)%py = true /\ (t ⋖ CYCLE_DURATION)%py = true /\
       create_frame n = Some img /\ alphas_in_range img) /\
  frame_time (2 ^ 1030) = None /\ create_frame (2 ^ 1030) = None.
Proof.
  split; [|exact frame_time_overflow].
  intros n Hn. destruct (create_frame_in_cycle n Hn) as (t & img & Ht & (Hv & H0 & Hlt) & Hc & Ha).
  exists t, img. repeat split; assumption.
Qed.

Lemma create_frame_any_frame_witness :
  exists t img,
    frame_time (-7) = Some t /\
    valid t = true /\ (literal 0 1 ⩽ t)%py = true /\ (t ⋖ CYCLE_DURATION)%py = true /\
    create_frame (-7) = Some img /\ alphas_in_range img.
Proof.
  apply (proj1 create_frame_any_frame (-7)).
  apply Z.leb_le. vm_compute. reflexivity.
Defined.

(* ===================================================================== *)
(** * The transitions are monotone *)
(* ===================================================================== *)

(** ** Rounding is monotone *)

Lemma rne_cases N D :
  0 <= N -> 0 < D ->
  let m := round_nearest_even (shr_m (rec_of N D)) (loc_of_shr_record (rec_of N D)) in
  (2 * (N mod D) < D -> m = N / D) /\
  (D < 2 * (N mod D) -> m = N / D + 1) /\
  (2 * (N mod D) = D -> (m = N / D \/ m = N / D + 1) /\ Z.even m = true).
Proof.
  intros HN HD. unfold rec_of, loc_of_shr_record, round_nearest_even. cbn [shr_m].
  pose proof (Z.mod_pos_bound N D HD) as Hr.
  destruct (Z.leb_spec D (2 * (N mod D))), (Z.eqb_spec (N mod D) 0),
    (Z.eqb_spec (2 * (N mod D)) D); cbn;
    try (destruct (Z.even (N / D)) eqn:Ev);
    repeat split; intros; try lia; auto.
  replace (N / D + 1) with (Z.succ (N / D)) by lia.
  rewrite Z.even_succ, <- Z.negb_even, Ev. reflexivity.
Qed.

(** What the rounding of N / D * 2^ex is made of: the quotient [q] and
    the remainder [rm] on the grid of the exponent [E] of the result,
    the rounded mantissa [m1], and the gap of that grid, which holds no
    float. *)
Lemma round_data N D ex :
  0 <= N -> 0 < D -> ex <= fexp53 (Zdigits2 (N / D) + ex) ->
  good (binary_round_aux prec emax false (N / D) ex (loc_of (N mod D) D)) ->
  exists q rm D' E m1,
    0 <= q /\ 0 < D' /\ 0 <= rm < D' /\
    (IZR N / IZR D * bpow ex = (IZR q + IZR rm / IZR D') * bpow E)%R /\
    F2R (binary_round_aux prec emax false (N / D) ex (loc_of (N mod D) D))
    = (IZR m1 * bpow E)%R /\
    (2 * rm < D' -> m1 = q) /\ (D' < 2 * rm -> m1 = q + 1) /\
    (2 * rm = D' -> (m1 = q \/ m1 = q + 1) /\ Z.even m1 = true) /\
    (forall f, good f ->
       (F2R f <= IZR q * bpow E)%R \/ (IZR (q + 1) * bpow E <= F2R f)%R) /\
    (2 ^ 52 <= m1 \/ E = -1074).
Proof.
  intros HN HD Hex Hg.
  set (k := fexp53 (Zdigits2 (N / D) + ex) - ex).
  assert (Hk : 0 <= k) by (unfold k; lia).
  pose proof (pow2_pos k Hk) as Hpk.
  set (D' := D * 2 ^ k). assert (HD' : 0 < D') by (unfold D'; nia).
  exists (N / D'), (N mod D'), D', (ex + k),
    (round_nearest_even (shr_m (rec_of N D')) (loc_of_shr_record (rec_of N D'))).
  pose proof (Z.mod_pos_bound N D' HD') as Hrm.
  destruct (rne_cases N D' HN HD') as (C1 & C2 & C3).
  destruct (first_shift_size N D ex HN HD Hk) as [HA HB]. fold k D' in HA, HB.
  assert (Hq : 0 <= N / D') by (apply Z.div_pos; lia).
  split; [exact Hq|]. split; [exact HD'|]. split; [exact Hrm|].
  split; [|split; [|split; [exact C1|split; [exact C2|split; [exact C3|split]]]]].
  - pose proof (Z.div_mod N D' ltac:(lia)) as Hdm.
    apply (f_equal IZR) in Hdm. rewrite plus_IZR, mult_IZR in Hdm.
    assert (HDr : IZR D' = (IZR D * bpow k)%R).
    { unfold D'. rewrite mult_IZR, IZR_pow2 by lia. reflexivity. }
    rewrite HDr in *. rewrite bpow_add, Hdm.
    assert (0 < IZR D)%R by (apply IZR_lt; lia). pose proof (bpow_pos k).
    pose proof (bpow_pos ex). field. split; lra.
  - destruct (round_aux_value N D ex HN HD Hk) as [[Hinf _]|[_ Hv]].
    + rewrite Hinf in Hg. destruct Hg as [_ Hn]. discriminate.
    + exact Hv.
  - intros f Hf. pose proof (bpow_pos (ex + k)) as HbE.
    destruct (good_cases f Hf) as [[s ->]|(mf & ef & -> & Hvf)].
    + left. cbn [F2R]. assert (0 <= IZR (N / D'))%R by (apply IZR_le; lia). nra.
    + pose proof (valid_finite_bounds _ _ _ Hvf) as (Hef & Hmf & _).
      cbn [F2R cond_Zopp].
      destruct (Z_le_gt_dec (ex + k) ef) as [C|C].
      * rewrite <- (IZR_grid (Zpos mf) ef (ex + k) C).
        destruct (Z_le_gt_dec (Zpos mf * 2 ^ (ef - (ex + k))) (N / D')) as [G|G].
        -- left. apply Rmult_le_compat_r; [lra|]. apply IZR_le. exact G.
        -- right. apply Rmult_le_compat_r; [lra|]. apply IZR_le. lia.
      * left. assert (C' : -1074 <= Zdigits2 (N / D) + ex - 53) by (unfold k, fexp53 in *; lia).
        specialize (HA C').
        assert (IZR (Zpos mf) < bpow 53)%R.
        { rewrite <- IZR_pow2 by lia. apply IZR_lt. lia. }
        assert (bpow 52 <= IZR (N / D'))%R.
        { rewrite <- IZR_pow2 by lia. apply IZR_le. lia. }
        set (e' := ex + k) in *.
        pose proof (bpow_pos ef).
        pose proof (bpow_le (53 + ef) (52 + e') ltac:(lia)) as Hb.
        rewrite !bpow_add in Hb. nra.
  - destruct (binary_round_aux_shape N D ex HN HD Hk) as (_ & HA1 & _ & _).
    fold k D' in HA1.
    destruct (Z_le_gt_dec (-1074) (Zdigits2 (N / D) + ex - 53)) as [C|C].
    + left. exact (HA1 C).
    + right. unfold k, fexp53. lia.
Qed.

(** The rounded value in real terms: it is the grid point below the
    exact value or the one above, and the nearer of the two. *)
Lemma round_data_real q rm D' E m1 :
  0 <= q -> 0 < D' -> 0 <= rm < D' ->
  (2 * rm < D' -> m1 = q) -> (D' < 2 * rm -> m1 = q + 1) ->
  (2 * rm = D' -> (m1 = q \/ m1 = q + 1) /\ Z.even m1 = true) ->
  let a := bpow E in
  let X := (IZR q * a)%R in
  let F := (IZR rm / IZR D' * a)%R in
  (0 < a)%R /\ (0 <= X)%R /\ (0 <= F < a)%R /\
  ((IZR q + IZR rm / IZR D') * bpow E = X + F)%R /\
  (IZR (q + 1) * a = X + a)%R /\
  ((m1 = q /\ (IZR m1 * a = X)%R /\ (F <= a / 2)%R) \/
   (m1 = q + 1 /\ (IZR m1 * a = X + a)%R /\ (a / 2 <= F)%R)) /\
  ((F = a / 2)%R -> 2 * rm = D').
Proof.
  intros Hq HD' Hrm C1 C2 C3 a X F.
  assert (Ha : (0 < a)%R) by apply bpow_pos.
  assert (Hd : (0 < IZR D')%R) by (apply IZR_lt; lia).
  assert (Hr0 : (0 <= IZR rm)%R) by (apply IZR_le; lia).
  assert (Hr1 : (IZR rm < IZR D')%R) by (apply IZR_lt; lia).
  set (f := (IZR rm / IZR D')%R).
  assert (Ef : (f * IZR D' = IZR rm)%R) by (unfold f; field; lra).
  assert (Hf : (0 <= f < 1)%R) by (split; nra).
  assert (HX : (0 <= X)%R).
  { unfold X. assert (0 <= IZR q)%R by (apply IZR_le; lia). nra. }
  assert (HS : (IZR (q + 1) * a = X + a)%R) by (unfold X; rewrite plus_IZR; ring).
  split; [exact Ha|]. split; [exact HX|]. split; [unfold F; fold f; nra|].
  split; [unfold X, F, a, f; ring|]. split; [exact HS|]. split.
  - destruct (Z.lt_trichotomy (2 * rm) D') as [L|[L|L]].
    + left. split; [exact (C1 L)|]. rewrite (C1 L). split; [reflexivity|].
      assert (2 * IZR rm < IZR D')%R by (rewrite <- mult_IZR; apply IZR_lt; lia).
      assert (f <= 1 / 2)%R by nra. unfold F. fold f. nra.
    + assert (2 * IZR rm = IZR D')%R by (rewrite <- mult_IZR; f_equal; lia).
      assert (f = 1 / 2)%R by nra.
      destruct (C3 L) as [[M|M] _]; [left|right]; (split; [exact M|]); rewrite M.
      * split; [reflexivity|]. unfold F. fold f. nra.
      * split; [exact HS|]. unfold F. fold f. nra.
    + right. split; [exact (C2 L)|]. rewrite (C2 L). split; [exact HS|].
      assert (IZR D' < 2 * IZR rm)%R by (rewrite <- mult_IZR; apply IZR_lt; lia).
      assert (1 / 2 <= f)%R by nra. unfold F. fold f. nra.
  - intros EF. unfold F in EF. fold f in EF.
    assert (f = 1 / 2)%R by nra.
    apply eq_IZR. rewrite mult_IZR. nra.
Qed.

Lemma rounds_to_mono v1 v2 r1 r2 :
  rounds_to v1 r1 -> rounds_to v2 r2 -> good r1 -> good r2 ->
  (v1 <= v2)%R -> (F2R r1 <= F2R r2)%R.
Proof.
  intros [[_ [s1 ->]]|(N1 & D1 & ex1 & HN1 & HD1 & Hex1 & Ev1 & Er1)] R2 Hg1 Hg2 Hle.
  { cbn [F2R]. apply F2R_nonneg, Hg2. }
  rewrite Er1 in Hg1.
  destruct (round_data N1 D1 ex1 HN1 HD1 Hex1 Hg1)
    as (q1 & rm1 & D1' & E1 & m1 & Hq1 & HD1' & Hrm1 & Hv1 & HF1 & A1 & B1 & C1 & G1 & _).
  rewrite <- Er1 in HF1. rewrite <- Ev1 in Hv1.
  destruct (round_data_real q1 rm1 D1' E1 m1 Hq1 HD1' Hrm1 A1 B1 C1)
    as (Ha & HX & HF & HS & HP & HM & HT).
  rewrite HS in Hv1. rewrite HP in G1.
  set (a := bpow E1) in *. set (X := (IZR q1 * a)%R) in *.
  set (Fa := (IZR rm1 / IZR D1' * a)%R) in *.
  destruct R2 as [[Ev2 [s2 ->]]|(N2 & D2 & ex2 & HN2 & HD2 & Hex2 & Ev2 & Er2)].
  { cbn [F2R]. rewrite HF1.
    assert (X = 0 /\ Fa = 0)%R as [EX EF] by (split; lra).
    destruct HM as [(_ & -> & _)|(_ & _ & Hh)]; lra. }
  rewrite Er2 in Hg2.
  destruct (round_data N2 D2 ex2 HN2 HD2 Hex2 Hg2)
    as (q2 & rm2 & D2' & E2 & m2 & Hq2 & HD2' & Hrm2 & Hv2 & HF2 & A2 & B2 & C2 & G2 & _).
  rewrite <- Er2 in HF2. rewrite <- Ev2 in Hv2. rewrite <- Er2 in Hg2. rewrite <- Er1 in Hg1.
  destruct (round_data_real q2 rm2 D2' E2 m2 Hq2 HD2' Hrm2 A2 B2 C2)
    as (Hb & HY & HFb & HS2 & HP2 & HM2 & HT2).
  rewrite HS2 in Hv2. rewrite HP2 in G2.
  set (b := bpow E2) in *. set (Y := (IZR q2 * b)%R) in *.
  set (Fb := (IZR rm2 / IZR D2' * b)%R) in *.
  destruct (Rle_or_lt (F2R r1) (F2R r2)) as [|Hlt]; [assumption|exfalso].
  pose proof (G1 r2 Hg2) as K1. pose proof (G2 r1 Hg1) as K2.
  rewrite HF1, HF2 in *.
  destruct HM as [(Em1 & EM1 & Hh1)|(Em1 & EM1 & Hh1)];
  destruct HM2 as [(Em2 & EM2 & Hh2)|(Em2 & EM2 & Hh2)];
    rewrite EM1, EM2 in *; try lra.
  (* the first value was rounded up and the second down *)
  assert (Eab : a = b) by lra.
  assert (EXY : X = Y) by lra.
  assert (T1 : Fa = (a / 2)%R) by lra.
  assert (T2 : Fb = (b / 2)%R) by lra.
  destruct (C1 (HT T1)) as [_ Ev1']. destruct (C2 (HT2 T2)) as [_ Ev2'].
  assert (Eq : q1 = q2).
  { apply eq_IZR. unfold X, Y in EXY. rewrite <- Eab in EXY.
    apply (Rmult_eq_reg_r a); [exact EXY|lra]. }
  rewrite Em1 in Ev1'. rewrite Em2 in Ev2'. rewrite Eq in Ev1'.
  replace (q2 + 1) with (Z.succ q2) in Ev1' by lia.
  rewrite Z.even_succ, <- Z.negb_even, Ev2' in Ev1'. discriminate.
Qed.

(** ** The operations round their exact results *)

Lemma rounds_to_exact M ex :
  0 <= M -> ex <= fexp53 (Zdigits2 M + ex) ->
  rounds_to (IZR M * bpow ex) (binary_round_aux prec emax false M ex loc_Exact).
Proof.
  intros HM Hex. right. exists M, 1, ex.
  rewrite Z.div_1_r, Z.mod_1_r. split; [exact HM|]. split; [lia|].
  split; [exact Hex|]. split; [|reflexivity].
  unfold Rdiv. rewrite Rinv_1, Rmult_1_r. reflexivity.
Qed.

(** A float is its own value rounded. *)
Lemma rounds_to_self x : good x -> rounds_to (F2R x) x.
Proof.
  intros Hx. destruct (good_cases x Hx) as [[s ->]|(m & e & -> & Hv)].
  - left. split; [reflexivity|eauto].
  - pose proof (valid_finite _ _ _ Hv) as [Hc He].
    pose proof (valid_finite_bounds _ _ _ Hv) as (_ & Hm & Hb).
    change (Zpos (digits2_pos m)) with (Zdigits2 (Zpos m)) in Hc.
    pose proof (rounds_to_exact (Zpos m) e ltac:(lia) ltac:(lia)) as R.
    cbn [F2R cond_Zopp].
    replace (binary_round_aux prec emax false (Zpos m) e loc_Exact)
      with (S754_finite false m e) in R; [exact R|].
    destruct (binary_round_aux_shape (Zpos m) 1 e ltac:(lia) ltac:(lia)) as (_ & _ & _ & Er).
    { rewrite Z.div_1_r. lia. }
    rewrite Z.div_1_r, Z.mod_1_r in Er. change (loc_of 0 1) with loc_Exact in Er.
    rewrite Er. clear Er.
    replace (fexp53 (Zdigits2 (Zpos m) + e) - e) with 0 by lia.
    rewrite Z.pow_0_r, Z.mul_1_r, Z.add_0_r.
    destruct (rne_rec (Zpos m) 1 ltac:(lia) ltac:(lia)) as [_ Hex].
    rewrite (Hex (Z.mod_1_r _)), Z.div_1_r.
    destruct (Z.eqb_spec (Zpos m) 0); [lia|].
    destruct (Z.ltb_spec (Zpos m) (2 ^ 53)); [|lia].
    destruct (Z.leb_spec e 971); [|lia]. reflexivity.
Qed.

Lemma binary_round_rounds m e :
  rounds_to (IZR (Zpos m) * bpow e) (binary_round prec emax false m e).
Proof.
  unfold binary_round. change (fexp prec emax ?a) with (fexp53 a).
  set (fe := fexp53 (Zpos (digits2_pos m) + e)).
  destruct (shl_align_spec m e fe) as [Hsnd Hfst].
  destruct (shl_align m e fe) as [mz ez]. cbn [fst snd] in Hsnd, Hfst.
  assert (Hsh : 0 <= e - ez) by lia.
  replace (IZR (Zpos m) * bpow e)%R with (IZR (Zpos mz) * bpow ez)%R.
  - apply rounds_to_exact; [lia|].
    rewrite Hfst, <- Hsnd, Zdigits2_shift by lia.
    change (Zdigits2 (Zpos m)) with (Zpos (digits2_pos m)).
    replace (Zpos (digits2_pos m) + (e - ez) + ez) with (Zpos (digits2_pos m) + e) by lia.
    fold fe. lia.
  - rewrite Hfst, <- Hsnd, IZR_grid by lia. reflexivity.
Qed.

Lemma binary_normalize_rounds M e :
  0 <= M -> rounds_to (IZR M * bpow e) (binary_normalize prec emax M e false).
Proof.
  intros HM. destruct M as [|m|m]; [|apply binary_round_rounds|lia].
  left. split; [rewrite Rmult_0_l; reflexivity|eauto].
Qed.

Lemma fsub_rounds x y :
  good x -> good y -> (F2R y <= F2R x)%R -> rounds_to (F2R x - F2R y) (fsub x y).
Proof.
  intros Hx Hy Hle.
  destruct (good_cases x Hx) as [[sx ->]|(mx & ex & -> & Hvx)];
  destruct (good_cases y Hy) as [[sy ->]|(my & ey & -> & Hvy)].
  - left. cbn [F2R]. split; [lra|]. destruct sx, sy; eauto.
  - exfalso. cbn [F2R cond_Zopp] in Hle.
    pose proof (bpow_pos ey). assert (0 < IZR (Zpos my))%R by (apply IZR_lt; lia). nra.
  - replace (F2R (S754_finite false mx ex) - F2R (S754_zero sy))%R
      with (F2R (S754_finite false mx ex)) by (cbn [F2R]; lra).
    apply (rounds_to_self (S754_finite false mx ex) Hx).
  - unfold fsub, SFsub. cbn [cond_Zopp].
    set (ez := Z.min ex ey).
    cbn [F2R cond_Zopp] in Hle |- *.
    pose proof (aligned_value mx ex ez ltac:(unfold ez; lia)) as Ax.
    pose proof (aligned_value my ey ez ltac:(unfold ez; lia)) as Ay.
    set (ax := Zpos (fst (shl_align mx ex ez))) in *.
    set (ay := Zpos (fst (shl_align my ey ez))) in *.
    assert (Ev : (IZR (ax - ay) * bpow ez
                  = IZR (Zpos mx) * bpow ex - IZR (Zpos my) * bpow ey)%R).
    { rewrite minus_IZR, <- Ax, <- Ay. ring. }
    rewrite <- Ev. apply binary_normalize_rounds.
    apply le_IZR. pose proof (bpow_pos ez).
    assert (0 <= IZR (ax - ay) * bpow ez)%R by (rewrite Ev; lra). nra.
Qed.

Lemma fadd_rounds x y :
  good x -> good y -> rounds_to (F2R x + F2R y) (fadd x y).
Proof.
  intros Hx Hy.
  destruct (good_cases x Hx) as [[sx ->]|(mx & ex & -> & Hvx)];
  destruct (good_cases y Hy) as [[sy ->]|(my & ey & -> & Hvy)].
  - left. cbn [F2R]. split; [lra|]. destruct sx, sy; eauto.
  - replace (F2R (S754_zero sx) + F2R (S754_finite false my ey))%R
      with (F2R (S754_finite false my ey)) by (cbn [F2R]; lra).
    apply (rounds_to_self (S754_finite false my ey) Hy).
  - replace (F2R (S754_finite false mx ex) + F2R (S754_zero sy))%R
      with (F2R (S754_finite false mx ex)) by (cbn [F2R]; lra).
    apply (rounds_to_self (S754_finite false mx ex) Hx).
  - unfold fadd, SFadd. cbn [cond_Zopp].
    set (ez := Z.min ex ey).
    cbn [F2R cond_Zopp].
    pose proof (aligned_value mx ex ez ltac:(unfold ez; lia)) as Ax.
    pose proof (aligned_value my ey ez ltac:(unfold ez; lia)) as Ay.
    set (ax := Zpos (fst (shl_align mx ex ez))) in *.
    set (ay := Zpos (fst (shl_align my ey ez))) in *.
    assert (Ev : (IZR (ax + ay) * bpow ez
                  = IZR (Zpos mx) * bpow ex + IZR (Zpos my) * bpow ey)%R).
    { rewrite plus_IZR, <- Ax, <- Ay. ring. }
    rewrite <- Ev. apply binary_normalize_rounds. unfold ax, ay. lia.
Qed.

Lemma fmul_rounds x y :
  good x -> good y -> rounds_to (F2R x * F2R y) (fmul x y).
Proof.
  intros Hx Hy.
  destruct (good_cases x Hx) as [[sx ->]|(mx & ex & -> & Hvx)];
  destruct (good_cases y Hy) as [[sy ->]|(my & ey & -> & Hvy)];
    try (left; cbn [F2R]; split; [lra|cbn; eauto]).
  unfold fmul, SFmul. cbn [xorb F2R cond_Zopp].
  replace (IZR (Zpos mx) * bpow ex * (IZR (Zpos my) * bpow ey))%R
    with (IZR (Zpos (mx * my)) * bpow (ex + ey))%R
    by (rewrite Pos2Z.inj_mul, mult_IZR, bpow_add; ring).
  apply rounds_to_exact; [lia|].
  pose proof (valid_finite_bounds _ _ _ Hvx) as (Hex & Hmx & Hbx).
  pose proof (valid_finite_bounds _ _ _ Hvy) as (Hey & Hmy & Hby).
  rewrite Pos2Z.inj_mul.
  destruct (Z.eq_dec ex (-1074)) as [Ex|Ex]; [destruct (Z.eq_dec ey (-1074)) as [Ey|Ey]|].
  + unfold fexp53. lia.
  + specialize (Hby ltac:(lia)).
    assert (52 < Zdigits2 (Zpos mx * Zpos my)) by (apply Zdigits2_ge; [lia|nia]).
    unfold fexp53. lia.
  + specialize (Hbx ltac:(lia)).
    assert (52 < Zdigits2 (Zpos mx * Zpos my)) by (apply Zdigits2_ge; [lia|nia]).
    unfold fexp53. lia.
Qed.

Lemma fdiv_rounds x my ey :
  good x ->
  rounds_to (F2R x / F2R (S754_finite false my ey)) (fdiv x (S754_finite false my ey)).
Proof.
  intros Hx.
  destruct (good_cases x Hx) as [[sx ->]|(mx & ex & -> & Hvx)].
  { left. cbn [F2R]. unfold Rdiv. rewrite Rmult_0_l. split; [reflexivity|cbn; eauto]. }
  unfold fdiv, SFdiv. rewrite SFdiv_core_binary_spec. cbn [xorb].
  set (e' := Z.min (fexp53 (Zdigits2 (Zpos mx) + ex - (Zdigits2 (Zpos my) + ey))) (ex - ey)).
  set (s := ex - ey - e').
  assert (Hs : 0 <= s) by (unfold s, e'; lia).
  pose proof (pow2_pos s Hs) as Hps.
  right. exists (Zpos mx * 2 ^ s), (Zpos my), e'.
  split; [lia|]. split; [lia|]. split; [|split; [|reflexivity]].
  - pose proof (div_digits mx my s Hs) as Hd.
    assert (Hle : e' <= fexp53 (Zdigits2 (Zpos mx) + ex - (Zdigits2 (Zpos my) + ey)))
      by (unfold e'; lia).
    etransitivity; [exact Hle|]. apply fexp53_mono. unfold s in *. lia.
  - cbn [F2R cond_Zopp].
    rewrite mult_IZR, IZR_pow2 by lia.
    replace ex with (s + e' + ey) at 1 by (unfold s; lia). rewrite !bpow_add.
    pose proof (bpow_pos ey). assert (0 < IZR (Zpos my))%R by (apply IZR_lt; lia).
    field. split; lra.
Qed.

(** ** The transitions are monotone *)

Lemma progress_mono t1 t2 start :
  good t1 -> good t2 -> good start ->
  (F2R start <= F2R t1)%R -> (F2R t1 <= F2R t2)%R ->
  (F2R t2 - F2R start <= F2R TRANSITION_TIME)%R ->
  (F2R ((t1 ⊖ start) ⊘ TRANSITION_TIME)%py <= F2R ((t2 ⊖ start) ⊘ TRANSITION_TIME)%py)%R.
Proof.
  intros H1 H2 Hs Hlo Hle Hhi.
  assert (Hc : good TRANSITION_TIME) by (apply good_closed; vm_compute; reflexivity).
  assert (H0 : good (S754_zero false)) by (split; reflexivity).
  destruct (fsub_bounds t1 start (S754_zero false) TRANSITION_TIME H1 Hs H0 Hc)
    as [Hd1 _]; [cbn [F2R]; lra|].
  destruct (fsub_bounds t2 start (S754_zero false) TRANSITION_TIME H2 Hs H0 Hc)
    as [Hd2 _]; [cbn [F2R]; lra|].
  assert (Hd : (F2R (t1 ⊖ start)%py <= F2R (t2 ⊖ start)%py)%R).
  { apply (rounds_to_mono (F2R t1 - F2R start) (F2R t2 - F2R start));
      try assumption; try (apply fsub_rounds; assumption || lra). lra. }
  destruct (progress_bounds t1 start H1 Hs Hlo ltac:(lra)) as [Hp1 _].
  destruct (progress_bounds t2 start H2 Hs ltac:(lra) Hhi) as [Hp2 _].
  revert Hp1 Hp2.
  change TRANSITION_TIME with (S754_finite false 7205759403792794 (-56)) at 1 2 3 4.
  intros Hp1 Hp2.
  apply (rounds_to_mono
           (F2R (t1 ⊖ start)%py / F2R (S754_finite false 7205759403792794 (-56)))
           (F2R (t2 ⊖ start)%py / F2R (S754_finite false 7205759403792794 (-56))));
    try assumption; try (apply fdiv_rounds; assumption).
  rewrite (F2R_frac _ 56 72057594037927936 eq_refl).
  apply Rmult_le_compat_r; [|exact Hd].
  apply Rlt_le, Rinv_0_lt_compat. lra.
Qed.

Lemma half_progress_mono p1 p2 :
  good p1 -> good p2 -> (F2R p1 <= F2R p2)%R -> (F2R p2 <= 1)%R ->
  (F2R (literal 5 1 ⊗ p1)%py <= F2R (literal 5 1 ⊗ p2)%py)%R.
Proof.
  intros H1 H2 Hle Hhi.
  assert (Hh : good (literal 5 1)) by (apply good_closed; vm_compute; reflexivity).
  pose proof (F2R_nonneg p1 H1). pose proof (F2R_nonneg p2 H2).
  destruct (half_progress_bounds p1 H1 ltac:(lra)) as [G1 _].
  destruct (half_progress_bounds p2 H2 ltac:(lra)) as [G2 _].
  apply (rounds_to_mono (F2R (literal 5 1) * F2R p1) (F2R (literal 5 1) * F2R p2));
    try assumption; try (apply fmul_rounds; assumption).
  rewrite F2R_half. lra.
Qed.

Lemma fade_mono p1 p2 :
  good p1 -> good p2 -> (F2R p1 <= F2R p2)%R -> (F2R p2 <= 1)%R ->
  (F2R (literal 10 1 ⊖ literal 5 1 ⊗ p2)%py <= F2R (literal 10 1 ⊖ literal 5 1 ⊗ p1)%py)%R.
Proof.
  intros H1 H2 Hle Hhi.
  assert (Ho : good (literal 10 1)) by (apply good_closed; vm_compute; reflexivity).
  pose proof (F2R_nonneg p1 H1). pose proof (F2R_nonneg p2 H2).
  pose proof (half_progress_mono p1 p2 H1 H2 Hle Hhi) as Hm.
  destruct (half_progress_bounds p1 H1 ltac:(lra)) as [G1 B1].
  destruct (half_progress_bounds p2 H2 ltac:(lra)) as [G2 B2].
  destruct (fade_bounds p1 H1 ltac:(lra)) as [V1 _].
  destruct (fade_bounds p2 H2 ltac:(lra)) as [V2 _].
  apply (rounds_to_mono (F2R (literal 10 1) - F2R (literal 5 1 ⊗ p2)%py)
                        (F2R (literal 10 1) - F2R (literal 5 1 ⊗ p1)%py));
    try assumption; try (apply fsub_rounds; try assumption; rewrite F2R_one; lra).
  lra.
Qed.

Lemma brighten_mono p1 p2 :
  good p1 -> good p2 -> (F2R p1 <= F2R p2)%R -> (F2R p2 <= 1)%R ->
  (F2R (literal 5 1 ⊕ literal 5 1 ⊗ p1)%py <= F2R (literal 5 1 ⊕ literal 5 1 ⊗ p2)%py)%R.
Proof.
  intros H1 H2 Hle Hhi.
  assert (Hh : good (literal 5 1)) by (apply good_closed; vm_compute; reflexivity).
  pose proof (F2R_nonneg p1 H1). pose proof (F2R_nonneg p2 H2).
  pose proof (half_progress_mono p1 p2 H1 H2 Hle Hhi) as Hm.
  destruct (half_progress_bounds p1 H1 ltac:(lra)) as [G1 B1].
  destruct (half_progress_bounds p2 H2 ltac:(lra)) as [G2 B2].
  destruct (brighten_bounds p1 H1 ltac:(lra)) as [V1 _].
  destruct (brighten_bounds p2 H2 ltac:(lra)) as [V2 _].
  apply (rounds_to_mono (F2R (literal 5 1) + F2R (literal 5 1 ⊗ p1)%py)
                        (F2R (literal 5 1) + F2R (literal 5 1 ⊗ p2)%py));
    try assumption; try (apply fadd_rounds; assumption).
  lra.
Qed.

Lemma flt_later t1 t2 c :
  good t1 -> good t2 -> good c -> (F2R t1 <= F2R t2)%R ->
  flt t1 c = false -> flt t2 c = false.
Proof.
  intros H1 H2 Hc Hle G. apply flt_false; try assumption.
  pose proof (flt_false_F2R t1 c H1 Hc G). lra.
Qed.

Lemma flt_earlier t1 t2 c :
  good t1 -> good t2 -> good c -> (F2R t1 <= F2R t2)%R ->
  flt t2 c = true -> flt t1 c = true.
Proof.
  intros H1 H2 Hc Hle G. apply flt_true; try assumption.
  apply (flt_F2R t2 c H2 Hc) in G. lra.
Qed.

(** Before the brightening starts the opacity does not increase with
    time, and once the fade has ended it does not decrease. *)
Lemma opacity_value_mono fs bs t1 t2 mf ef mb eb :
  window_ok fs mf ef -> window_ok bs mb eb ->
  (F2R fs <= F2R (S754_finite false mf ef))%R ->
  (F2R (S754_finite false mf ef) <= F2R bs)%R ->
  (F2R bs <= F2R (S754_finite false mb eb))%R ->
  good t1 -> good t2 -> (F2R t1 <= F2R t2)%R ->
  (flt t2 bs = true -> (F2R (opacity_value fs bs t2) <= F2R (opacity_value fs bs t1))%R) /\
  (flt t1 (S754_finite false mf ef) = false ->
   (F2R (opacity_value fs bs t1) <= F2R (opacity_value fs bs t2))%R).
Proof.
  intros Wf Wb O1 O2 O3 H1 H2 Hle.
  destruct (opacity_value_bounds fs bs t1 _ _ _ _ Wf Wb H1) as [_ B1].
  destruct (opacity_value_bounds fs bs t2 _ _ _ _ Wf Wb H2) as [_ B2].
  destruct Wf as (Hfs & Ef & Hvf & Hmf & Hcf). destruct Wb as (Hbs & Eb & Hvb & Hmb & Hcb).
  assert (Hhi : good (S754_finite false mf ef)) by (split; [exact Hvf|reflexivity]).
  assert (Hhb : good (S754_finite false mb eb)) by (split; [exact Hvb|reflexivity]).
  revert B1 B2. unfold opacity_value. rewrite Ef, Eb. intros B1 B2.
  split.
  - intros G3.
    pose proof (flt_earlier t1 t2 bs H1 H2 Hbs Hle G3) as G3'.
    revert B1 B2. rewrite G3, G3'.
    destruct (flt t1 fs) eqn:G1; [rewrite F2R_one; intros; lra|].
    rewrite (flt_later t1 t2 fs H1 H2 Hfs Hle G1).
    destruct (flt t1 (S754_finite false mf ef)) eqn:G2.
    + destruct (flt t2 (S754_finite false mf ef)) eqn:G2'.
      * intros _ _.
        pose proof (flt_later t1 t2 fs H1 H2 Hfs Hle G1) as G1'.
        destruct (window_bounds t1 fs mf ef H1 Hfs Hvf Hmf Hcf G1 G2) as [L1 U1].
        destruct (window_bounds t2 fs mf ef H2 Hfs Hvf Hmf Hcf G1' G2') as [L2 U2].
        destruct (progress_bounds t1 fs H1 Hfs L1 U1) as [P1 Q1].
        destruct (progress_bounds t2 fs H2 Hfs L2 U2) as [P2 Q2].
        apply fade_mono; try assumption; [|lra].
        apply progress_mono; assumption.
      * rewrite F2R_half. intros; lra.
    + rewrite (flt_later t1 t2 _ H1 H2 Hhi Hle G2). intros; lra.
  - intros G2.
    assert (G1 : flt t1 fs = false).
    { apply flt_false; try assumption.
      pose proof (flt_false_F2R t1 _ H1 Hhi G2). lra. }
    revert B1 B2. rewrite G1, G2.
    rewrite (flt_later t1 t2 fs H1 H2 Hfs Hle G1).
    rewrite (flt_later t1 t2 _ H1 H2 Hhi Hle G2).
    destruct (flt t1 bs) eqn:G3; [rewrite F2R_half; intros; lra|].
    rewrite (flt_later t1 t2 bs H1 H2 Hbs Hle G3).
    destruct (flt t1 (S754_finite false mb eb)) eqn:G4.
    + destruct (flt t2 (S754_finite false mb eb)) eqn:G4'.
      * intros _ _.
        pose proof (flt_later t1 t2 bs H1 H2 Hbs Hle G3) as G3'.
        destruct (window_bounds t1 bs mb eb H1 Hbs Hvb Hmb Hcb G3 G4) as [L1 U1].
        destruct (window_bounds t2 bs mb eb H2 Hbs Hvb Hmb Hcb G3' G4') as [L2 U2].
        destruct (progress_bounds t1 bs H1 Hbs L1 U1) as [P1 Q1].
        destruct (progress_bounds t2 bs H2 Hbs L2 U2) as [P2 Q2].
        apply brighten_mono; try assumption; [|lra].
        apply progress_mono; assumption.
      * rewrite F2R_one. intros; lra.
    + rewrite (flt_later t1 t2 _ H1 H2 Hhb Hle G4). intros; lra.
Qed.

Lemma valid_fle_cases t :
  valid t = true -> is_nan t = false ->
  (t ⩽ literal 0 1)%py = true \/ (good t /\ (0 < F2R t)%R) \/ t = S754_infinity false.
Proof.
  intros Hv Hn. destruct t as [s|[|]| |[|] m e]; try discriminate.
  - left. destruct s; reflexivity.
  - left. reflexivity.
  - right. right. reflexivity.
  - left. reflexivity.
  - right. left. split; [split; [exact Hv|reflexivity]|].
    cbn [F2R cond_Zopp]. pose proof (bpow_pos e).
    assert (0 < IZR (Zpos m))%R by (apply IZR_lt; lia). nra.
Qed.

Lemma fle_infinity_l t : (S754_infinity false ⩽ t)%py = true -> t = S754_infinity false.
Proof. destruct t as [s|[|]| |[|] m e]; try discriminate. reflexivity. Qed.

Lemma fle_infinity_r c : good c -> (S754_infinity false ⩽ c)%py = false.
Proof. intros [_ Hn]. destruct c as [s|[|]| |[|] m e]; try discriminate; reflexivity. Qed.

Lemma fle_zero_trans t1 t2 :
  (t1 ⩽ t2)%py = true -> (t2 ⩽ literal 0 1)%py = true -> (t1 ⩽ literal 0 1)%py = true.
Proof.
  intros H1 H2. pose proof (fle_not_nan _ _ H1) as [N1 N2].
  rewrite (fle_key _ _ N1 N2) in H1. rewrite (fle_key t2 (literal 0 1) N2 eq_refl) in H2.
  rewrite (fle_key t1 (literal 0 1) N1 eq_refl).
  apply bool_decide_eq_true in H1, H2. apply bool_decide_eq_true.
  change (literal 0 1) with (S754_zero false) in *.
  unfold key_le in *. cbn [key1 key2 key3] in *.
  destruct t1 as [s1|s1| |s1 m1 e1], t2 as [s2|s2| |s2 m2 e2]; try discriminate;
    cbn [key1 key2 key3] in *; try destruct s1; try destruct s2; lia.
Qed.

Lemma fle_good_F2R t1 t2 : good t1 -> good t2 -> (t1 ⩽ t2)%py = true -> (F2R t1 <= F2R t2)%R.
Proof. intros H1 H2 H. apply (fle_F2R t1 t2 H1 H2), H. Qed.

Lemma dot_monotone i fs bs mf ef mb eb :
  (i < NUM_DOTS)%nat ->
  FADE_START !! i = Some fs -> BRIGHTEN_START !! i = Some bs ->
  window_ok fs mf ef -> window_ok bs mb eb ->
  (F2R fs <= F2R (S754_finite false mf ef))%R ->
  (F2R (S754_finite false mf ef) <= F2R bs)%R ->
  (F2R bs <= F2R (S754_finite false mb eb))%R ->
  get_opacity_at_time i bs = Some (literal 5 1) ->
  forall t1 t2 v1 v2,
    valid t1 = true -> valid t2 = true -> (t1 ⩽ t2)%py = true ->
    get_opacity_at_time i t1 = Some v1 -> get_opacity_at_time i t2 = Some v2 ->
    ((t2 ⩽ bs)%py = true -> (v2 ⩽ v1)%py = true) /\
    ((fs ⊕ TRANSITION_TIME ⩽ t1)%py = true -> (v1 ⩽ v2)%py = true).
Proof.
  intros Hi Hf Hb Wf Wb O1 O2 O3 Hbs0 t1 t2 v1 v2 Hv1 Hv2 Hle G1 G2.
  destruct (opacity_range_any i t1 v1 Hv1 G1) as [R1lo R1hi].
  destruct (opacity_range_any i t2 v2 Hv2 G2) as [R2lo R2hi].
  pose proof (fle_not_nan _ _ Hle) as [N1 N2].
  pose proof Wf as (Hfs & Ef & Hvf & Hmf & Hcf). pose proof Wb as (Hbs & Eb & Hvb & Hmb & Hcb).
  assert (Hhi : good (S754_finite false mf ef)) by (split; [exact Hvf|reflexivity]).
  assert (Hhipos : (0 < F2R (S754_finite false mf ef))%R).
  { cbn [F2R cond_Zopp]. pose proof (bpow_pos ef).
    assert (0 < IZR (Zpos mf))%R by (apply IZR_lt; lia). nra. }
  assert (Gv : forall t, good t ->
             get_opacity_at_time i t = Some (opacity_value fs bs t) /\
             good (opacity_value fs bs t)).
  { intros t Ht. split; [apply get_opacity_value; assumption|].
    apply (opacity_value_bounds fs bs t _ _ _ _ Wf Wb Ht). }
  assert (H00 : good (literal 0 1)) by (split; reflexivity).
  split; intros H.
  - destruct (valid_fle_cases t1 Hv1 N1) as [Z1|[[Ht1 P1]| ->]].
    + rewrite (full_outside_cycle i t1 Hi (or_intror (or_introl Z1))) in G1.
      injection G1 as <-. exact R2hi.
    + destruct (valid_fle_cases t2 Hv2 N2) as [Z2|[[Ht2 P2]| ->]].
      * pose proof (fle_zero_trans t1 t2 Hle Z2) as Z1.
        rewrite (full_outside_cycle i t1 Hi (or_intror (or_introl Z1))) in G1.
        injection G1 as <-. exact R2hi.
      * pose proof (fle_good_F2R t1 t2 Ht1 Ht2 Hle) as Hr.
        destruct (Gv t1 Ht1) as [E1 Gd1]. destruct (Gv t2 Ht2) as [E2 Gd2].
        rewrite E1 in G1. rewrite E2 in G2. injection G1 as <-. injection G2 as <-.
        destruct (flt t2 bs) eqn:Hlt.
        -- apply fle_F2R; try assumption.
           apply (opacity_value_mono fs bs t1 t2 _ _ _ _ Wf Wb O1 O2 O3 Ht1 Ht2 Hr), Hlt.
        -- assert (Et : t2 = bs).
           { pose proof (fle_good_F2R t2 bs Ht2 Hbs H).
             pose proof (flt_false_F2R t2 bs Ht2 Hbs Hlt).
             destruct (good_F2R_inj t2 bs Ht2 Hbs ltac:(lra)) as [E|(s & s' & E & _)];
               [exact E|].
             rewrite E in P2. cbn [F2R] in P2. lra. }
           rewrite Et in E2 |- *. rewrite Hbs0 in E2. injection E2 as E2.
           rewrite <- E2. exact R1lo.
      * rewrite (fle_infinity_r bs Hbs) in H. discriminate.
    + apply fle_infinity_l in Hle. subst t2.
      rewrite (fle_infinity_r bs Hbs) in H. discriminate.
  - rewrite Ef in H.
    destruct (valid_fle_cases t2 Hv2 N2) as [Z2|[[Ht2 P2]| ->]].
    + exfalso. pose proof (fle_zero_trans t1 t2 Hle Z2) as Z1.
      pose proof (fle_zero_trans _ t1 H Z1) as Z0.
      apply (fle_F2R _ _ Hhi H00) in Z0.
      change (F2R (literal 0 1)) with 0%R in Z0. lra.
    + destruct (valid_fle_cases t1 Hv1 N1) as [Z1|[[Ht1 P1]| ->]].
      * exfalso. pose proof (fle_zero_trans _ t1 H Z1) as Z0.
        apply (fle_F2R _ _ Hhi H00) in Z0.
        change (F2R (literal 0 1)) with 0%R in Z0. lra.
      * pose proof (fle_good_F2R t1 t2 Ht1 Ht2 Hle) as Hr.
        destruct (Gv t1 Ht1) as [E1 Gd1]. destruct (Gv t2 Ht2) as [E2 Gd2].
        rewrite E1 in G1. rewrite E2 in G2. injection G1 as <-. injection G2 as <-.
        apply fle_F2R; try assumption.
        apply (opacity_value_mono fs bs t1 t2 _ _ _ _ Wf Wb O1 O2 O3 Ht1 Ht2 Hr).
        apply flt_false; try assumption. apply fle_good_F2R; assumption.
      * apply fle_infinity_l in Hle. subst t2. destruct Ht2 as [_ Hn]. discriminate.
    + assert (E : get_opacity_at_time i (S754_infinity false) = Some (literal 10 1)).
      { apply full_outside_cycle; [exact Hi|]. right. right. reflexivity. }
      rewrite E in G2. injection G2 as <-. exact R1hi.
Qed.

(** Evaluates the closed floats under [F2R] in the goal. *)
Ltac closed_values :=
  repeat match goal with
  | |- context [F2R ?c] =>
      let v := eval vm_compute in c in
      progress change c with v
  end;
  closed_reals; cbn [F2R].

Lemma opacity_monotone_all i t1 t2 v1 v2 fs bs :
  FADE_START !! i = Some fs -> BRIGHTEN_START !! i = Some bs ->
  valid t1 = true -> valid t2 = true -> (t1 ⩽ t2)%py = true ->
  get_opacity_at_time i t1 = Some v1 -> get_opacity_at_time i t2 = Some v2 ->
  ((t2 ⩽ bs)%py = true -> (v2 ⩽ v1)%py = true) /\
  ((fs ⊕ TRANSITION_TIME ⩽ t1)%py = true -> (v1 ⩽ v2)%py = true).
Proof.
  intros Hf Hb.
  destruct i as [|[|[|i]]]; [| | |discriminate]; injection Hf as <-; injection Hb as <-.
  - apply (dot_monotone 0 _ _ _ _ _ _ ltac:(unfold NUM_DOTS; lia) eq_refl eq_refl
             fade_window_0 brighten_window_0);
      [closed_values; lra | closed_values; lra | closed_values; lra | vm_compute; reflexivity].
  - apply (dot_monotone 1 _ _ _ _ _ _ ltac:(unfold NUM_DOTS; lia) eq_refl eq_refl
             fade_window_1 brighten_window_1);
      [closed_values; lra | closed_values; lra | closed_values; lra | vm_compute; reflexivity].
  - apply (dot_monotone 2 _ _ _ _ _ _ ltac:(unfold NUM_DOTS; lia) eq_refl eq_refl
             fade_window_2 brighten_window_2);
      [closed_values; lra | closed_values; lra | closed_values; lra | vm_compute; reflexivity].
Qed.

(** ** The alpha follows the opacity *)

Lemma int_of_float_floor x a :
  good x -> int_of_float x = Some a -> (IZR a <= F2R x)%R.
Proof.
  intros Hx.
  destruct (good_cases x Hx) as [[s ->]|(m & e & -> & Hv)]; cbn [F2R cond_Zopp int_of_float].
  - intros [= <-]. lra.
  - intros [= <-]. destruct e as [|p|p].
    + rewrite Z.pow_0_r, Z.mul_1_r. change (bpow 0) with 1%R. lra.
    + rewrite <- IZR_pow2, <- mult_IZR by lia. lra.
    + pose proof (pow2_pos (Zpos p) ltac:(lia)) as Hp.
      rewrite Z.quot_div_nonneg by lia.
      rewrite (bpow_neg_frac p _ eq_refl).
      assert (Hp' : (0 < IZR (2 ^ Zpos p))%R) by (apply IZR_lt; lia).
      pose proof (Z.mul_div_le (Zpos m) (2 ^ Zpos p) Hp) as Hd.
      apply IZR_le in Hd. rewrite mult_IZR in Hd.
      apply (Rmult_le_reg_r (IZR (2 ^ Zpos p))); [exact Hp'|].
      rewrite Rmult_assoc, Rinv_l by lra. lra.
Qed.

Lemma int_of_float_mono x y a b :
  good x -> good y -> (F2R x <= F2R y)%R ->
  int_of_float x = Some a -> int_of_float y = Some b -> a <= b.
Proof.
  intros Hx Hy Hle Ha Hb.
  pose proof (int_of_float_floor x a Hx Ha) as Hfl.
  destruct (good_cases y Hy) as [[s ->]|(m & e & -> & Hv)].
  - cbn in Hb. injection Hb as <-. cbn [F2R] in Hle. apply le_IZR. lra.
  - assert (Hup : exists N, (F2R (S754_finite false m e) <= IZR N)%R).
    { cbn [F2R cond_Zopp]. destruct e as [|p|p].
      - exists (Zpos m). change (bpow 0) with 1%R. lra.
      - exists (Zpos m * 2 ^ Zpos p). rewrite mult_IZR, IZR_pow2 by lia. lra.
      - exists (Zpos m). rewrite (bpow_neg_frac p _ eq_refl).
        pose proof (pow2_pos (Zpos p) ltac:(lia)) as Hp.
        assert (1 <= IZR (2 ^ Zpos p))%R by (apply IZR_le; lia).
        assert (0 < IZR (Zpos m))%R by (apply IZR_lt; lia).
        assert (/ IZR (2 ^ Zpos p) <= 1)%R.
        { rewrite <- Rinv_1. apply Rinv_le_contravar; lra. }
        nra. }
    destruct Hup as [N HN].
    destruct (int_of_float_bounds _ a N Hy ltac:(split; [lra|exact HN])) as (b' & Eb & Hb').
    rewrite Eb in Hb. injection Hb as <-. lia.
Qed.

(** The opacity at any time is a float between 0.5 and 1.0. *)
Lemma opacity_good_any i t v :
  valid t = true -> get_opacity_at_time i t = Some v ->
  good v /\ (1 / 2 <= F2R v <= 1)%R.
Proof.
  intros Hv Hi.
  assert (Hi3 : (i < 3)%nat).
  { unfold get_opacity_at_time in Hi. destruct (FADE_START !! i) eqn:E; [|discriminate].
    apply lookup_lt_Some in E. exact E. }
  assert (H1 : good (literal 10 1) /\ (1 / 2 <= F2R (literal 10 1) <= 1)%R).
  { split; [apply good_closed; vm_compute; reflexivity|]. rewrite F2R_one. lra. }
  destruct (is_nan t) eqn:Ht.
  { rewrite (full_outside_cycle i t Hi3 (or_introl Ht)) in Hi. injection Hi as <-. exact H1. }
  destruct (valid_fle_cases t Hv Ht) as [Z|[[Hg _]| ->]].
  - rewrite (full_outside_cycle i t Hi3 (or_intror (or_introl Z))) in Hi.
    injection Hi as <-. exact H1.
  - destruct i as [|[|[|i]]]; [| | |lia].
    + rewrite (get_opacity_value 0 t _ _ eq_refl eq_refl) in Hi. injection Hi as <-.
      exact (opacity_value_bounds _ _ t _ _ _ _ fade_window_0 brighten_window_0 Hg).
    + rewrite (get_opacity_value 1 t _ _ eq_refl eq_refl) in Hi. injection Hi as <-.
      exact (opacity_value_bounds _ _ t _ _ _ _ fade_window_1 brighten_window_1 Hg).
    + rewrite (get_opacity_value 2 t _ _ eq_refl eq_refl) in Hi. injection Hi as <-.
      exact (opacity_value_bounds _ _ t _ _ _ _ fade_window_2 brighten_window_2 Hg).
  - rewrite (full_outside_cycle i _ Hi3) in Hi; [injection Hi as <-; exact H1|].
    right. right. reflexivity.
Qed.

(** A greater opacity is drawn with an alpha that is not smaller. *)
Lemma alpha_mono v1 v2 a1 a2 :
  good v1 -> good v2 -> (1 / 2 <= F2R v1)%R -> (F2R v1 <= F2R v2)%R -> (F2R v2 <= 1)%R ->
  int_of_float (v1 ⊗ float_of_int 255)%py = Some a1 ->
  int_of_float (v2 ⊗ float_of_int 255)%py = Some a2 ->
  a1 <= a2.
Proof.
  intros H1 H2 Hlo Hle Hhi E1 E2.
  assert (H255 : good (float_of_int 255)) by (apply good_closed; vm_compute; reflexivity).
  assert (H127 : good (float_of_int 127)) by (apply good_closed; vm_compute; reflexivity).
  destruct (fmul_bounds v1 (float_of_int 255) (float_of_int 127) (float_of_int 255)
              H1 H255 H127 H255) as [G1 _]; [rewrite F2R_255, F2R_127; lra|].
  destruct (fmul_bounds v2 (float_of_int 255) (float_of_int 127) (float_of_int 255)
              H2 H255 H127 H255) as [G2 _]; [rewrite F2R_255, F2R_127; lra|].
  apply (int_of_float_mono _ _ a1 a2 G1 G2); [|assumption|assumption].
  apply (rounds_to_mono (F2R v1 * F2R (float_of_int 255)) (F2R v2 * F2R (float_of_int 255)));
    try assumption; try (apply fmul_rounds; assumption).
  rewrite F2R_255. lra.
Qed.

(** X5: each dot fades and brightens monotonically.  For two times t1
    <= t2, the opacity of a dot at t2 is not greater than at t1 as long
    as t2 is not after the dot's BRIGHTEN_START, and not smaller than at
    t1 once t1 is not before the end FADE_START + TRANSITION_TIME of
    its fade: in floating point, too, the opacity never moves against
    the direction of its transition. *)
Theorem opacity_monotone i t1 t2 v1 v2 fs bs :
  FADE_START !! i = Some fs -> BRIGHTEN_START !! i = Some bs ->
  valid t1 = true -> valid t2 = true -> (t1 ⩽ t2)%py = true ->
  get_opacity_at_time i t1 = Some v1 -> get_opacity_at_time i t2 = Some v2 ->
  ((t2 ⩽ bs)%py = true -> (v2 ⩽ v1)%py = true) /\
  ((fs ⊕ TRANSITION_TIME ⩽ t1)%py = true -> (v1 ⩽ v2)%py = true).
Proof. exact (opacity_monotone_all i t1 t2 v1 v2 fs bs). Qed.

Lemma opacity_monotone_witness :
  exists v1 v2,
    get_opacity_at_time 0 (literal 2 2) = Some v1 /\
    get_opacity_at_time 0 (literal 5 2) = Some v2 /\
    (v2 ⩽ v1)%py = true.
Proof.
  eexists. eexists. split; [vm_compute; reflexivity|]. split; [vm_compute; reflexivity|].
  refine (proj1 (opacity_monotone 0 (literal 2 2) (literal 5 2) _ _
                   (literal 0 1) (literal 75 2) _ _ _ _ _ _ _) _);
    vm_compute; reflexivity.
Defined.

(** X6: the alpha a dot is drawn with follows its opacity: for two
    times t1 <= t2, the alpha int(opacity * 255) at t2 is not greater
    than at t1 as long as t2 is not after the dot's BRIGHTEN_START, and
    not smaller once t1 is not before the end of its fade. *)
Theorem alpha_monotone i t1 t2 a1 a2 fs bs :
  FADE_START !! i = Some fs -> BRIGHTEN_START !! i = Some bs ->
  valid t1 = true -> valid t2 = true -> (t1 ⩽ t2)%py = true ->
  alpha_at i t1 = Some a1 -> alpha_at i t2 = Some a2 ->
  ((t2 ⩽ bs)%py = true -> a2 <= a1) /\
  ((fs ⊕ TRANSITION_TIME ⩽ t1)%py = true -> a1 <= a2).
Proof.
  intros Hf Hb Hv1 Hv2 Hle. unfold alpha_at.
  destruct (get_opacity_at_time i t1) as [v1|] eqn:G1; [|discriminate].
  destruct (get_opacity_at_time i t2) as [v2|] eqn:G2; [|discriminate].
  cbn [mbind option_bind]. intros E1 E2.
  destruct (opacity_good_any i t1 v1 Hv1 G1) as [Hg1 B1].
  destruct (opacity_good_any i t2 v2 Hv2 G2) as [Hg2 B2].
  destruct (opacity_monotone_all i t1 t2 v1 v2 fs bs Hf Hb Hv1 Hv2 Hle G1 G2) as [Ma Mb].
  split; intros H.
  - apply (alpha_mono v2 v1 a2 a1); try assumption; try lra.
    apply fle_good_F2R; [assumption|assumption|]. exact (Ma H).
  - apply (alpha_mono v1 v2 a1 a2); try assumption; try lra.
    apply fle_good_F2R; [assumption|assumption|]. exact (Mb H).
Qed.

Lemma alpha_monotone_witness :
  exists a1 a2,
    alpha_at 0 (literal 2 2) = Some a1 /\ alpha_at 0 (literal 5 2) = Some a2 /\ a2 <= a1.
Proof.
  eexists. eexists. split; [vm_compute; reflexivity|]. split; [vm_compute; reflexivity|].
  refine (proj1 (alpha_monotone 0 (literal 2 2) (literal 5 2) _ _
                   (literal 0 1) (literal 75 2) _ _ _ _ _ _ _) _);
    vm_compute; reflexivity.
Defined.

(* ===================================================================== *)
(** * The accuracy of the waveform *)
(* ===================================================================== *)

(** ** The error of one rounding *)

(** Rounding moves a value by at most half a unit in the last place of
    the result: 2^-53 of the result, or 2^-1075 for the smallest
    floats. *)
Lemma round_error v r :
  rounds_to v r -> good r ->
  (Rabs (F2R r - v) <= F2R r * bpow (-53) + bpow (-1075))%R.
Proof.
  intros [[-> [s ->]]|(N & D & ex & HN & HD & Hex & Ev & Er)] Hg.
  { cbn [F2R]. rewrite Rminus_0_r, Rabs_R0, Rmult_0_l, Rplus_0_l.
    apply Rlt_le, bpow_pos. }
  rewrite Er in Hg.
  destruct (round_data N D ex HN HD Hex Hg)
    as (q & rm & D' & E & m1 & Hq & HD' & Hrm & Hv & HF & A & B & C & _ & Hsize).
  rewrite <- Er in HF. rewrite <- Ev in Hv.
  destruct (round_data_real q rm D' E m1 Hq HD' Hrm A B C)
    as (Ha & HX & HFr & HS & _ & HM & _).
  rewrite HS in Hv. rewrite HF, Hv.
  set (a := bpow E) in *. set (X := (IZR q * a)%R) in *.
  set (Fa := (IZR rm / IZR D' * a)%R) in *.
  assert (Hhalf : (Rabs (IZR m1 * a - (X + Fa)) <= a / 2)%R).
  { destruct HM as [(_ & EM & Hh)|(_ & EM & Hh)]; rewrite EM; apply Rabs_le; lra. }
  assert (Hgrid : (a / 2 <= IZR m1 * a * bpow (-53) + bpow (-1075))%R).
  { pose proof (bpow_pos (-1075)) as Ht. pose proof (bpow_pos (-53)) as H53.
    destruct Hsize as [Hm|HE].
    - assert (Hm' : (bpow 52 <= IZR m1)%R) by (rewrite <- IZR_pow2 by lia; apply IZR_le; exact Hm).
      assert (E1 : (bpow 52 * bpow (-53) = 1 / 2)%R).
      { rewrite <- bpow_add. change (52 + -53) with (-1).
        rewrite (bpow_neg_frac 1 2 eq_refl). lra. }
      assert (a * bpow (-53) * bpow 52 <= a * bpow (-53) * IZR m1)%R.
      { apply Rmult_le_compat_l; [|exact Hm']. apply Rlt_le, Rmult_lt_0_compat; lra. }
      nra.
    - assert (Ea : (a / 2 = bpow (-1075))%R).
      { unfold a. rewrite HE. replace (-1074) with (-1075 + 1) by lia.
        rewrite bpow_add. assert (bpow 1 = 2%R) as -> by (unfold bpow; simpl; lra). lra. }
      assert (0 <= IZR m1 * a * bpow (-53))%R; [|lra].
      assert (0 <= IZR m1 * a)%R.
      { destruct HM as [(_ & EM & _)|(_ & EM & _)]; rewrite EM; lra. }
      apply Rmult_le_pos; lra. }
  lra.
Qed.

Lemma Rabs_bounds a b : (Rabs a <= b)%R -> (- b <= a <= b)%R.
Proof.
  intros H. pose proof (Rle_abs a). pose proof (Rle_abs (- a)) as H'.
  rewrite Rabs_Ropp in H'. lra.
Qed.

Lemma round_error_bounds v r :
  rounds_to v r -> good r ->
  (- (F2R r * bpow (-53) + bpow (-1075)) <= F2R r - v
   <= F2R r * bpow (-53) + bpow (-1075))%R.
Proof.
  intros Hr Hg. apply Rabs_bounds, round_error; assumption.
Qed.

Lemma bpow_53 : bpow (-53) = (/ 9007199254740992)%R.
Proof. apply (bpow_neg_frac 53 9007199254740992 eq_refl). Qed.

Lemma bpow_1075_small : (0 < bpow (-1075) <= / 81129638414606681695789005144064)%R.
Proof.
  split; [apply bpow_pos|].
  rewrite <- (bpow_neg_frac 106 81129638414606681695789005144064 eq_refl).
  apply bpow_le. lia.
Qed.

(** ** The error of a transition *)

(** The elapsed part of a transition, computed in floats, against
    (t - start) / (1 / 10) computed exactly. *)
Lemma progress_error t start :
  good t -> good start ->
  (F2R start <= F2R t)%R -> (F2R t - F2R start <= F2R TRANSITION_TIME)%R ->
  good ((t ⊖ start) ⊘ TRANSITION_TIME)%py /\
  (0 <= F2R ((t ⊖ start) ⊘ TRANSITION_TIME)%py <= 1)%R /\
  (Rabs (F2R ((t ⊖ start) ⊘ TRANSITION_TIME)%py - 10 * (F2R t - F2R start))
   <= 3 * bpow (-53))%R.
Proof.
  intros Ht Hs Hlo Hhi.
  assert (Hc : good TRANSITION_TIME) by (apply good_closed; vm_compute; reflexivity).
  assert (H0 : good (S754_zero false)) by (split; reflexivity).
  destruct (fsub_bounds t start (S754_zero false) TRANSITION_TIME Ht Hs H0 Hc)
    as [Hd Hdv]; [cbn [F2R]; lra|].
  cbn [F2R] in Hdv.
  pose proof (round_error_bounds _ _ (fsub_rounds t start Ht Hs Hlo) Hd) as E1.
  destruct (progress_bounds t start Ht Hs Hlo Hhi) as [Hp Hpv].
  split; [exact Hp|]. split; [exact Hpv|].
  revert Hp Hpv. change TRANSITION_TIME with (S754_finite false 7205759403792794 (-56)) at 1 2 3.
  intros Hp Hpv.
  pose proof (round_error_bounds _ _ (fdiv_rounds (t ⊖ start)%py 7205759403792794 (-56) Hd) Hp)
    as E2.
  rewrite (F2R_frac _ 56 72057594037927936 eq_refl) in E2.
  rewrite F2R_transition in *. rewrite bpow_53 in *.
  pose proof bpow_1075_small as [T0 T1].
  set (tiny := bpow (-1075)) in *.
  change (F2R ((t ⊖ start) ⊘ TRANSITION_TIME)%py)
    with (F2R ((t ⊖ start) ⊘ S754_finite false 7205759403792794 (-56))%py).
  set (d := F2R (t ⊖ start)%py) in *.
  set (p := F2R ((t ⊖ start)%py ⊘ S754_finite false 7205759403792794 (-56))%py) in *.
  set (D := (F2R t - F2R start)%R) in *.
  replace (d / (7205759403792794 / 72057594037927936))%R
    with (d * (72057594037927936 / 7205759403792794))%R in E2 by (field; lra).
  apply Rabs_le. split; lra.
Qed.

Lemma fade_error p D :
  good p -> (0 <= F2R p <= 1)%R ->
  (Rabs (F2R p - 10 * D) <= 3 * bpow (-53))%R ->
  (Rabs (F2R (literal 10 1 ⊖ literal 5 1 ⊗ p)%py - (1 - 5 * D))
   <= 3 * bpow (-53) + 2 * bpow (-1075))%R.
Proof.
  intros Hp Hpv Ep.
  assert (Hh : good (literal 5 1)) by (apply good_closed; vm_compute; reflexivity).
  assert (Ho : good (literal 10 1)) by (apply good_closed; vm_compute; reflexivity).
  destruct (half_progress_bounds p Hp Hpv) as [G B].
  destruct (fade_bounds p Hp Hpv) as [V W].
  pose proof (round_error_bounds _ _ (fmul_rounds _ _ Hh Hp) G) as E1.
  pose proof (round_error_bounds _ _
                (fsub_rounds _ _ Ho G ltac:(rewrite F2R_one; lra)) V) as E2.
  rewrite F2R_half in E1. rewrite F2R_one in E2.
  pose proof (Rle_abs (F2R p - 10 * D)). pose proof (Rle_abs (- (F2R p - 10 * D))) as H'.
  rewrite Rabs_Ropp in H'.
  rewrite bpow_53 in *. pose proof bpow_1075_small as [T0 T1].
  set (tiny := bpow (-1075)) in *.
  set (h := F2R (literal 5 1 ⊗ p)%py) in *.
  set (v := F2R (literal 10 1 ⊖ literal 5 1 ⊗ p)%py) in *.
  apply Rabs_le. split; lra.
Qed.

Lemma brighten_error p D :
  good p -> (0 <= F2R p <= 1)%R ->
  (Rabs (F2R p - 10 * D) <= 3 * bpow (-53))%R ->
  (Rabs (F2R (literal 5 1 ⊕ literal 5 1 ⊗ p)%py - (1 / 2 + 5 * D))
   <= 3 * bpow (-53) + 2 * bpow (-1075))%R.
Proof.
  intros Hp Hpv Ep.
  assert (Hh : good (literal 5 1)) by (apply good_closed; vm_compute; reflexivity).
  destruct (half_progress_bounds p Hp Hpv) as [G B].
  destruct (brighten_bounds p Hp Hpv) as [V W].
  pose proof (round_error_bounds _ _ (fmul_rounds _ _ Hh Hp) G) as E1.
  pose proof (round_error_bounds _ _ (fadd_rounds _ _ Hh G) V) as E2.
  rewrite F2R_half in E1, E2.
  pose proof (Rle_abs (F2R p - 10 * D)). pose proof (Rle_abs (- (F2R p - 10 * D))) as H'.
  rewrite Rabs_Ropp in H'.
  rewrite bpow_53 in *. pose proof bpow_1075_small as [T0 T1].
  set (tiny := bpow (-1075)) in *.
  set (h := F2R (literal 5 1 ⊗ p)%py) in *.
  set (v := F2R (literal 5 1 ⊕ literal 5 1 ⊗ p)%py) in *.
  apply Rabs_le. split; lra.
Qed.

Lemma bpow_50 : bpow (-50) = (/ 1125899906842624)%R.
Proof. apply (bpow_neg_frac 50 1125899906842624 eq_refl). Qed.

Lemma tenth_div z : (z / (1 / 10) = 10 * z)%R.
Proof. field. Qed.

(** The computed opacity against the exact waveform, for window ends
    that are within [g = 4/5 * 2^-53] of a tenth after their starts. *)
Lemma opacity_value_accuracy fs bs t mf ef mb eb :
  window_ok fs mf ef -> window_ok bs mb eb ->
  (F2R fs <= F2R (S754_finite false mf ef))%R ->
  (F2R (S754_finite false mf ef) <= F2R bs)%R ->
  (F2R fs + 1 / 10 <= F2R bs)%R ->
  (F2R bs <= F2R (S754_finite false mb eb))%R ->
  (Rabs (F2R (S754_finite false mf ef) - (F2R fs + 1 / 10)) <= / 11258999068426240)%R ->
  (Rabs (F2R (S754_finite false mb eb) - (F2R bs + 1 / 10)) <= / 11258999068426240)%R ->
  good t ->
  exists y, exact_opacity (F2R fs) (F2R bs) (F2R t) y /\
            (Rabs (F2R (opacity_value fs bs t) - y) <= bpow (-50))%R.
Proof.
  intros (Hfs & Ef & Hvf & Hmf & Hcf) (Hbs & Eb & Hvb & Hmb & Hcb) O1 O2 O3 O4 Gf Gb Ht.
  assert (Hhi : good (S754_finite false mf ef)) by (split; [exact Hvf|reflexivity]).
  assert (Hhb : good (S754_finite false mb eb)) by (split; [exact Hvb|reflexivity]).
  apply Rabs_bounds in Gf, Gb.
  pose proof bpow_1075_small as [T0 T1]. pose proof bpow_53 as U. pose proof bpow_50 as U'.
  unfold opacity_value, exact_opacity. rewrite Ef, Eb.
  set (hi := S754_finite false mf ef) in *. set (hb := S754_finite false mb eb) in *.
  destruct (flt t fs) eqn:G1.
  { exists 1%R. apply (flt_F2R t fs Ht Hfs) in G1.
    split; [left; split; [exact G1|reflexivity]|].
    rewrite F2R_one, U'. apply Rabs_le. split; lra. }
  pose proof (flt_false_F2R t fs Ht Hfs G1) as L1.
  destruct (flt t hi) eqn:G2.
  { destruct (window_bounds t fs mf ef Ht Hfs Hvf Hmf Hcf G1 G2) as [Hlo Hup].
    destruct (progress_error t fs Ht Hfs Hlo Hup) as (Hp & Hpv & Ep).
    pose proof (fade_error _ (F2R t - F2R fs) Hp Hpv Ep) as Ev.
    apply Rabs_bounds in Ev. apply (flt_F2R t hi Ht Hhi) in G2.
    set (v := F2R (literal 10 1 ⊖ literal 5 1 ⊗ ((t ⊖ fs) ⊘ TRANSITION_TIME))%py) in *.
    rewrite U in Ev. set (tiny := bpow (-1075)) in *.
    destruct (Rlt_or_le (F2R t) (F2R fs + 1 / 10)) as [C|C].
    - exists (1 - 1 / 2 * ((F2R t - F2R fs) / (1 / 10)))%R.
      split; [right; left; split; [lra|reflexivity]|].
      rewrite tenth_div, U'. apply Rabs_le. split; lra.
    - exists (1 / 2)%R.
      split; [right; right; left; split; [lra|reflexivity]|].
      rewrite U'. apply Rabs_le. split; lra. }
  pose proof (flt_false_F2R t hi Ht Hhi G2) as L2.
  destruct (flt t bs) eqn:G3.
  { apply (flt_F2R t bs Ht Hbs) in G3. rewrite F2R_half.
    destruct (Rlt_or_le (F2R t) (F2R fs + 1 / 10)) as [C|C].
    - exists (1 - 1 / 2 * ((F2R t - F2R fs) / (1 / 10)))%R.
      split; [right; left; split; [lra|reflexivity]|].
      rewrite tenth_div, U'. apply Rabs_le. split; lra.
    - exists (1 / 2)%R.
      split; [right; right; left; split; [lra|reflexivity]|].
      rewrite U'. apply Rabs_le. split; lra. }
  pose proof (flt_false_F2R t bs Ht Hbs G3) as L3.
  destruct (flt t hb) eqn:G4.
  { destruct (window_bounds t bs mb eb Ht Hbs Hvb Hmb Hcb G3 G4) as [Hlo Hup].
    destruct (progress_error t bs Ht Hbs Hlo Hup) as (Hp & Hpv & Ep).
    pose proof (brighten_error _ (F2R t - F2R bs) Hp Hpv Ep) as Ev.
    apply Rabs_bounds in Ev. apply (flt_F2R t hb Ht Hhb) in G4.
    set (v := F2R (literal 5 1 ⊕ literal 5 1 ⊗ ((t ⊖ bs) ⊘ TRANSITION_TIME))%py) in *.
    rewrite U in Ev. set (tiny := bpow (-1075)) in *.
    destruct (Rlt_or_le (F2R t) (F2R bs + 1 / 10)) as [C|C].
    - exists (1 / 2 + 1 / 2 * ((F2R t - F2R bs) / (1 / 10)))%R.
      split; [right; right; right; left; split; [lra|reflexivity]|].
      rewrite tenth_div, U'. apply Rabs_le. split; lra.
    - exists 1%R.
      split; [right; right; right; right; split; [lra|reflexivity]|].
      rewrite U'. apply Rabs_le. split; lra. }
  pose proof (flt_false_F2R t hb Ht Hhb G4) as L4. rewrite F2R_one.
  destruct (Rlt_or_le (F2R t) (F2R bs + 1 / 10)) as [C|C].
  - exists (1 / 2 + 1 / 2 * ((F2R t - F2R bs) / (1 / 10)))%R.
    split; [right; right; right; left; split; [lra|reflexivity]|].
    rewrite tenth_div, U'. apply Rabs_le. split; lra.
  - exists 1%R.
    split; [right; right; right; right; split; [lra|reflexivity]|].
    rewrite U'. apply Rabs_le. split; lra.
Qed.

Lemma dot_accuracy i fs bs mf ef mb eb :
  (i < NUM_DOTS)%nat ->
  FADE_START !! i = Some fs -> BRIGHTEN_START !! i = Some bs ->
  window_ok fs mf ef -> window_ok bs mb eb ->
  (F2R fs <= F2R (S754_finite false mf ef))%R ->
  (F2R (S754_finite false mf ef) <= F2R bs)%R ->
  (F2R fs + 1 / 10 <= F2R bs)%R ->
  (F2R bs <= F2R (S754_finite false mb eb))%R ->
  (Rabs (F2R (S754_finite false mf ef) - (F2R fs + 1 / 10)) <= / 11258999068426240)%R ->
  (Rabs (F2R (S754_finite false mb eb) - (F2R bs + 1 / 10)) <= / 11258999068426240)%R ->
  forall t v,
    valid t = true -> is_finite t = true -> get_opacity_at_time i t = Some v ->
    exists y, exact_opacity (F2R fs) (F2R bs) (F2R t) y /\
              (Rabs (F2R v - y) <= bpow (-50))%R.
Proof.
  intros Hi Hf Hb Wf Wb O1 O2 O3 O4 Gf Gb t v Hv Hfin G.
  assert (Hg : good t \/ exists m e, t = S754_finite true m e).
  { destruct t as [s|s| |[|] m e]; try discriminate.
    - left. split; [exact Hv|reflexivity].
    - right. exists m, e. reflexivity.
    - left. split; [exact Hv|reflexivity]. }
  destruct Hg as [Hg|(m & e & ->)].
  - rewrite (get_opacity_value i t fs bs Hf Hb) in G. injection G as <-.
    apply (opacity_value_accuracy fs bs t mf ef mb eb); assumption.
  - rewrite (full_outside_cycle i _ Hi) in G by (right; left; reflexivity).
    injection G as <-. exists 1%R. split.
    + left. split; [|reflexivity].
      destruct Wf as (Hfs & _).
      assert (0 <= F2R fs)%R.
      { destruct (good_cases fs Hfs) as [[s ->]|(m' & e' & -> & _)]; cbn [F2R cond_Zopp].
        - lra.
        - pose proof (bpow_pos e'). assert (0 < IZR (Zpos m'))%R by (apply IZR_lt; lia). nra. }
      assert (F2R (S754_finite true m e) < 0)%R; [|lra].
      cbn [F2R cond_Zopp]. pose proof (bpow_pos e).
      assert (IZR (- Zpos m) < 0)%R by (apply IZR_lt; lia). nra.
    + rewrite F2R_one, bpow_50. apply Rabs_le. split; lra.
Qed.

Lemma opacity_accuracy_all i t v fs bs :
  FADE_START !! i = Some fs -> BRIGHTEN_START !! i = Some bs ->
  valid t = true -> is_finite t = true ->
  get_opacity_at_time i t = Some v ->
  exists y, exact_opacity (F2R fs) (F2R bs) (F2R t) y /\
            (Rabs (F2R v - y) <= bpow (-50))%R.
Proof.
  intros Hf Hb.
  destruct i as [|[|[|i]]]; [| | |discriminate]; injection Hf as <-; injection Hb as <-.
  - apply (dot_accuracy 0 _ _ _ _ _ _ ltac:(unfold NUM_DOTS; lia) eq_refl eq_refl
             fade_window_0 brighten_window_0);
      try (apply Rabs_le; split); closed_values; lra.
  - apply (dot_accuracy 1 _ _ _ _ _ _ ltac:(unfold NUM_DOTS; lia) eq_refl eq_refl
             fade_window_1 brighten_window_1);
      try (apply Rabs_le; split); closed_values; lra.
  - apply (dot_accuracy 2 _ _ _ _ _ _ ltac:(unfold NUM_DOTS; lia) eq_refl eq_refl
             fade_window_2 brighten_window_2);
      try (apply Rabs_le; split); closed_values; lra.
Qed.

(** The start times of the script are the decimal numbers written in
    the source, exactly: dot i starts to fade at i/4 and to brighten at
    3/4 + i/4. *)
Lemma start_times_exact i fs bs :
  FADE_START !! i = Some fs -> BRIGHTEN_START !! i = Some bs ->
  F2R fs = (IZR (Z.of_nat i) / 4)%R /\ F2R bs = (3 / 4 + IZR (Z.of_nat i) / 4)%R.
Proof.
  intros Hf Hb.
  destruct i as [|[|[|i]]]; [| | |discriminate]; injection Hf as <-; injection Hb as <-;
    match goal with
    | |- context [Z.of_nat ?n] =>
        let z := eval vm_compute in (Z.of_nat n) in change (Z.of_nat n) with z
    end; split; closed_values; try lra.
Qed.

(** X15: the opacity computed in floating point is the exact waveform up
    to rounding.  For a dot with start times fs = i/4 and bs = 3/4 + i/4
    (the floats of the tables stand for exactly these numbers) and every
    finite time t, the float that get_opacity_at_time returns differs by
    at most 2^-50 from the piecewise linear waveform evaluated in exact
    arithmetic at the same t: 1 before fs, 1 - 0.5 * (t - fs) / 0.1 up
    to fs + 0.1, 0.5 up to bs, 0.5 + 0.5 * (t - bs) / 0.1 up to
    bs + 0.1, and 1 from there on, with 0.1 the decimal number and not
    its float. *)
Theorem opacity_accuracy i t v fs bs :
  FADE_START !! i = Some fs -> BRIGHTEN_START !! i = Some bs ->
  valid t = true -> is_finite t = true ->
  get_opacity_at_time i t = Some v ->
  F2R fs = (IZR (Z.of_nat i) / 4)%R /\ F2R bs = (3 / 4 + IZR (Z.of_nat i) / 4)%R /\
  exists y, exact_opacity (F2R fs) (F2R bs) (F2R t) y /\
            (Rabs (F2R v - y) <= bpow (-50))%R.
Proof.
  intros Hf Hb Hv Hfin G.
  destruct (start_times_exact i fs bs Hf Hb) as [E1 E2].
  split; [exact E1|]. split; [exact E2|].
  exact (opacity_accuracy_all i t v fs bs Hf Hb Hv Hfin G).
Qed.

Lemma opacity_accuracy_witness :
  exists v y,
    get_opacity_at_time 1 (literal 3 1) = Some v /\
    exact_opacity (F2R (literal 25 2)) (F2R (literal 10 1)) (F2R (literal 3 1)) y /\
    (Rabs (F2R v - y) <= bpow (-50))%R.
Proof.
  eexists.
  destruct (opacity_accuracy 1 (literal 3 1) _ (literal 25 2) (literal 10 1)
              eq_refl eq_refl eq_refl eq_refl ltac:(vm_compute; reflexivity))
    as (_ & _ & y & Hy & He).
  exists y. split; [vm_compute; reflexivity|]. split; [exact Hy|exact He].
Defined.
